(** * teapot-lidar: frame sources, trajectory bookkeeping and reference-cloud loading

    A shallow embedding of the Python sources
      pcapReader.py, serialPcapReader.py, sbetParser.py,
      navigator.py (relative mode) and absoluteNavigator.py (absolute mode).

    Conventions of the embedding.
    - Python floats and numpy float64 cells are idealised as real numbers [R]
      (exact arithmetic, no rounding, no NaN).
    - A numpy array of shape (n, 3) is a [list vec3]; an Open3D point cloud is
      a record of three such lists (points, colors, normals).
    - Python objects that are mutated through several names (the SbetRow
      objects held in [actual_coordinates]) live in an explicit store.
    - A Python exception is the [Raise] constructor of [result].
    - The Open3D calls with a simple meaning (transform, get_center, [+=],
      paint_uniform_color, reading and writing a cloud) are written out; the
      others (estimate_normals, voxel_down_sample), the Ouster SDK, the
      matcher classes, the clock and the classes of the repository that the
      sources only call (NavigatorBase, the reader API of navigator.py) are
      Section variables: the embedding fixes what the code at hand does with
      their results, not what they compute. *)

From Stdlib Require Import Reals Lra Lia ZArith List.
From Equations Require Import Equations.
From stdpp Require Import base option list strings gmap.

(** ** Exceptions and results *)

Inductive exn : Type :=
| IndexError
| ValueError
| NameError
| AttributeError
| KeyError
| FileNotFoundError
| JSONDecodeError.

Inductive result (A : Type) : Type :=
| Ok (a : A)
| Raise (e : exn).
Arguments Ok {A} a.
Arguments Raise {A} e.

(** The exception monad, with stdpp's [x ← c; k] notation. *)
#[global] Instance result_ret : MRet result := fun A a => Ok a.
#[global] Instance result_bind : MBind result := fun A B k r =>
  match r with
  | Ok a => k a
  | Raise e => Raise e
  end.

(** A value together with the equation that it is the scrutinee. *)
Definition inspect {A} (a : A) : {b : A | a = b} := exist _ a eq_refl.

(** ** Vectors and point clouds *)

Record vec3 : Type := V3 { vx : R; vy : R; vz : R }.

Definition vzero : vec3 := V3 0 0 0.
Definition vadd (a b : vec3) : vec3 :=
  V3 (vx a + vx b) (vy a + vy b) (vz a + vz b).
Definition vsub (a b : vec3) : vec3 :=
  V3 (vx a - vx b) (vy a - vy b) (vz a - vz b).
Definition vdot (a b : vec3) : R :=
  (vx a * vx b + vy a * vy b + vz a * vz b)%R.
(** [np.sqrt(np.dot(v, v))] *)
Definition vnorm (a : vec3) : R := sqrt (vdot a a).
(** Euclidean distance between two positions. *)
Definition dist (a b : vec3) : R := vnorm (vsub a b).

(** [o3d.geometry.PointCloud]: the three parallel arrays. *)
Record PointCloud : Type := mkCloud {
  points : list vec3;
  colors : list vec3;
  normals : list vec3
}.

Definition empty_cloud : PointCloud := mkCloud [] [] [].

(** Comparisons on floats, as booleans. *)
Definition Rgtb (a b : R) : bool := if Rlt_dec b a then true else false.
Definition Rltb (a b : R) : bool := if Rlt_dec a b then true else false.
Definition Rleb (a b : R) : bool := if Rle_dec a b then true else false.
Definition Rneqb (a b : R) : bool := if Req_dec_T a b then false else true.

(** ** pcapReader.py *)

(** [a[mask]] for a boolean [mask]: numpy raises IndexError unless the mask
    has as many entries as [a] has rows. *)
Fixpoint boolean_index {A} (mask : list bool) (a : list A) : result (list A) :=
  match mask, a with
  | [], [] => Ok []
  | b :: mask', x :: a' =>
      r ← boolean_index mask' a' ; Ok (if b then x :: r else r)
  | _, _ => Raise IndexError
  end.

(** Row predicates of the three filters (the expression inside [cloud[...]]). *)
Definition vehicle_mask (p : vec3) : bool :=
  let vw := 0.7%R in
  let vl := 2.2%R in
  (Rgtb (vx p) 0.2 || Rltb (vx p) (- vl))
  || (Rgtb (vy p) vw || Rltb (vy p) (- vw))
  || (Rgtb (vz p) 0.3 || Rltb (vz p) (- 2)).

Definition invalid_mask (p : vec3) : bool :=
  Rneqb (vx p) 0 && Rneqb (vy p) 0 && Rneqb (vz p) 0.

Definition distance_mask (meters : R) (p : vec3) : bool :=
  Rleb (sqrt (vx p ^ 2 + vy p ^ 2 + vz p ^ 2)) meters.

(** [remove_vehicle(frame, cloud)]; the one-argument call is
    [remove_vehicle frame frame] ([cloud = frame] when [cloud is None]). *)
Definition remove_vehicle {A} (frame : list vec3) (cloud : list A) : result (list A) :=
  boolean_index (map vehicle_mask frame) cloud.

Definition remove_invalid {A} (frame : list vec3) (cloud : list A) : result (list A) :=
  boolean_index (map invalid_mask frame) cloud.

Definition remove_outside_distance {A} (meters : R) (frame : list vec3) (cloud : list A)
  : result (list A) :=
  boolean_index (map (distance_mask meters) frame) cloud.

(** [skip_and_get]: [k] times [next(iterator)], then [return next(iterator)];
    StopIteration anywhere gives [None], and the iterator stays exhausted. *)
Fixpoint skip_and_get_n {S} (k : nat) (it : list S) : option S * list S :=
  match k, it with
  | _, [] => (None, [])
  | O, s :: it' => (Some s, it')
  | S k', _ :: it' => skip_and_get_n k' it'
  end.

Section PcapReader.

(** A [client.LidarScan]. *)
Variable scan : Type.
(** [self.xyzLut(scan).reshape((-1, 3))] *)
Variable xyzLut : scan -> list vec3.
(** [colorize(normalize(scan.field(self.channels[1]))).reshape((-1, 3))] *)
Variable colorize_key : scan -> list vec3.

Record PcapReader : Type := mkReader {
  pcap_path : string;
  scans : list scan;              (* the iterator self.scans, as what is left of it *)
  skip_frames : Z;
  max_distance : option R
}.

Definition set_max_distance (d : option R) (r : PcapReader) : PcapReader :=
  mkReader (pcap_path r) (scans r) (skip_frames r) d.
Definition set_scans (it : list scan) (r : PcapReader) : PcapReader :=
  mkReader (pcap_path r) it (skip_frames r) (max_distance r).

(** [self.skip_and_get(self.scans)]; [range(k)] is empty for [k <= 0]. *)
Definition skip_and_get (r : PcapReader) : option scan * PcapReader :=
  let '(o, it) := skip_and_get_n (Z.to_nat (skip_frames r)) (scans r) in
  (o, set_scans it r).

(** A reader is exhausted when its iterator cannot deliver another scan. *)
Definition reader_exhausted (r : PcapReader) : Prop := fst (skip_and_get r) = None.

(** The filtering part of [next_frame], lines 134-149. *)
Definition filter_frame (rv : bool) (md : option R) (xyz color_img : list vec3)
  : result PointCloud :=
  '(color_img, xyz) ←
      (if rv then
         color_img' ← remove_vehicle xyz color_img;
         xyz' ← remove_vehicle xyz xyz;
         Ok (color_img', xyz')
       else
         color_img' ← remove_invalid xyz color_img;
         xyz' ← remove_invalid xyz xyz;
         Ok (color_img', xyz'));
  '(color_img, xyz) ←
      (match md with
       | Some meters =>
           color_img' ← remove_outside_distance meters xyz color_img;
           xyz' ← remove_outside_distance meters xyz xyz;
           Ok (color_img', xyz')
       | None => Ok (color_img, xyz)
       end);
  Ok (mkCloud xyz color_img []).

(** The row predicate that [next_frame] ends up applying. *)
Definition frame_mask (rv : bool) (md : option R) (p : vec3) : bool :=
  (if rv then vehicle_mask p else invalid_mask p)
  && match md with Some meters => distance_mask meters p | None => true end.

(** [PcapReader.next_frame(remove_vehicle, timer)]; the timer calls only log. *)
Definition next_frame (rv : bool) (r : PcapReader)
  : result (option PointCloud) * PcapReader :=
  let '(o, r') := skip_and_get r in
  match o with
  | None => (Ok None, r')
  | Some sc =>
      (cloud ← filter_frame rv (max_distance r') (xyzLut sc) (colorize_key sc);
       Ok (Some cloud), r')
  end.

End PcapReader.

Arguments mkReader {scan} _ _ _ _.
Arguments pcap_path {scan} _.
Arguments scans {scan} _.
Arguments skip_frames {scan} _.
Arguments max_distance {scan} _.
Arguments set_max_distance {scan} _ _.
Arguments set_scans {scan} _ _.
Arguments skip_and_get {scan} _.
Arguments reader_exhausted {scan} _.
Arguments next_frame {scan} _ _ _ _.

(** ** serialPcapReader.py *)

Section SerialPcapReader.

Context {scan : Type}.
Variable xyzLut : scan -> list vec3.
Variable colorize_key : scan -> list vec3.

Record SerialPcapReader : Type := mkSerial {
  readers : list (PcapReader scan);
  current_reader_index : nat;
  serial_max_distance : option R;
  serial_pcap_path : option string
}.

(** [_set_metadata] *)
Definition _set_metadata (s : SerialPcapReader) : SerialPcapReader :=
  mkSerial (readers s) (current_reader_index s) (serial_max_distance s)
           (pcap_path <$> readers s !! current_reader_index s).

(** [_next_reader] *)
Definition _next_reader (s : SerialPcapReader) : SerialPcapReader :=
  _set_metadata
    (mkSerial (readers s) (S (current_reader_index s)) (serial_max_distance s)
              (serial_pcap_path s)).

(** The reader object at the current index, after a method mutated it. *)
Definition store_reader (r : PcapReader scan) (s : SerialPcapReader) : SerialPcapReader :=
  mkSerial (<[current_reader_index s := r]> (readers s)) (current_reader_index s)
           (serial_max_distance s) (serial_pcap_path s).

(** Every reader before the current one has been drained. [__init__] and
    [reset] establish this with index 0. *)
Definition serial_inv (s : SerialPcapReader) : Prop :=
  forall i r, (i < current_reader_index s)%nat ->
              readers s !! i = Some r -> reader_exhausted r.

(** [SerialPcapReader.next_frame]: the recursion of the source, which ends
    because every recursive call has moved the index one reader further. *)
Equations? serial_next_frame (rv : bool) (s : SerialPcapReader)
  : result (option PointCloud) * SerialPcapReader
  by wf (length (readers s) - current_reader_index s) lt :=
serial_next_frame rv s with inspect (readers s !! current_reader_index s) := {
  | exist _ None _ => (Ok None, s)
  | exist _ (Some r) Hr
      with inspect (next_frame xyzLut colorize_key rv
                      (set_max_distance (serial_max_distance s) r)) := {
      | exist _ (Ok None, r') _ => serial_next_frame rv (_next_reader (store_reader r' s))
      | exist _ (res, r') _ => (res, store_reader r' s) } }.
Proof.
  apply lookup_lt_Some in Hr. simpl. rewrite length_insert. lia.
Qed.

(** What one call does, whatever the state it starts from. *)
Definition serial_post (rv : bool) (s : SerialPcapReader)
           (out : result (option PointCloud) * SerialPcapReader) : Prop :=
  let s' := snd out in
  (current_reader_index s <= current_reader_index s')%nat
  /\ length (readers s') = length (readers s)
  /\ (forall i r, (current_reader_index s <= i < current_reader_index s')%nat ->
        readers s !! i = Some r -> reader_exhausted r)
  /\ (forall i r, (current_reader_index s <= i < current_reader_index s')%nat ->
        readers s' !! i = Some r -> reader_exhausted r)
  /\ (forall i, (i < current_reader_index s)%nat -> readers s' !! i = readers s !! i)
  /\ match fst out with
     | Ok None => (length (readers s) <= current_reader_index s')%nat
     | res =>
         exists r r', readers s !! current_reader_index s' = Some r
           /\ ~ reader_exhausted r
           /\ next_frame xyzLut colorize_key rv
                        (set_max_distance (serial_max_distance s) r) = (res, r')
           /\ readers s' !! current_reader_index s' = Some r'
     end.

End SerialPcapReader.

(** ** Rigid transforms and the Open3D geometry calls the navigators use *)

Record vec4 : Type := V4 { hx : R; hy : R; hz : R; hw : R }.

(** A 4x4 matrix, by rows. *)
Record mat4 : Type := M4 { row0 : vec4; row1 : vec4; row2 : vec4; row3 : vec4 }.

Definition dot4 (a b : vec4) : R :=
  (hx a * hx b + hy a * hy b + hz a * hz b + hw a * hw b)%R.

Definition mat_vec (T : mat4) (v : vec4) : vec4 :=
  V4 (dot4 (row0 T) v) (dot4 (row1 T) v) (dot4 (row2 T) v) (dot4 (row3 T) v).

Definition identity4 : mat4 :=
  M4 (V4 1 0 0 0) (V4 0 1 0 0) (V4 0 0 1 0) (V4 0 0 0 1).

(** Column [j] of the upper-left 3x3 block. *)
Definition column (sel : vec4 -> R) (T : mat4) : vec3 :=
  V3 (sel (row0 T)) (sel (row1 T)) (sel (row2 T)).

(** RigidTransform: last row [0 0 0 1], and the upper-left 3x3 block is
    orthonormal (its columns have length 1 and are orthogonal to each other). *)
Definition is_rigid (T : mat4) : Prop :=
  row3 T = V4 0 0 0 1
  /\ vdot (column hx T) (column hx T) = 1%R
  /\ vdot (column hy T) (column hy T) = 1%R
  /\ vdot (column hz T) (column hz T) = 1%R
  /\ vdot (column hx T) (column hy T) = 0%R
  /\ vdot (column hx T) (column hz T) = 0%R
  /\ vdot (column hy T) (column hz T) = 0%R.

(** [T[:3,3]] *)
Definition translation_column (T : mat4) : vec3 :=
  V3 (hw (row0 T)) (hw (row1 T)) (hw (row2 T)).

(** Open3D [TransformPoints]: [T * (x, y, z, 1)], divided by its last entry. *)
Definition transform_point (T : mat4) (p : vec3) : vec3 :=
  let q := mat_vec T (V4 (vx p) (vy p) (vz p) 1) in
  V3 (hx q / hw q) (hy q / hw q) (hz q / hw q).

(** Open3D [TransformNormals]: [T * (x, y, z, 0)], first three entries. *)
Definition transform_normal (T : mat4) (n : vec3) : vec3 :=
  let q := mat_vec T (V4 (vx n) (vy n) (vz n) 0) in
  V3 (hx q) (hy q) (hz q).

(** [PointCloud.transform] *)
Definition transform_cloud (T : mat4) (c : PointCloud) : PointCloud :=
  mkCloud (map (transform_point T) (points c)) (colors c)
          (map (transform_normal T) (normals c)).

(** [get_center]: the mean of the points, the zero vector for no points. *)
Definition get_center (pts : list vec3) : vec3 :=
  match pts with
  | [] => vzero
  | _ =>
      let s := fold_left vadd pts vzero in
      let n := INR (length pts) in
      V3 (vx s / n) (vy s / n) (vz s / n)
  end.

(** Open3D's [has_normals] / [has_colors] test on an attribute array. *)
Definition has_attr (c : PointCloud) (attr : list vec3) : bool :=
  negb (Nat.eqb (length (points c)) 0) && Nat.eqb (length attr) (length (points c)).

(** [a += b] on point clouds: the points are concatenated; an attribute
    survives only if both sides carry it (or [a] has no points yet). *)
Definition cloud_add (a b : PointCloud) : PointCloud :=
  match points b with
  | [] => a
  | _ =>
      let keep (attr : PointCloud -> list vec3) :=
        if (Nat.eqb (length (points a)) 0 || has_attr a (attr a)) && has_attr b (attr b)
        then (if has_attr a (attr a) then attr a else []) ++ attr b
        else [] in
      mkCloud (points a ++ points b) (keep colors) (keep normals)
  end.

(** [paint_uniform_color]: one colour per point. *)
Definition paint_uniform_color (col : vec3) (c : PointCloud) : PointCloud :=
  mkCloud (points c) (map (fun _ => col) (points c)) (normals c).

(** [o3d.geometry.LineSet] *)
Record LineSet : Type := mkLineSet {
  ls_points : list vec3;
  ls_lines : list (Z * Z)
}.

Definition empty_lineset : LineSet := mkLineSet [] [].

Definition transform_lineset (T : mat4) (l : LineSet) : LineSet :=
  mkLineSet (map (transform_point T) (ls_points l)) (ls_lines l).

(** The result object of a matcher. *)
Record RegistrationResult : Type := mkReg {
  transformation : mat4;
  fitness : R;
  inlier_rmse : R
}.

(** The four metric series of [Plotter]. *)
Record Plotter : Type := mkPlot {
  timeUsages : list R;
  rmses : list R;
  fitnesses : list R;
  distances : list R
}.

Definition empty_plot : Plotter := mkPlot [] [] [] [].

(** The movement as [alignFrame] computes it: the point [0,0,0], transformed,
    and the centre of that one-point cloud. *)
Definition origin_movement (T : mat4) : vec3 :=
  get_center (points (transform_cloud T (mkCloud [V3 0 0 0] [] []))).

(** ** navigator.py (relative mode) *)

Section LidarNavigator.

(** The reader as navigator.py uses it: [readFrame(num, removeVehicle)],
    [nextFrame(removeVehicle)] and the list [preparedClouds]. *)
Variable reader_state : Type.
Variable readFrame : Z -> bool -> reader_state -> PointCloud * reader_state.
Variable nextFrame : bool -> reader_state -> option PointCloud * reader_state.
Variable preparedClouds_len : reader_state -> Z.

(** Open3D: the normals [estimate_normals] computes, and [voxel_down_sample]. *)
Variable estimate_normals : PointCloud -> list vec3.
Variable voxel_down_sample : R -> PointCloud -> PointCloud.
(** [NicpMatcher.match(source, target)] *)
Variable matcher_match : PointCloud -> PointCloud -> RegistrationResult.
(** [time.perf_counter()], by the number of earlier readings. *)
Variable perf_counter : nat -> R.

Record LidarNavigator : Type := mkNav {
  reader : reader_state;
  voxel_size : R;
  frame_limit : Z;
  preview : bool;
  movements : list vec3;
  movementPath : LineSet;
  mergedFrame : PointCloud;
  previousFrame : PointCloud;
  clock : nat
}.

Definition with_normals (c : PointCloud) : PointCloud :=
  mkCloud (points c) (colors c) (estimate_normals c).

(** [alignFrame(source, target)]: returns the transformation, the movement
    and the registration result; [target] now carries normals. *)
Definition alignFrame (source target : PointCloud)
  : mat4 * vec3 * RegistrationResult * PointCloud :=
  let target := with_normals target in
  let reg := matcher_match source target in
  let movement := origin_movement (transformation reg) in
  (transformation reg, movement, reg, target).

(** [mergeNextFrame(plot)] *)
Definition mergeNextFrame (nav : LidarNavigator) (plot : Plotter)
  : bool * LidarNavigator * Plotter :=
  let '(o, rd) := nextFrame true (reader nav) in
  match o with
  | None =>
      (false,
       mkNav rd (voxel_size nav) (frame_limit nav) (preview nav) (movements nav)
             (movementPath nav) (mergedFrame nav) (previousFrame nav) (clock nav),
       plot)
  | Some frame =>
      let startTime := perf_counter (clock nav) in
      let '(transformation, movement, reg, frame) := alignFrame (previousFrame nav) frame in
      let plot :=
        mkPlot (timeUsages plot ++ [(perf_counter (S (clock nav)) - startTime)%R])
               (rmses plot ++ [inlier_rmse reg])
               (fitnesses plot ++ [fitness reg])
               (distances plot ++ [sqrt (vdot movement movement)]) in
      (* earlier movements follow the model; the newest one is appended *)
      let movements := map (fun m => vadd m movement) (movements nav) ++ [movement] in
      let path :=
        transform_lineset transformation
          (mkLineSet (ls_points (movementPath nav) ++ [V3 0 0 0])
                     (ls_lines (movementPath nav))) in
      let path :=
        if (2 <=? Z.of_nat (length movements))%Z
        then mkLineSet (ls_points path)
               (ls_lines path ++ [(Z.of_nat (length movements) - 2,
                                   Z.of_nat (length movements) - 1)%Z])
        else path in
      let merged := cloud_add (transform_cloud transformation (mergedFrame nav)) frame in
      (true,
       mkNav rd (voxel_size nav) (frame_limit nav) (preview nav) movements path
             (voxel_down_sample (voxel_size nav) merged) frame (4 + clock nav),
       plot)
  end.

(** The [while self.mergeNextFrame(plot)] loop of [navigateThroughFile];
    [fuel] bounds the number of iterations. *)
Fixpoint navigate_loop (fuel : nat) (nav : LidarNavigator) (plot : Plotter)
  : option (LidarNavigator * Plotter) :=
  match fuel with
  | O => None
  | S fuel' =>
      let '(continue, nav, plot) := mergeNextFrame nav plot in
      if continue then
        if ((1 <? frame_limit nav) && (frame_limit nav <=? preparedClouds_len (reader nav)))%Z
        then Some (nav, plot)
        else navigate_loop fuel' nav plot
      else Some (nav, plot)
  end.

(** [navigateThroughFile], up to the end of the loop: what is then handed
    to the summary, the plot and the writers. The two [readFrame(0, True)]
    calls may hand out one and the same cloud object; only the trajectory
    and the metrics are followed below, and they do not depend on it. *)
Definition navigateThroughFile (fuel : nat) (nav : LidarNavigator)
  : option (LidarNavigator * Plotter) :=
  let '(merged, rd) := readFrame 0 true (reader nav) in
  let '(previous, rd) := readFrame 0 true rd in
  let nav :=
    mkNav rd (voxel_size nav) (frame_limit nav) (preview nav) [] empty_lineset
          merged (with_normals previous) (clock nav) in
  navigate_loop fuel nav empty_plot.

(** Positions and segments of the trajectory. *)
Definition positions (nav : LidarNavigator) : nat :=
  length (ls_points (movementPath nav)).
Definition segments (nav : LidarNavigator) : nat :=
  length (ls_lines (movementPath nav)).

(** The bookkeeping invariant of the path: as many path points as
    movements, and one segment less (none while the path is empty). *)
Definition path_ok (nav : LidarNavigator) : Prop :=
  positions nav = length (movements nav)
  /\ segments nav = (positions nav - 1)%nat.

(** The source yields exactly [n] frames and then signals end-of-stream. *)
Fixpoint yields (n : nat) (rd : reader_state) : Prop :=
  match n with
  | O => fst (nextFrame true rd) = None
  | S n' => (exists frame, fst (nextFrame true rd) = Some frame)
            /\ yields n' (snd (nextFrame true rd))
  end.

End LidarNavigator.

(** ** The frame source of navigator.py *)

(** Modelled from the spec: the reader behind [self.reader] in navigator.py,
    with [readFrame], [nextFrame] and [preparedClouds]; the PcapReader of
    src/pcapReader.py is a later one and has none of the three. The spec has
    the Frame Source produce the frames of the stream one after the other,
    [next_frame() -> Frame | end-of-stream], and the Engine seed the
    reference with the first Frame itself before continuing. So [nextFrame]
    hands out the next frame of the stream and keeps it in [preparedClouds]
    (the list whose length line 78 compares with the frame limit), and
    [readFrame(num)] hands out frame number [num], reading on until that
    frame has been prepared. *)
Record FrameSource : Type := mkSource {
  pending : list PointCloud;  (* the frames still in the stream *)
  preparedClouds : list PointCloud  (* the frames handed out so far *)
}.

Definition source_nextFrame (_ : bool) (rd : FrameSource)
  : option PointCloud * FrameSource :=
  match pending rd with
  | [] => (None, rd)
  | frame :: rest => (Some frame, mkSource rest (preparedClouds rd ++ [frame]))
  end.

(** [while len(self.preparedClouds) <= num: self.nextFrame(...)] *)
Fixpoint source_prepare (num : nat) (pend prepared : list PointCloud) : FrameSource :=
  match pend with
  | [] => mkSource [] prepared
  | frame :: rest =>
      if (length prepared <=? num)%nat
      then source_prepare num rest (prepared ++ [frame])
      else mkSource pend prepared
  end.

(** [readFrame(num, removeVehicle)]. A stream that ends before frame [num]
    has no frame to hand out; [navigateThroughFile] asks for frame 0 only,
    and the statements about it take a stream of at least one frame. The
    empty cloud stands for the missing frame. *)
Definition source_readFrame (num : Z) (_ : bool) (rd : FrameSource)
  : PointCloud * FrameSource :=
  let rd' := source_prepare (Z.to_nat num) (pending rd) (preparedClouds rd) in
  (default empty_cloud (preparedClouds rd' !! Z.to_nat num), rd').

(** [len(self.reader.preparedClouds)] *)
Definition source_prepared_len (rd : FrameSource) : Z :=
  Z.of_nat (length (preparedClouds rd)).

(** ** sbetParser.py *)

Record SbetRow : Type := mkRow {
  sow : R;
  lat : R;
  lon : R;
  alt : R;
  age : R;
  index : Z;
  row_x : R;      (* self.x *)
  row_y : R;      (* self.y *)
  heading : R
}.

(** [SbetRow.translate(t)] *)
Definition translate (t : vec3) (r : SbetRow) : SbetRow :=
  mkRow (sow r) (lat r) (lon r) (alt r - vz t) (age r) (index r)
        (row_x r - vx t) (row_y r - vy t) (heading r).

(** [SbetRow.np()] and the triple [[p.x, p.y, p.alt]]. *)
Definition row_np (r : SbetRow) : vec3 := V3 (row_x r) (row_y r) (alt r).

(** ** absoluteNavigator.py: the reference cloud *)

(** What [json.load] gives for the values of a sidecar. *)
Inductive json : Type :=
| JFloats (l : list R)
| JString (s : string).

Inductive file : Type :=
| PcdFile (c : PointCloud)
| JsonFile (data : gmap string json).

(** [o3d.io.read_point_cloud]: an empty cloud when there is nothing to read. *)
Definition read_point_cloud (path : string) (fs : gmap string file) : PointCloud :=
  match fs !! path with
  | Some (PcdFile c) => c
  | _ => empty_cloud
  end.

Definition write_point_cloud (path : string) (c : PointCloud) (fs : gmap string file)
  : gmap string file :=
  <[path := PcdFile c]> fs.

(** [with open(path, "r") as f: json.load(f)] *)
Definition json_load (path : string) (fs : gmap string file) : result (gmap string json) :=
  match fs !! path with
  | Some (JsonFile data) => Ok data
  | Some (PcdFile _) => Raise JSONDecodeError
  | None => Raise FileNotFoundError
  end.

(** [data[key]] *)
Definition json_get (key : string) (data : gmap string json) : result json :=
  match data !! key with
  | Some v => Ok v
  | None => Raise KeyError
  end.

(** [path.endswith(suffix)] *)
Definition endswith (path suffix : string) : bool :=
  (String.length suffix <=? String.length path)%nat
  && String.eqb (String.substring (String.length path - String.length suffix)
                           (String.length suffix) path) suffix.

(** [np.amin(points, axis=0)] and [np.amax(points, axis=0)]; numpy raises
    ValueError on an array without rows. *)
Definition vmin (a b : vec3) : vec3 :=
  V3 (Rmin (vx a) (vx b)) (Rmin (vy a) (vy b)) (Rmin (vz a) (vz b)).
Definition vmax (a b : vec3) : vec3 :=
  V3 (Rmax (vx a) (vx b)) (Rmax (vy a) (vy b)) (Rmax (vz a) (vz b)).

Definition amin (pts : list vec3) : result vec3 :=
  match pts with
  | [] => Raise ValueError
  | p :: pts' => Ok (fold_left vmin pts' p)
  end.
Definition amax (pts : list vec3) : result vec3 :=
  match pts with
  | [] => Raise ValueError
  | p :: pts' => Ok (fold_left vmax pts' p)
  end.

Definition pcd_path : string :=
  "G:\2021-10-21 - Kartverket, LIDAR\validation\Lillehammer\Punktsky_211021\assembled-moved-with-normals.pcd".
Definition cloud_path : string :=
  "G:\2021-10-21 - Kartverket, LIDAR\validation\Lillehammer\Punktsky_211021\assembled-moved-with-normals.cloud".

(** [self.full_cloud] and [self.full_point_cloud_offset]. *)
Record Reference : Type := mkRef {
  full_cloud : PointCloud;
  full_point_cloud_offset : vec3
}.

Section LoadPointCloud.

(** Open3D: the normals that [estimate_normals] computes for a cloud. *)
Variable estimate_normals : PointCloud -> list vec3.

(** The [.cloud] branch of [load_point_cloud]. Lines 26-27 store what the
    two entries hold without looking at it. An offset that is not a list of
    three numbers, or a cloud entry that is not a string, has no place in
    [Reference]: ValueError stands for it here, where the source goes on
    and fails later or not at all. The statements about this branch are
    about sidecars with three numbers and a string, or without an entry. *)
Definition load_sidecar (path : string) (fs : gmap string file) : result Reference :=
  data ← json_load path fs;
  offset ← json_get "offset" data;
  cloud ← json_get "cloud" data;
  match offset, cloud with
  | JFloats [ox; oy; oz], JString cloud =>
      Ok (mkRef (read_point_cloud cloud fs) (V3 ox oy oz))
  | _, _ => Raise ValueError
  end.

(** The other branch: centre the cloud on the middle of its bounding box,
    estimate normals, and save the result with its sidecar. *)
Definition load_raw (path : string) (fs : gmap string file)
  : result Reference * gmap string file :=
  let pts := points (read_point_cloud path fs) in
  match amin pts, amax pts with
  | Ok lo, Ok hi =>
      let offset :=
        V3 (vx lo + (vx hi - vx lo) / 2) (vy lo + (vy hi - vy lo) / 2)
           (vz lo + (vz hi - vz lo) / 2) in
      let pts := map (fun p => vsub p offset) pts in
      let cloud := mkCloud pts [] [] in
      let cloud := mkCloud pts [] (estimate_normals cloud) in
      let fs := write_point_cloud pcd_path cloud fs in
      let fs :=
        <[cloud_path :=
            JsonFile (<["offset" := JFloats [vx offset; vy offset; vz offset]]>
                        (<["cloud" := JString pcd_path]> ∅))]> fs in
      (Ok (mkRef cloud offset), fs)
  | Raise e, _ => (Raise e, fs)
  | _, Raise e => (Raise e, fs)
  end.

(** [load_point_cloud(path)] *)
Definition load_point_cloud (path : string) (fs : gmap string file)
  : result Reference * gmap string file :=
  let '(r, fs) :=
    if endswith path ".cloud" then (load_sidecar path fs, fs) else load_raw path fs in
  (ref ← r;
   Ok (mkRef (paint_uniform_color (V3 0.3 0.6 1.0) (full_cloud ref))
             (full_point_cloud_offset ref)),
   fs).

End LoadPointCloud.

(** ** absoluteNavigator.py: the run *)

Section AbsoluteLidarNavigator.

(** The frame source behind [self.reader]. *)
Variable rstate : Type.
Variable reader_next_frame : bool -> rstate -> result (option PointCloud) * rstate.
(** [self.reader.get_coordinates(False)]: the SbetRow objects of all frames,
    by their addresses, and the heap they live in. *)
Variable get_coordinates : bool -> rstate -> list SbetRow -> list nat * list SbetRow.
(** [self.skip_initial_frames()] of NavigatorBase. *)
Variable skip_initial_frames : rstate -> rstate.
(** Open3D and the matcher. *)
Variable estimate_normals : PointCloud -> list vec3.
Variable voxel_down_sample : R -> PointCloud -> PointCloud.
Variable matcher_match : PointCloud -> PointCloud -> Z -> option mat4 -> RegistrationResult.
(** [self.time(...)], by the number of earlier readings. *)
Variable timer_time : nat -> R.

Record AbsoluteLidarNavigator : Type := mkAbs {
  abs_reader : rstate;  (* the frame source *)
  reference : Reference;  (* full_cloud and full_point_cloud_offset *)
  abs_frame_limit : Z;  (* self.frame_limit *)
  abs_voxel_size : R;  (* self.voxel_size *)
  remove_vehicle_arg : bool;  (* self.remove_vehicle *)
  preview_always : bool;  (* self.preview_always *)
  sbet : bool;  (* args.sbet is not None *)
  downsample_timer : Z;  (* self.downsample_timer *)
  downsample_cloud_after_frames : Z;  (* self.downsample_cloud_after_frames *)
  merged_frame_is_dirty : bool;  (* self.merged_frame_is_dirty *)
  abs_movements : list vec3;  (* self.movements *)
  movement_path : LineSet;  (* self.movement_path *)
  heap : list SbetRow;  (* the SbetRow objects, by address *)
  actual_coordinates : option (list nat);  (* self.actual_coordinates, once assigned *)
  current_coordinate : option nat;  (* self.current_coordinate *)
  initial_coordinate : option nat;  (* self.initial_coordinate *)
  actual_movement_path : option LineSet;  (* self.actual_movement_path, once assigned *)
  vis : bool;  (* self.vis is not None *)
  merged_frame : PointCloud;  (* self.merged_frame *)
  previous_transformation : option mat4;  (* self.previous_transformation *)
  plot : Plotter;  (* the Plotter of the run *)
  timer_reads : nat  (* readings taken from self.timer *)
}.

(** Assignments to the attributes that the run changes. *)
Definition set_abs_reader (v : rstate) (st : AbsoluteLidarNavigator)
  : AbsoluteLidarNavigator :=
  mkAbs v (reference st) (abs_frame_limit st) (abs_voxel_size st)
    (remove_vehicle_arg st) (preview_always st) (sbet st) (downsample_timer st)
    (downsample_cloud_after_frames st) (merged_frame_is_dirty st) (abs_movements st)
    (movement_path st) (heap st) (actual_coordinates st) (current_coordinate st)
    (initial_coordinate st) (actual_movement_path st) (vis st) (merged_frame st)
    (previous_transformation st) (plot st) (timer_reads st).
Definition set_downsample_timer (v : Z) (st : AbsoluteLidarNavigator)
  : AbsoluteLidarNavigator :=
  mkAbs (abs_reader st) (reference st) (abs_frame_limit st) (abs_voxel_size st)
    (remove_vehicle_arg st) (preview_always st) (sbet st) v
    (downsample_cloud_after_frames st) (merged_frame_is_dirty st) (abs_movements st)
    (movement_path st) (heap st) (actual_coordinates st) (current_coordinate st)
    (initial_coordinate st) (actual_movement_path st) (vis st) (merged_frame st)
    (previous_transformation st) (plot st) (timer_reads st).
Definition set_merged_frame_is_dirty (v : bool) (st : AbsoluteLidarNavigator)
  : AbsoluteLidarNavigator :=
  mkAbs (abs_reader st) (reference st) (abs_frame_limit st) (abs_voxel_size st)
    (remove_vehicle_arg st) (preview_always st) (sbet st) (downsample_timer st)
    (downsample_cloud_after_frames st) v (abs_movements st) (movement_path st)
    (heap st) (actual_coordinates st) (current_coordinate st) (initial_coordinate st)
    (actual_movement_path st) (vis st) (merged_frame st) (previous_transformation st)
    (plot st) (timer_reads st).
Definition set_abs_movements (v : list vec3) (st : AbsoluteLidarNavigator)
  : AbsoluteLidarNavigator :=
  mkAbs (abs_reader st) (reference st) (abs_frame_limit st) (abs_voxel_size st)
    (remove_vehicle_arg st) (preview_always st) (sbet st) (downsample_timer st)
    (downsample_cloud_after_frames st) (merged_frame_is_dirty st) v (movement_path st)
    (heap st) (actual_coordinates st) (current_coordinate st) (initial_coordinate st)
    (actual_movement_path st) (vis st) (merged_frame st) (previous_transformation st)
    (plot st) (timer_reads st).
Definition set_movement_path (v : LineSet) (st : AbsoluteLidarNavigator)
  : AbsoluteLidarNavigator :=
  mkAbs (abs_reader st) (reference st) (abs_frame_limit st) (abs_voxel_size st)
    (remove_vehicle_arg st) (preview_always st) (sbet st) (downsample_timer st)
    (downsample_cloud_after_frames st) (merged_frame_is_dirty st) (abs_movements st) v
    (heap st) (actual_coordinates st) (current_coordinate st) (initial_coordinate st)
    (actual_movement_path st) (vis st) (merged_frame st) (previous_transformation st)
    (plot st) (timer_reads st).
Definition set_heap (v : list SbetRow) (st : AbsoluteLidarNavigator)
  : AbsoluteLidarNavigator :=
  mkAbs (abs_reader st) (reference st) (abs_frame_limit st) (abs_voxel_size st)
    (remove_vehicle_arg st) (preview_always st) (sbet st) (downsample_timer st)
    (downsample_cloud_after_frames st) (merged_frame_is_dirty st) (abs_movements st)
    (movement_path st) v (actual_coordinates st) (current_coordinate st)
    (initial_coordinate st) (actual_movement_path st) (vis st) (merged_frame st)
    (previous_transformation st) (plot st) (timer_reads st).
Definition set_actual_coordinates (v : option (list nat)) (st : AbsoluteLidarNavigator)
  : AbsoluteLidarNavigator :=
  mkAbs (abs_reader st) (reference st) (abs_frame_limit st) (abs_voxel_size st)
    (remove_vehicle_arg st) (preview_always st) (sbet st) (downsample_timer st)
    (downsample_cloud_after_frames st) (merged_frame_is_dirty st) (abs_movements st)
    (movement_path st) (heap st) v (current_coordinate st) (initial_coordinate st)
    (actual_movement_path st) (vis st) (merged_frame st) (previous_transformation st)
    (plot st) (timer_reads st).
Definition set_current_coordinate (v : option nat) (st : AbsoluteLidarNavigator)
  : AbsoluteLidarNavigator :=
  mkAbs (abs_reader st) (reference st) (abs_frame_limit st) (abs_voxel_size st)
    (remove_vehicle_arg st) (preview_always st) (sbet st) (downsample_timer st)
    (downsample_cloud_after_frames st) (merged_frame_is_dirty st) (abs_movements st)
    (movement_path st) (heap st) (actual_coordinates st) v (initial_coordinate st)
    (actual_movement_path st) (vis st) (merged_frame st) (previous_transformation st)
    (plot st) (timer_reads st).
Definition set_initial_coordinate (v : option nat) (st : AbsoluteLidarNavigator)
  : AbsoluteLidarNavigator :=
  mkAbs (abs_reader st) (reference st) (abs_frame_limit st) (abs_voxel_size st)
    (remove_vehicle_arg st) (preview_always st) (sbet st) (downsample_timer st)
    (downsample_cloud_after_frames st) (merged_frame_is_dirty st) (abs_movements st)
    (movement_path st) (heap st) (actual_coordinates st) (current_coordinate st) v
    (actual_movement_path st) (vis st) (merged_frame st) (previous_transformation st)
    (plot st) (timer_reads st).
Definition set_actual_movement_path (v : option LineSet) (st : AbsoluteLidarNavigator)
  : AbsoluteLidarNavigator :=
  mkAbs (abs_reader st) (reference st) (abs_frame_limit st) (abs_voxel_size st)
    (remove_vehicle_arg st) (preview_always st) (sbet st) (downsample_timer st)
    (downsample_cloud_after_frames st) (merged_frame_is_dirty st) (abs_movements st)
    (movement_path st) (heap st) (actual_coordinates st) (current_coordinate st)
    (initial_coordinate st) v (vis st) (merged_frame st) (previous_transformation st)
    (plot st) (timer_reads st).
Definition set_vis (v : bool) (st : AbsoluteLidarNavigator)
  : AbsoluteLidarNavigator :=
  mkAbs (abs_reader st) (reference st) (abs_frame_limit st) (abs_voxel_size st)
    (remove_vehicle_arg st) (preview_always st) (sbet st) (downsample_timer st)
    (downsample_cloud_after_frames st) (merged_frame_is_dirty st) (abs_movements st)
    (movement_path st) (heap st) (actual_coordinates st) (current_coordinate st)
    (initial_coordinate st) (actual_movement_path st) v (merged_frame st)
    (previous_transformation st) (plot st) (timer_reads st).
Definition set_merged_frame (v : PointCloud) (st : AbsoluteLidarNavigator)
  : AbsoluteLidarNavigator :=
  mkAbs (abs_reader st) (reference st) (abs_frame_limit st) (abs_voxel_size st)
    (remove_vehicle_arg st) (preview_always st) (sbet st) (downsample_timer st)
    (downsample_cloud_after_frames st) (merged_frame_is_dirty st) (abs_movements st)
    (movement_path st) (heap st) (actual_coordinates st) (current_coordinate st)
    (initial_coordinate st) (actual_movement_path st) (vis st) v
    (previous_transformation st) (plot st) (timer_reads st).
Definition set_previous_transformation (v : option mat4) (st : AbsoluteLidarNavigator)
  : AbsoluteLidarNavigator :=
  mkAbs (abs_reader st) (reference st) (abs_frame_limit st) (abs_voxel_size st)
    (remove_vehicle_arg st) (preview_always st) (sbet st) (downsample_timer st)
    (downsample_cloud_after_frames st) (merged_frame_is_dirty st) (abs_movements st)
    (movement_path st) (heap st) (actual_coordinates st) (current_coordinate st)
    (initial_coordinate st) (actual_movement_path st) (vis st) (merged_frame st) v
    (plot st) (timer_reads st).
Definition set_plot (v : Plotter) (st : AbsoluteLidarNavigator)
  : AbsoluteLidarNavigator :=
  mkAbs (abs_reader st) (reference st) (abs_frame_limit st) (abs_voxel_size st)
    (remove_vehicle_arg st) (preview_always st) (sbet st) (downsample_timer st)
    (downsample_cloud_after_frames st) (merged_frame_is_dirty st) (abs_movements st)
    (movement_path st) (heap st) (actual_coordinates st) (current_coordinate st)
    (initial_coordinate st) (actual_movement_path st) (vis st) (merged_frame st)
    (previous_transformation st) v (timer_reads st).
Definition set_timer_reads (v : nat) (st : AbsoluteLidarNavigator)
  : AbsoluteLidarNavigator :=
  mkAbs (abs_reader st) (reference st) (abs_frame_limit st) (abs_voxel_size st)
    (remove_vehicle_arg st) (preview_always st) (sbet st) (downsample_timer st)
    (downsample_cloud_after_frames st) (merged_frame_is_dirty st) (abs_movements st)
    (movement_path st) (heap st) (actual_coordinates st) (current_coordinate st)
    (initial_coordinate st) (actual_movement_path st) (vis st) (merged_frame st)
    (previous_transformation st) (plot st) v.

(** Statements of the navigator: they change the state and may raise. *)
Definition M (A : Type) : Type := AbsoluteLidarNavigator -> result A * AbsoluteLidarNavigator.

#[global] Instance M_ret : MRet M := fun A a st => (Ok a, st).
#[global] Instance M_bind : MBind M := fun A B k m st =>
  match m st with
  | (Ok a, st') => k a st'
  | (Raise e, st') => (Raise e, st')
  end.

Definition raise {A} (e : exn) : M A := fun st => (Raise e, st).
Definition get : M AbsoluteLidarNavigator := fun st => (Ok st, st).
Definition modify (f : AbsoluteLidarNavigator -> AbsoluteLidarNavigator) : M unit :=
  fun st => (Ok tt, f st).

(** [for c in coords: c.translate(t)] and the like: one object after the
    other, each through its address. *)
Definition translate_at (t : vec3) (c : nat) (h : list SbetRow) : list SbetRow :=
  alter (translate t) c h.

(** Lines 90-92. *)
Definition translate_actual_coordinates (offset : vec3) (coords : list nat)
           (h : list SbetRow) : list SbetRow :=
  fold_left (fun h c => translate_at (V3 0 0 40) c (translate_at offset c h)) coords h.

(** [[[i, i+1] for i in range(n - 1)]] *)
Definition consecutive_lines (n : nat) : list (Z * Z) :=
  map (fun i => (Z.of_nat i, Z.of_nat i + 1)%Z) (seq 0 (n - 1)).

(** Lines 78-101: the coordinates of the independent positioning source. *)
Definition setup_actual_coordinates : M unit :=
  st ← get;
  if sbet st then
    let '(coords, h) := get_coordinates false (abs_reader st) (heap st) in
    _ ← modify (set_actual_coordinates (Some coords));
    let h := translate_actual_coordinates (full_point_cloud_offset (reference st)) coords h in
    _ ← modify (set_heap h);
    match coords with
    | [] => raise IndexError
    | c0 :: _ =>
        match h !! c0 with
        | None => raise IndexError
        | Some r0 =>
            (* two clones of the first row, as new objects *)
            _ ← modify (set_heap (h ++ [r0; r0]));
            _ ← modify (set_current_coordinate (Some (length h)));
            _ ← modify (set_initial_coordinate (Some (S (length h))));
            modify (set_actual_movement_path
                      (Some (mkLineSet (omap (fun c => row_np <$> h !! c) coords)
                                       (consecutive_lines (length coords)))))
        end
    end
  else mret tt.

(** Lines 67-105. *)
Definition navigate_setup : M unit :=
  _ ← modify (fun st => set_abs_reader (skip_initial_frames (abs_reader st)) st);
  _ ← modify (set_abs_movements []);
  _ ← modify (set_movement_path empty_lineset);
  _ ← setup_actual_coordinates;
  _ ← modify (set_vis false);
  _ ← modify (set_merged_frame empty_cloud);
  modify (set_plot empty_plot).

(** Modelled from the spec: [ensure_merged_frame_is_downsampled] of
    NavigatorBase, which is not among the sources. The spec has the Engine
    call [compact(points, resolution)] so that the Model is compacted before
    it is handed to the Observers even if the periodic trigger has not
    fired: when points were fused since the last compaction
    ([merged_frame_is_dirty]), the model is replaced by its voxel
    down-sampling at the configured resolution and the flag is cleared. *)
Definition ensure_merged_frame_is_downsampled : M unit :=
  st ← get;
  if merged_frame_is_dirty st then
    _ ← modify (set_merged_frame (voxel_down_sample (abs_voxel_size st) (merged_frame st)));
    modify (set_merged_frame_is_dirty false)
  else mret tt.

(** [self.time(...)] *)
Definition time : M R :=
  st ← get;
  _ ← modify (set_timer_reads (S (timer_reads st)));
  mret (timer_time (timer_reads st)).

(** Lines 209-215 of [merge_next_frame]: the debugging visualisation. The
    window is opened, shown until it is closed, and then the undefined name
    [afdsajhuiCRASH] is evaluated. *)
Definition debugging_visualization : M unit :=
  _ ← modify (set_vis true);
  st ← get;
  match actual_movement_path st with
  | None => raise AttributeError
  | Some _ => raise NameError
  end.

(** Lines 217-297 of [merge_next_frame]. *)
Definition merge_frame (frame : option PointCloud) : M bool :=
  match frame with
  | None => mret false
  | Some frame =>
      let frame := mkCloud (points frame) (colors frame) (estimate_normals frame) in
      _ ← time;
      st ← get;
      let reg := matcher_match frame (full_cloud (reference st)) 10 None in
      registration_time ← time;
      let movement := translation_column (transformation reg) in
      _ ← modify (fun st =>
             set_plot (mkPlot (timeUsages (plot st) ++ [registration_time])
                              (rmses (plot st) ++ [inlier_rmse reg])
                              (fitnesses (plot st) ++ [fitness reg])
                              (distances (plot st) ++ [sqrt (vdot movement movement)])) st);
      _ ← modify (fun st => set_abs_movements (abs_movements st ++ [movement]) st);
      _ ← modify (fun st =>
             set_movement_path
               (mkLineSet (ls_points (movement_path st)
                           ++ [translation_column (transformation reg)])
                          (ls_lines (movement_path st))) st);
      st ← get;
      _ ← (if (2 <=? Z.of_nat (length (abs_movements st)))%Z then
             if vis st then
               modify (set_movement_path
                         (mkLineSet (ls_points (movement_path st))
                            (ls_lines (movement_path st)
                             ++ [(Z.of_nat (length (abs_movements st)) - 2,
                                  Z.of_nat (length (abs_movements st)) - 1)%Z])))
             else raise AttributeError
           else mret tt);
      _ ← time;
      _ ← time;
      _ ← modify (set_previous_transformation (Some (transformation reg)));
      let transformed_frame := transform_cloud (transformation reg) frame in
      _ ← modify (fun st => set_merged_frame (cloud_add (merged_frame st) transformed_frame) st);
      _ ← modify (set_merged_frame_is_dirty true);
      _ ← time;
      _ ← modify (fun st => set_downsample_timer (downsample_timer st - 1)%Z st);
      st ← get;
      _ ← (if (downsample_timer st <=? 0)%Z then
             _ ← ensure_merged_frame_is_downsampled;
             modify (set_downsample_timer (downsample_cloud_after_frames st))
           else mret tt);
      st ← get;
      _ ← (if preview_always st && vis st then _ ← time; mret tt else mret tt);
      mret true
  end.

(** Line 207: [self.reader.next_frame(self.remove_vehicle, self.timer)]. *)
Definition fetch_frame : M (option PointCloud) :=
  fun st =>
    let '(r, rd) := reader_next_frame (remove_vehicle_arg st) (abs_reader st) in
    (r, set_abs_reader rd st).

(** [merge_next_frame(plot)] *)
Definition merge_next_frame : M bool :=
  frame ← fetch_frame;
  _ ← debugging_visualization;
  merge_frame frame.

(** The body of the [for] loop, lines 110-151. Only KeyboardInterrupt is
    caught there, and it is raised again; every other exception passes. *)
Definition loop_body (step : M bool) : M unit :=
  step ≫= fun merged : bool =>
  if merged then
    st ← get;
    _ ← (if vis st then (mret tt : M unit)
         else _ ← modify (set_vis true); _ ← time; mret tt);
    st ← get;
    _ ← (if preview_always st then _ ← time; mret tt else mret tt);
    _ ← time;
    mret tt
  else mret tt.

(** [for i in range(0, n)] *)
Fixpoint for_range (n : nat) (body : M unit) : M unit :=
  match n with
  | O => mret tt
  | S n' => _ ← body; for_range n' body
  end.

(** [navigate_through_file] for a given per-frame step, up to the point
    where the model goes to the summary, the writers and the final view. *)
Definition navigate_with (step : M bool) : M unit :=
  _ ← navigate_setup;
  st ← get;
  _ ← for_range (Z.to_nat (abs_frame_limit st)) (loop_body step);
  ensure_merged_frame_is_downsampled.

Definition navigate_through_file : M unit := navigate_with merge_next_frame.

End AbsoluteLidarNavigator.

(** ** Concrete instances, used to exercise the statements *)

(** A toy sensor: a scan is the list of its (point, colour) pixels. *)
Definition toy_scan : Type := list (vec3 * vec3).
Definition toy_xyzLut (sc : toy_scan) : list vec3 := map fst sc.
Definition toy_colorize (sc : toy_scan) : list vec3 := map snd sc.

Definition toy_reader : PcapReader toy_scan :=
  mkReader "a.pcap" [[(V3 1 1 1, V3 0 0 0); (V3 0 0 0, V3 1 1 1)]] 0 None.

Definition drained_reader : PcapReader toy_scan :=
  mkReader "b.pcap" [] 0 None.

Definition toy_serial : SerialPcapReader :=
  mkSerial [drained_reader; toy_reader] 0 None (Some "b.pcap").

(** A toy frame source for the relative navigator: the frames still to come. *)
Definition toy_nextFrame (_ : bool) (rd : list PointCloud)
  : option PointCloud * list PointCloud :=
  match rd with
  | [] => (None, [])
  | f :: rd' => (Some f, rd')
  end.
Definition toy_readFrame (_ : Z) (_ : bool) (rd : list PointCloud)
  : PointCloud * list PointCloud := (empty_cloud, rd).
Definition toy_prepared (rd : list PointCloud) : Z := 0.
Definition toy_normals (_ : PointCloud) : list vec3 := [].
(** One voxel that holds everything: the first point stands for all. *)
Definition toy_downsample (_ : R) (c : PointCloud) : PointCloud :=
  mkCloud (take 1 (points c)) [] [].
(** A matcher that finds no inliers at all. *)
Definition toy_match (_ _ : PointCloud) : RegistrationResult := mkReg identity4 0 0.

Definition toy_nav : LidarNavigator (list PointCloud) :=
  mkNav (list PointCloud) [empty_cloud; empty_cloud] 0.1 (-1) false [] empty_lineset
        empty_cloud empty_cloud 0.

(** A relative navigator at the start of a run over the stream [frames]. *)
Definition toy_source_nav (frames : list PointCloud) : LidarNavigator FrameSource :=
  mkNav FrameSource (mkSource frames []) 0.1 (-1) false [] empty_lineset
        empty_cloud empty_cloud 0.

(** Its run. *)
Abbreviation toy_source_run fuel frames :=
  (navigateThroughFile FrameSource source_readFrame source_nextFrame source_prepared_len
     toy_normals toy_downsample toy_match INR fuel (toy_source_nav frames)).

(** A frame source for the absolute navigator: the frames still to come. *)
Definition toy_reader_next_frame (_ : bool) (rd : list PointCloud)
  : result (option PointCloud) * list PointCloud :=
  match rd with
  | [] => (Ok None, [])
  | f :: rd' => (Ok (Some f), rd')
  end.
(** Every row of the heap is the position of one frame. *)
Definition toy_get_coordinates (_ : bool) (_ : list PointCloud) (h : list SbetRow)
  : list nat * list SbetRow := (seq 0 (length h), h).
Definition toy_skip (rd : list PointCloud) : list PointCloud := rd.
Definition toy_match4 (_ _ : PointCloud) (_ : Z) (_ : option mat4) : RegistrationResult :=
  mkReg identity4 0 0.

Definition toy_row : SbetRow := mkRow 0 0 0 100 0 0 10 20 0.

(** An absolute navigator with a positioning source, the frames [rd] still
    to come, a frame limit of [limit], and compaction every five frames. *)
Definition toy_abs (rd : list PointCloud) (limit : Z)
  : AbsoluteLidarNavigator (list PointCloud) :=
  mkAbs (list PointCloud) rd (mkRef empty_cloud (V3 1 2 3)) limit 0.1 false false true
        5 5 false [] empty_lineset [toy_row] None None None (Some empty_lineset) false
        empty_cloud None empty_plot 0.

Definition toy_frame : PointCloud := mkCloud [V3 1 0 0; V3 2 0 0] [] [].

(** A relative navigator with two recorded movements and one frame to come. *)
Definition toy_nav2 : LidarNavigator (list PointCloud) :=
  mkNav (list PointCloud) [empty_cloud] 0.1 (-1) false [V3 0 0 0; V3 1 0 0]
        (mkLineSet [V3 0 0 0; V3 1 0 0] [(0, 1)%Z]) empty_cloud empty_cloud 0.

(** A raw reference cloud of two points, in a file. *)
Definition toy_fs : gmap string file :=
  {["raw.pcd" := PcdFile (mkCloud [V3 0 0 0; V3 2 4 6] [] [])]}.

(** The reference that loading the toy raw file produces. *)
Definition toy_loaded : result Reference * gmap string file :=
  load_point_cloud toy_normals "raw.pcd" toy_fs.
Definition toy_ref : Reference :=
  match fst toy_loaded with
  | Ok ref => ref
  | Raise _ => mkRef empty_cloud vzero
  end.

(** The run of the toy absolute navigator. *)
Abbreviation toy_run limit :=
  (navigate_through_file (list PointCloud) toy_reader_next_frame toy_get_coordinates
     toy_skip toy_normals toy_downsample toy_match4 INR (toy_abs [] limit)).

(** The run over two frames with a frame limit of 2. *)
Abbreviation toy_run_frames :=
  (navigate_through_file (list PointCloud) toy_reader_next_frame toy_get_coordinates
     toy_skip toy_normals toy_downsample toy_match4 INR
     (toy_abs [toy_frame; toy_frame] 2)).

(** The same run over two frames, with the step of lines 217-297 alone. *)
Abbreviation toy_run_merging :=
  (navigate_with (list PointCloud) toy_get_coordinates toy_skip toy_downsample INR
     (fetch_frame (list PointCloud) toy_reader_next_frame
      ≫= merge_frame (list PointCloud) toy_normals toy_downsample toy_match4 INR)
     (toy_abs [toy_frame; toy_frame] 2)).

(** * The rest of the sources *)

(** ** pcapReader.py: the loops over a whole file *)

Section PcapReaderLoops.

Context {scan : Type}.
Variable xyzLut : scan -> list vec3.
Variable colorize_key : scan -> list vec3.

(** The loop of [count_frames] over the iterator [i]: one more for every
    scan that [skip_and_get] delivers. *)
Equations? count_loop (k : nat) (it : list scan) (count : nat) : nat
  by wf (length it) lt :=
count_loop k it count with inspect (skip_and_get_n k it) := {
  | exist _ (None, _) _ => count
  | exist _ (Some _, it') Hget => count_loop k it' (S count) }.
Proof.
  clear count_loop. revert it Hget.
  induction k as [|k IH]; intros [|s0 it] Hget; simpl in Hget; try discriminate.
  - injection Hget as _ <-. simpl. lia.
  - apply IH in Hget. simpl. lia.
Qed.

(** [count_frames]: [fresh] is what the new iterator over [self.source]
    delivers, [rewound] what [self.scans] delivers after [self.reset()]. *)
Definition count_frames (fresh rewound : list scan) (r : PcapReader scan)
  : nat * PcapReader scan :=
  (count_loop (Z.to_nat (skip_frames r)) fresh 0, set_scans rewound r).

(** The loop of [read_all_frames]. *)
Equations? read_all_loop (rv : bool) (r : PcapReader scan) (frames : list PointCloud)
  : result (list PointCloud) * PcapReader scan
  by wf (length (scans r)) lt :=
read_all_loop rv r frames with inspect (next_frame xyzLut colorize_key rv r) := {
  | exist _ (Raise e, r') _ => (Raise e, r')
  | exist _ (Ok None, r') _ => (Ok frames, r')
  | exist _ (Ok (Some frame), r') Hnext => read_all_loop rv r' (frames ++ [frame]) }.
Proof.
  clear read_all_loop. unfold next_frame, skip_and_get in Hnext.
  destruct (skip_and_get_n (Z.to_nat (skip_frames r)) (scans r)) as [[sc|] it] eqn:Hget;
    [|discriminate].
  assert (Hr' : scans r' = it).
  { destruct (filter_frame _ _ _ _); cbn in Hnext; [|discriminate].
    injection Hnext as _ <-. reflexivity. }
  rewrite Hr'. clear - Hget. revert Hget.
  generalize (scans r). generalize (Z.to_nat (skip_frames r)).
  induction n as [|k IH]; intros [|s0 l] Hget; simpl in Hget; try discriminate.
  - injection Hget as _ <-. simpl. lia.
  - apply IH in Hget. simpl. lia.
Qed.

(** [PcapReader.read_all_frames(remove_vehicle)] *)
Definition read_all_frames (rv : bool) (r : PcapReader scan)
  : result (list PointCloud) * PcapReader scan :=
  read_all_loop rv r [].

End PcapReaderLoops.

(** ** sbetParser.py: the parser *)

(** A row of the SBET table, [self.rows[i]], with its named columns. *)
Record SbetRecord : Type := mkRecord {
  rec_time : R;
  rec_lat : R;
  rec_lon : R;
  rec_alt : R;
  rec_heading : R
}.

(** [l[i]] for a Python sequence: negative indices count from the end. *)
Definition py_index {A} (l : list A) (i : Z) : result A :=
  let n := Z.of_nat (length l) in
  let j := if (i <? 0)%Z then (n + i)%Z else i in
  if (j <? 0)%Z then Raise IndexError
  else match l !! Z.to_nat j with
       | Some a => Ok a
       | None => Raise IndexError
       end.

(** Open3D [rotate(R, center)] with [R = get_rotation_matrix_from_xyz((0, 0, h))]:
    a rotation by [h] about the vertical axis through [c]. *)
Definition rotate_z (h : R) (c p : vec3) : vec3 :=
  V3 (cos h * (vx p - vx c) - sin h * (vy p - vy c) + vx c)
     (sin h * (vx p - vx c) + cos h * (vy p - vy c) + vy c)
     (vz p - vz c + vz c).

(** [SbetParser.rotate_points(coords, heading)]; [transformed_path.points[0]]
    raises IndexError for an empty list. *)
Definition rotate_points (coords : list SbetRow) (h : R) : result (list SbetRow) :=
  match coords with
  | [] => Raise IndexError
  | c0 :: _ =>
      Ok (map (fun c =>
                 let p := rotate_z h (row_np c0) (row_np c) in
                 mkRow (sow c) (-1) (-1) (alt c) (age c) (index c) (vx p) (vy p)
                       (heading c))
              coords)
  end.

Section SbetParser.

(** pyproj: [transformer.transform(lat, lon)]. *)
Variable transform : R -> R -> R * R.
(** sbetHelpers: [timestamp_unix2sow(seconds, gps_week)]. *)
Variable timestamp_unix2sow : R -> Z -> R.

(** [SbetRow(row, sow, index)] *)
Definition new_SbetRow (row : SbetRecord) (sow_now : R) (ix : Z) : SbetRow :=
  mkRow (rec_time row) (rec_lat row) (rec_lon row) (rec_alt row)
        (sow_now - rec_time row) ix
        (fst (transform (rec_lat row) (rec_lon row)))
        (snd (transform (rec_lat row) (rec_lon row)))
        (rec_heading row).

(** [self.row_count] is [len(self.rows)] from [__init__] on. *)
Record SbetParser : Type := mkParser {
  rows : list SbetRecord;
  current_index : nat
}.

Definition row_count (p : SbetParser) : nat := length (rows p).

(** [reset] *)
Definition parser_reset (p : SbetParser) : SbetParser := mkParser (rows p) 0.

(** The [for i in range(start_ix, self.row_count)] loop of [get_position],
    over the rows from [i] on: the first index whose time is not before
    [sow_now]. *)
Fixpoint find_row (sow_now : R) (i : nat) (rest : list SbetRecord) : option nat :=
  match rest with
  | [] => None
  | row :: rest' =>
      if Rleb sow_now (rec_time row) then Some i else find_row sow_now (S i) rest'
  end.

(** Lines 79-87 of [get_position], for the seconds of week [sow_now]. *)
Definition get_position_at (sow_now : R) (continue_from_previous : bool) (p : SbetParser)
  : result (option SbetRow) * SbetParser :=
  let start_ix := if continue_from_previous then current_index p else 1%nat in
  match find_row sow_now start_ix (drop start_ix (rows p)) with
  | Some i =>
      (row ← py_index (rows p) (Z.of_nat i - 1);
       Ok (Some (new_SbetRow row sow_now (Z.of_nat i))),
       mkParser (rows p) i)
  | None => (Ok None, mkParser (rows p) 0)
  end.

(** [get_position(timestamp, gps_week=gps_week, continue_from_previous=...)] *)
Definition get_position (timestamp : R) (gps_week : Z) (continue_from_previous : bool)
           (p : SbetParser) : result (option SbetRow) * SbetParser :=
  get_position_at (timestamp_unix2sow (timestamp / 1000000000) gps_week)
                  continue_from_previous p.

(** [get_rows]: [SbetRow(row)] for every row, with [sow = 0] and [index = 0]. *)
Definition get_rows (p : SbetParser) : list SbetRow :=
  map (fun row => new_SbetRow row 0 0) (rows p).

(** [get_rotated_rows] *)
Definition get_rotated_rows (p : SbetParser) : result (list SbetRow) :=
  match get_rows p with
  | [] => Raise IndexError
  | c0 :: coords => rotate_points (c0 :: coords) (heading c0)
  end.

End SbetParser.

(** ** absoluteNavigator.py: what the run keeps in step *)

(** The trajectory, the line set drawn from it and the metric series of the
    plot all describe the same frames. *)
Definition series_in_step {rstate} (st : AbsoluteLidarNavigator rstate) : Prop :=
  ls_points (movement_path rstate st) = abs_movements rstate st
  /\ ls_lines (movement_path rstate st)
     = consecutive_lines (length (abs_movements rstate st))
  /\ length (timeUsages (plot rstate st)) = length (abs_movements rstate st)
  /\ length (rmses (plot rstate st)) = length (abs_movements rstate st)
  /\ length (fitnesses (plot rstate st)) = length (abs_movements rstate st)
  /\ length (distances (plot rstate st)) = length (abs_movements rstate st).

(** ** navigator.py: what the run keeps in step, and the writer *)

(** One entry per position in each metric series, one path point per
    position, and one line between each two consecutive path points. *)
Definition records_in_step {reader_state} (nav : LidarNavigator reader_state)
           (plot : Plotter) : Prop :=
  length (timeUsages plot) = length (movements reader_state nav)
  /\ length (rmses plot) = length (movements reader_state nav)
  /\ length (fitnesses plot) = length (movements reader_state nav)
  /\ length (distances plot) = length (movements reader_state nav)
  /\ length (ls_points (movementPath reader_state nav))
     = length (movements reader_state nav)
  /\ ls_lines (movementPath reader_state nav)
     = consecutive_lines (length (movements reader_state nav)).

(** The recorded distances are the spacing of the trajectory: entry [i] is
    the distance from position [i] to position [i + 1], the last entry the
    distance of the last position from the origin. *)
Definition distances_are_spacing (ms : list vec3) (ds : list R) : Prop :=
  length ds = length ms
  /\ (forall i a b, ms !! i = Some a -> ms !! S i = Some b -> ds !! i = Some (dist a b))
  /\ (forall a, last ms = Some a -> last ds = Some (vnorm a)).

(** [np.floor] and [np.min] of one column. *)
Definition np_floor (x : R) : R := IZR (Int_part x).

Definition np_min (column : list R) : result R :=
  match column with
  | [] => Raise ValueError
  | x :: column' => Ok (fold_left Rmin column' x)
  end.

(** The header of the file that [save_cloud] declares. *)
Record LasHeader : Type := mkLasHeader {
  las_offset : vec3;
  las_scale : vec3
}.

(** Lines 108-117 of [save_cloud(path, cloud)]: the header that is set
    before the coordinates are handed to laspy. What laspy stores for the
    coordinates (whole steps of [scale] from [offset]) and [las.write] are
    left to laspy: they are not part of this model. *)
Definition save_cloud_header (cloud : PointCloud) : result LasHeader :=
  let xyz := points cloud in
  xmin ← np_min (map vx xyz);
  ymin ← np_min (map vy xyz);
  zmin ← np_min (map vz xyz);
  Ok (mkLasHeader (V3 (np_floor xmin) (np_floor ymin) (np_floor zmin))
                  (V3 0.001 0.001 0.001)).

(** ** serialPcapReader.py: [skip_and_get] *)

Section SerialSkipAndGet.

Context {scan : Type}.

(** [SerialPcapReader.skip_and_get(iterator)]: the iterator is the caller's,
    and the same one goes to every reader that is tried. *)
Equations? serial_skip_and_get (it : list scan) (s : SerialPcapReader (scan := scan))
  : option scan * list scan * SerialPcapReader (scan := scan)
  by wf (length (readers s) - current_reader_index s) lt :=
serial_skip_and_get it s with inspect (readers s !! current_reader_index s) := {
  | exist _ None _ => (None, it, s)
  | exist _ (Some r) Hr
      with inspect (skip_and_get_n (Z.to_nat (skip_frames r)) it) := {
      | exist _ (Some sc, it') _ =>
          (Some sc, it', store_reader (set_max_distance (serial_max_distance s) r) s)
      | exist _ (None, it') _ =>
          serial_skip_and_get it'
            (_next_reader (store_reader (set_max_distance (serial_max_distance s) r) s)) } }.
Proof.
  apply lookup_lt_Some in Hr. simpl. rewrite length_insert. lia.
Qed.

End SerialSkipAndGet.

(** ** serialPcapReader.py: [read_all_frames] *)

Section SerialReadAll.

Context {scan : Type}.
Variable xyzLut : scan -> list vec3.
Variable colorize_key : scan -> list vec3.

(** The scans that the readers of a serial reader still hold: the loop of
    [read_all_frames] ends because every frame it gets uses up at least one. *)
Definition scans_left (s : SerialPcapReader (scan := scan)) : nat :=
  sum_list_with (fun r => length (scans r)) (readers s).

Lemma skip_and_get_n_shortens (k : nat) (it : list scan) :
  length (snd (skip_and_get_n k it)) <= length it
  /\ (forall sc, fst (skip_and_get_n k it) = Some sc ->
        length (snd (skip_and_get_n k it)) < length it).
Proof.
  revert it. induction k as [|k IH]; intros [|s0 it]; simpl.
  - split; [lia|discriminate].
  - split; [lia|intros; lia].
  - split; [lia|discriminate].
  - destruct (IH it) as [Hle Hlt]. split; [lia|].
    intros sc Hsc. specialize (Hlt sc Hsc). lia.
Qed.

Lemma next_frame_shortens (rv : bool) (r r' : PcapReader scan)
      (res : result (option PointCloud)) :
  next_frame xyzLut colorize_key rv r = (res, r') ->
  length (scans r') <= length (scans r)
  /\ (forall frame, res = Ok (Some frame) -> length (scans r') < length (scans r)).
Proof.
  unfold next_frame, skip_and_get.
  pose proof (skip_and_get_n_shortens (Z.to_nat (skip_frames r)) (scans r)) as [Hle Hlt].
  destruct (skip_and_get_n _ _) as [[sc|] it]; cbn [fst snd] in *.
  - intros [= <- <-]. cbn [scans set_scans]. split; [exact Hle|].
    intros _ _. apply (Hlt sc). reflexivity.
  - intros [= <- <-]. cbn [scans set_scans]. split; [exact Hle|discriminate].
Qed.

Lemma scans_left_store_reader (s : SerialPcapReader (scan := scan))
      (r r' : PcapReader scan) :
  readers s !! current_reader_index s = Some r ->
  scans_left (store_reader r' s) + length (scans r)
  = scans_left s + length (scans r').
Proof.
  unfold scans_left, store_reader. cbn [readers current_reader_index].
  generalize (current_reader_index s). generalize (readers s).
  induction l as [|r0 l IH]; intros [|i] Hr; try discriminate; simpl in *.
  - injection Hr as ->. lia.
  - specialize (IH i Hr). lia.
Qed.

Lemma serial_next_frame_shortens (rv : bool) (s s' : SerialPcapReader (scan := scan))
      (res : result (option PointCloud)) :
  serial_next_frame xyzLut colorize_key rv s = (res, s') ->
  scans_left s' <= scans_left s
  /\ (forall frame, res = Ok (Some frame) -> scans_left s' < scans_left s).
Proof.
  revert s' res.
  funelim (serial_next_frame xyzLut colorize_key rv s); intros s1 res1 Hres;
    try clear Heqcall.
  all: try (injection Hres as <- <-).
  all: try match goal with
           | Hn : next_frame _ _ _ _ = _, Hr : readers _ !! _ = Some _ |- _ =>
               pose proof (next_frame_shortens _ _ _ _ Hn) as [Hle Hlt];
                 pose proof (scans_left_store_reader s r r' Hr) as Hsum;
                 cbn [scans set_max_distance] in Hle, Hlt
           end.
  - split; [lia|discriminate].
  - specialize (Hlt p0 eq_refl). split; [lia|intros; lia].
  - match goal with
    | IH : forall s' res, _ = _ -> _ |- _ => destruct (IH _ _ Hres) as [IHle IHlt]
    end.
    assert (Hsame : scans_left (_next_reader (store_reader r' s))
                    = scans_left (store_reader r' s)) by reflexivity.
    rewrite Hsame in IHle, IHlt. split; [lia|].
    intros frame Hframe. specialize (IHlt frame Hframe). lia.
  - split; [lia|discriminate].
Qed.

(** The loop of [SerialPcapReader.read_all_frames]. *)
Equations? serial_read_all_loop (rv : bool) (s : SerialPcapReader (scan := scan))
           (frames : list PointCloud)
  : result (list PointCloud) * SerialPcapReader (scan := scan)
  by wf (scans_left s) lt :=
serial_read_all_loop rv s frames
  with inspect (serial_next_frame xyzLut colorize_key rv s) := {
  | exist _ (Raise e, s') _ => (Raise e, s')
  | exist _ (Ok None, s') _ => (Ok frames, s')
  | exist _ (Ok (Some frame), s') Hnext =>
      serial_read_all_loop rv s' (frames ++ [frame]) }.
Proof.
  eapply serial_next_frame_shortens; [exact Hnext|reflexivity].
Qed.

(** [SerialPcapReader.read_all_frames(remove_vehicle)] *)
Definition serial_read_all_frames (rv : bool) (s : SerialPcapReader (scan := scan))
  : result (list PointCloud) * SerialPcapReader (scan := scan) :=
  serial_read_all_loop rv s [].

(** The frames that a reader delivers when it is read to its end on its own. *)
Definition reader_frames (rv : bool) (r : PcapReader scan) : list PointCloud :=
  match fst (read_all_frames xyzLut colorize_key rv r) with
  | Ok frames => frames
  | Raise _ => []
  end.

End SerialReadAll.

(** ** Further concrete instances *)

(** A positioning table of three rows, at seconds 10, 20 and 30 of the week. *)
Definition toy_record (time : R) : SbetRecord := mkRecord time 0 0 100 0.
Definition toy_rows : list SbetRecord := [toy_record 10; toy_record 20; toy_record 30].
Definition toy_transform (lat lon : R) : R * R := (lat, lon).
(** A clock conversion that reads the seconds off the week argument. *)
Definition toy_unix2sow (_ : R) (seconds : Z) : R := IZR seconds.

(** Two positions, and what [rotate_points] makes of them. *)
Definition toy_positions : list SbetRow :=
  [mkRow 0 0 0 100 0 0 10 20 0; mkRow 1 0 0 101 0 1 13 24 0].
Definition toy_rotated : list SbetRow :=
  match rotate_points toy_positions 1 with
  | Ok coords => coords
  | Raise _ => []
  end.

(** A sidecar whose cloud file is not there. *)
Definition toy_sidecar_fs : gmap string file :=
  {["ref.cloud" := JsonFile (<["offset" := JFloats [1; 2; 3]%R]>
                               (<["cloud" := JString "gone.pcd"]> ∅))]}.

(** One frame merged by lines 217-297 into the toy absolute navigator. *)
Abbreviation toy_merge :=
  (merge_frame (list PointCloud) toy_normals toy_downsample toy_match4 INR
     (Some toy_frame) (toy_abs [] 1)).

(** The same frame merged as the last turn of the loop, and the call of line
    154 after it. *)
Abbreviation toy_last_turn :=
  (loop_body (list PointCloud) INR
     (merge_frame (list PointCloud) toy_normals toy_downsample toy_match4 INR
        (Some toy_frame)) (toy_abs [] 1)).
Abbreviation toy_hand_over :=
  (ensure_merged_frame_is_downsampled (list PointCloud) toy_downsample
     (snd toy_last_turn)).

(** The toy absolute navigator with a positioning source that lists nothing. *)
Definition toy_abs_no_positions : AbsoluteLidarNavigator (list PointCloud) :=
  mkAbs (list PointCloud) [] (mkRef empty_cloud (V3 1 2 3)) 1 0.1 false false true
        5 5 false [] empty_lineset [] None None None (Some empty_lineset) false
        empty_cloud None empty_plot 0.

(** The run of the toy relative navigator over its two frames. *)
Abbreviation toy_relative_run :=
  (navigateThroughFile (list PointCloud) toy_readFrame toy_nextFrame toy_prepared
     toy_normals toy_downsample toy_match INR 3 toy_nav).

(** * Properties *)

(** ** Frame source: colours stay aligned with points *)

Section PcapReaderFacts.

Context {scan : Type}.
Variable xyzLut : scan -> list vec3.
Variable colorize_key : scan -> list vec3.

Local Abbreviation next_frame' := (next_frame xyzLut colorize_key).

Lemma boolean_index_rows {A} (keep : vec3 -> bool) (frame : list vec3) (cloud : list A) :
  length frame = length cloud ->
  boolean_index (map keep frame) cloud
  = Ok (map snd (List.filter (fun pc => keep (fst pc)) (combine frame cloud))).
Proof.
  revert cloud. induction frame as [|p frame IH]; intros [|c cloud] Hlen;
    simpl in *; try discriminate; [reflexivity|].
  rewrite IH by congruence. simpl. destruct (keep p); reflexivity.
Qed.

Lemma boolean_index_self (keep : vec3 -> bool) (frame : list vec3) :
  boolean_index (map keep frame) frame = Ok (List.filter keep frame).
Proof.
  induction frame as [|p frame IH]; simpl; [reflexivity|].
  rewrite IH. simpl. destruct (keep p); reflexivity.
Qed.

Lemma boolean_index_length_mismatch {A} (mask : list bool) (a : list A) :
  length mask <> length a -> boolean_index mask a = Raise IndexError.
Proof.
  revert a. induction mask as [|b mask IH]; intros [|x a] Hlen; simpl in *;
    try reflexivity; try congruence.
  rewrite IH by congruence. reflexivity.
Qed.

Lemma filter_rows_fst {A} (keep : vec3 -> bool) (frame : list vec3) (cloud : list A) :
  length frame = length cloud ->
  map fst (List.filter (fun pc => keep (fst pc)) (combine frame cloud))
  = List.filter keep frame.
Proof.
  revert cloud. induction frame as [|p frame IH]; intros [|c cloud] Hlen;
    simpl in *; try discriminate; [reflexivity|].
  destruct (keep p); simpl; rewrite IH by congruence; reflexivity.
Qed.

Lemma combine_fst_snd {A B} (l : list (A * B)) : combine (map fst l) (map snd l) = l.
Proof. induction l as [|[a b] l IH]; simpl; congruence. Qed.

Lemma filter_filter_andb {A} (f g : A -> bool) (l : list A) :
  List.filter g (List.filter f l) = List.filter (fun a => f a && g a) l.
Proof.
  induction l as [|a l IH]; simpl; [reflexivity|].
  destruct (f a); simpl; [destruct (g a)|]; rewrite IH; reflexivity.
Qed.

(** One filter step on a pair of row-aligned arrays: both arrays are cut by
    the mask computed from the points. *)
Lemma masked_pair (keep : vec3 -> bool) (rows : list (vec3 * vec3)) :
  boolean_index (map keep (map fst rows)) (map snd rows)
  = Ok (map snd (List.filter (fun pc => keep (fst pc)) rows))
  /\ boolean_index (map keep (map fst rows)) (map fst rows)
     = Ok (map fst (List.filter (fun pc => keep (fst pc)) rows)).
Proof.
  split.
  - rewrite boolean_index_rows by (rewrite !length_map; reflexivity).
    rewrite combine_fst_snd. reflexivity.
  - rewrite boolean_index_self.
    rewrite <- (filter_rows_fst keep (map fst rows) (map snd rows))
      by (rewrite !length_map; reflexivity).
    rewrite combine_fst_snd. reflexivity.
Qed.

Lemma filter_frame_rows (rv : bool) (md : option R) (rows : list (vec3 * vec3)) :
  filter_frame rv md (map fst rows) (map snd rows)
  = Ok (mkCloud (map fst (List.filter (fun pc => frame_mask rv md (fst pc)) rows))
                (map snd (List.filter (fun pc => frame_mask rv md (fst pc)) rows)) []).
Proof.
  unfold filter_frame, remove_vehicle, remove_invalid, remove_outside_distance.
  assert (Hstep1 : forall keep,
    (color_img' ← boolean_index (map keep (map fst rows)) (map snd rows);
     xyz' ← boolean_index (map keep (map fst rows)) (map fst rows);
     Ok (color_img', xyz'))
    = Ok (map snd (List.filter (fun pc => keep (fst pc)) rows),
          map fst (List.filter (fun pc => keep (fst pc)) rows))).
  { intros keep. destruct (masked_pair keep rows) as [-> ->]. reflexivity. }
  assert (H1 : (if rv
                then color_img' ← boolean_index (map vehicle_mask (map fst rows)) (map snd rows);
                     xyz' ← boolean_index (map vehicle_mask (map fst rows)) (map fst rows);
                     Ok (color_img', xyz')
                else color_img' ← boolean_index (map invalid_mask (map fst rows)) (map snd rows);
                     xyz' ← boolean_index (map invalid_mask (map fst rows)) (map fst rows);
                     Ok (color_img', xyz'))
               = Ok (map snd (List.filter
                       (fun pc => (if rv then vehicle_mask else invalid_mask) (fst pc)) rows),
                     map fst (List.filter
                       (fun pc => (if rv then vehicle_mask else invalid_mask) (fst pc)) rows))).
  { destruct rv; apply Hstep1. }
  rewrite H1. cbn [mbind result_bind].
  set (rows1 := List.filter _ rows).
  destruct md as [meters|].
  - destruct (masked_pair (distance_mask meters) rows1) as [-> ->].
    cbn [mbind result_bind]. subst rows1.
    rewrite filter_filter_andb. unfold frame_mask.
    destruct rv; reflexivity.
  - cbn [mbind result_bind]. subst rows1. unfold frame_mask.
    f_equal. f_equal; f_equal; apply List.filter_ext; intros [p c]; simpl;
      destruct rv; rewrite andb_true_r; reflexivity.
Qed.

Lemma skip_and_get_n_In (k : nat) (it it' : list scan) (sc : scan) :
  skip_and_get_n k it = (Some sc, it') -> In sc it.
Proof.
  revert it. induction k as [|k IH]; intros [|s it] H; simpl in H; try discriminate.
  - injection H as -> _. left; reflexivity.
  - right. eapply IH, H.
Qed.

Hypothesis lut_rows : forall sc, length (xyzLut sc) = length (colorize_key sc).

Lemma combine_rows (sc : scan) :
  xyzLut sc = map fst (combine (xyzLut sc) (colorize_key sc))
  /\ colorize_key sc = map snd (combine (xyzLut sc) (colorize_key sc)).
Proof.
  specialize (lut_rows sc). revert lut_rows.
  generalize (xyzLut sc) (colorize_key sc).
  induction l as [|p l IH]; intros [|c l'] Hlen; simpl in *; try discriminate;
    [split; reflexivity|].
  destruct (IH l') as [H1 H2]; [congruence|]. split; congruence.
Qed.

Lemma next_frame_total (rv : bool) (r : PcapReader scan) :
  exists o r', next_frame' rv r = (Ok o, r').
Proof.
  unfold next_frame', skip_and_get.
  destruct (skip_and_get_n _ _) as [[sc|] it]; [|eauto].
  destruct (combine_rows sc) as [Hx Hc].
  pose proof (filter_frame_rows rv (max_distance (set_scans it r))
                (combine (xyzLut sc) (colorize_key sc))) as Hff.
  rewrite <- Hx, <- Hc in Hff. rewrite Hff. cbn [mbind result_bind]. eauto.
Qed.

(** C9. Every frame that [next_frame'] returns has as many colours as points,
    and row [i] of the colours belongs to row [i] of the points: the
    (point, colour) rows of the frame are the rows of the scan that pass the
    mask computed from the point alone, in their order. Under the Ouster
    contract that the XYZ look-up table and the colour map give one row per
    pixel, no filter raises. *)
Theorem next_frame_colors_aligned (rv : bool) (r : PcapReader scan) :
  (exists o r', next_frame' rv r = (Ok o, r'))
  /\ forall frame r',
      next_frame' rv r = (Ok (Some frame), r') ->
      length (colors frame) = length (points frame)
      /\ exists sc, In sc (scans r)
         /\ combine (points frame) (colors frame)
            = List.filter (fun pc => frame_mask rv (max_distance r) (fst pc))
                          (combine (xyzLut sc) (colorize_key sc)).
Proof.
  split; [apply next_frame_total|].
  unfold next_frame', skip_and_get.
  destruct (skip_and_get_n (Z.to_nat (skip_frames r)) (scans r)) as [[sc|] it] eqn:Hget;
    cbn [set_scans max_distance].
  - destruct (combine_rows sc) as [Hx Hc].
    pose proof (filter_frame_rows rv (max_distance r)
                  (combine (xyzLut sc) (colorize_key sc))) as Hff.
    rewrite <- Hx, <- Hc in Hff. rewrite Hff. cbn [mbind result_bind].
    intros frame r' [= <- <-]. cbn [points colors].
    split; [rewrite !length_map; reflexivity|].
    exists sc. split; [eapply skip_and_get_n_In; eassumption|].
    apply combine_fst_snd.
  - intros frame r' [=].
Qed.

End PcapReaderFacts.

(** ** Multi-segment frame source *)

Section SerialPcapReaderFacts.

Context {scan : Type}.
Variable xyzLut : scan -> list vec3.
Variable colorize_key : scan -> list vec3.

Local Abbreviation next_frame' := (next_frame xyzLut colorize_key).
Local Abbreviation serial_next_frame' := (serial_next_frame xyzLut colorize_key).
Local Abbreviation serial_post' := (serial_post xyzLut colorize_key).

Lemma skip_and_get_n_None (k : nat) (it : list scan) :
  fst (skip_and_get_n k it) = None <-> (length it <= k)%nat.
Proof.
  revert it. induction k as [|k IH]; intros [|s it]; simpl; try (split; [lia|reflexivity]).
  - split; [discriminate|lia].
  - rewrite IH. lia.
Qed.

Lemma skip_and_get_n_None_rest (k : nat) (it it' : list scan) :
  skip_and_get_n k it = (None, it') -> it' = [].
Proof.
  revert it. induction k as [|k IH]; intros [|s it] H; simpl in H;
    try discriminate; try (injection H as <-; reflexivity).
  eapply IH, H.
Qed.

Lemma reader_exhausted_length (r : PcapReader scan) :
  reader_exhausted r <-> (length (scans r) <= Z.to_nat (skip_frames r))%nat.
Proof.
  unfold reader_exhausted, skip_and_get.
  rewrite <- skip_and_get_n_None.
  destruct (skip_and_get_n _ _); reflexivity.
Qed.

Lemma reader_exhausted_set_max_distance (d : option R) (r : PcapReader scan) :
  reader_exhausted (set_max_distance d r) <-> reader_exhausted r.
Proof. rewrite !reader_exhausted_length. reflexivity. Qed.

Lemma next_frame_None (rv : bool) (r r' : PcapReader scan) :
  next_frame' rv r = (Ok None, r') -> reader_exhausted r /\ reader_exhausted r'.
Proof.
  unfold next_frame', reader_exhausted, skip_and_get.
  destruct (skip_and_get_n _ _) as [[sc|] it] eqn:Hget; cbn [fst].
  - destruct (filter_frame _ _ _ _); cbn [mbind result_bind]; discriminate.
  - intros [= <-]. split; [reflexivity|]. cbn [scans set_scans skip_frames].
    apply skip_and_get_n_None_rest in Hget. subst it.
    destruct (Z.to_nat _); reflexivity.
Qed.

Lemma next_frame_live (rv : bool) (r r' : PcapReader scan) (res : result (option PointCloud)) :
  next_frame' rv r = (res, r') -> res <> Ok None -> ~ reader_exhausted r.
Proof.
  unfold next_frame', reader_exhausted, skip_and_get.
  destruct (skip_and_get_n _ _) as [[sc|] it] eqn:Hget; cbn [fst].
  - discriminate.
  - intros [= <- _] Hres. congruence.
Qed.

Lemma serial_next_frame_post (rv : bool) (s : SerialPcapReader) :
  serial_post' rv s (serial_next_frame' rv s).
Proof.
  funelim (serial_next_frame' rv s); unfold serial_post; cbn [fst snd];
    try clear Heqcall; try clear H0.
  - pose proof (lookup_ge_None_1 _ _ e).
    repeat split; try lia; try (intros; lia); auto.
  - cbn [store_reader current_reader_index readers].
    rewrite length_insert.
    repeat split; try lia; try (intros; lia).
    + intros i Hi. apply list_lookup_insert_ne. lia.
    + exists r, r'. repeat split; auto.
      * rewrite <- (reader_exhausted_set_max_distance (serial_max_distance s)).
        eapply next_frame_live; [eassumption|discriminate].
      * apply list_lookup_insert_eq. eapply lookup_lt_Some, Hr.
  - unfold serial_post in H.
    cbn [_next_reader _set_metadata store_reader current_reader_index readers
         serial_max_distance] in H.
    rewrite length_insert in H.
    destruct H as (Hle & Hlen & Hold & Hnew & Hpre & Hres).
    apply next_frame_None in e as [Hex Hex'].
    apply reader_exhausted_set_max_distance in Hex.
    set (s' := snd (serial_next_frame' rv _)) in *.
    assert (Hidx : readers s' !! current_reader_index s = Some r').
    { rewrite Hpre by lia. apply list_lookup_insert_eq. eapply lookup_lt_Some, Hr. }
    repeat split; try lia.
    + intros i r0 Hi Hr0.
      destruct (decide (i = current_reader_index s)) as [->|Hne].
      * congruence.
      * apply (Hold i); [lia|]. rewrite list_lookup_insert_ne by lia. exact Hr0.
    + intros i r0 Hi Hr0.
      destruct (decide (i = current_reader_index s)) as [->|Hne].
      * apply reader_exhausted_set_max_distance in Hex'. congruence.
      * apply (Hnew i); [lia|exact Hr0].
    + intros i Hi. rewrite Hpre by lia. apply list_lookup_insert_ne. lia.
    + destruct (fst (serial_next_frame' rv _)) as [[f|]|err]; [| exact Hres |].
      all: destruct Hres as (r1 & r1' & Hr1 & Hlive & Hnf & Hr1');
        exists r1, r1'; repeat split; auto;
        rewrite list_lookup_insert_ne in Hr1 by lia; exact Hr1.
  - cbn [store_reader current_reader_index readers].
    rewrite length_insert.
    repeat split; try lia; try (intros; lia).
    + intros i Hi. apply list_lookup_insert_ne. lia.
    + exists r, r'. repeat split; auto.
      * rewrite <- (reader_exhausted_set_max_distance (serial_max_distance s)).
        eapply next_frame_live; [eassumption|discriminate].
      * apply list_lookup_insert_eq. eapply lookup_lt_Some, Hr.
Qed.

Lemma serial_inv_init (rs : list (PcapReader scan)) (d : option R) (p : option string) :
  serial_inv (mkSerial rs 0 d p).
Proof. intros i r Hi. cbn in Hi. lia. Qed.

Hypothesis lut_rows : forall sc, length (xyzLut sc) = length (colorize_key sc).

(** C10. From a state in which the readers before the current index are
    drained (as after [__init__], [reset] and every earlier [next_frame']),
    [next_frame'] returns None exactly when every reader is exhausted;
    otherwise it returns the frame that the first reader with something
    left delivers. The index only moves forward, stops at that reader, has
    passed exhausted readers only, and the readers behind it stay drained. *)
Theorem serial_next_frame_first_live (rv : bool) (s : SerialPcapReader) :
  serial_inv s ->
  exists o s',
    serial_next_frame' rv s = (Ok o, s')
    /\ (o = None <-> forall r, In r (readers s) -> reader_exhausted r)
    /\ (forall frame, o = Some frame ->
          exists r r',
            readers s !! current_reader_index s' = Some r
            /\ ~ reader_exhausted r
            /\ (forall i ri, (i < current_reader_index s')%nat ->
                  readers s !! i = Some ri -> reader_exhausted ri)
            /\ next_frame' rv (set_max_distance (serial_max_distance s) r)
               = (Ok (Some frame), r')
            /\ readers s' !! current_reader_index s' = Some r')
    /\ (o = None -> (length (readers s) <= current_reader_index s')%nat)
    /\ (current_reader_index s <= current_reader_index s')%nat
    /\ (forall i ri, (current_reader_index s <= i < current_reader_index s')%nat ->
          readers s !! i = Some ri -> reader_exhausted ri)
    /\ serial_inv s'.
Proof.
  intros Hinv.
  pose proof (serial_next_frame_post rv s) as Hpost.
  destruct (serial_next_frame' rv s) as [res s'].
  unfold serial_post in Hpost. cbn [fst snd] in Hpost.
  destruct Hpost as (Hle & Hlen & Hold & Hnew & Hpre & Hres).
  assert (Hbefore : forall i ri, (i < current_reader_index s')%nat ->
            readers s !! i = Some ri -> reader_exhausted ri).
  { intros i ri Hi Hri.
    destruct (le_lt_dec (current_reader_index s) i).
    - apply (Hold i); [lia|exact Hri].
    - apply (Hinv i); assumption. }
  assert (Hinv' : serial_inv s').
  { intros i ri Hi Hri.
    destruct (le_lt_dec (current_reader_index s) i).
    - apply (Hnew i); [lia|exact Hri].
    - apply (Hinv i); [assumption|]. rewrite <- Hpre by assumption. exact Hri. }
  destruct res as [[frame|]|err].
  - destruct Hres as (r & r' & Hr & Hlive & Hnf & Hr').
    exists (Some frame), s'. repeat split; auto; try discriminate.
    + intros Hall. exfalso. apply Hlive, Hall.
      apply list_elem_of_In, list_elem_of_lookup. eauto.
    + intros f [= <-]. exists r, r'. repeat split; auto.
  - exists None, s'. repeat split; auto; try discriminate.
    intros _ r Hin. apply list_elem_of_In, list_elem_of_lookup in Hin as [i Hi].
    apply (Hbefore i); [|exact Hi].
    apply lookup_lt_Some in Hi. lia.
  - exfalso. destruct Hres as (r & r' & _ & _ & Hnf & _).
    destruct (next_frame_total xyzLut colorize_key lut_rows rv
                (set_max_distance (serial_max_distance s) r)) as (o & r'' & Ho).
    congruence.
Qed.

End SerialPcapReaderFacts.

(** ** Relative mode: trajectory bookkeeping *)

Section LidarNavigatorFacts.

Variable reader_state : Type.
Variable readFrame : Z -> bool -> reader_state -> PointCloud * reader_state.
Variable nextFrame : bool -> reader_state -> option PointCloud * reader_state.
Variable preparedClouds_len : reader_state -> Z.
Variable estimate_normals : PointCloud -> list vec3.
Variable voxel_down_sample : R -> PointCloud -> PointCloud.
Variable matcher_match : PointCloud -> PointCloud -> RegistrationResult.
Variable perf_counter : nat -> R.

Local Abbreviation mergeNextFrame' :=
  (mergeNextFrame reader_state nextFrame estimate_normals voxel_down_sample
                  matcher_match perf_counter).
Local Abbreviation navigate_loop' :=
  (navigate_loop reader_state nextFrame preparedClouds_len estimate_normals
                 voxel_down_sample matcher_match perf_counter).
Local Abbreviation navigateThroughFile' :=
  (navigateThroughFile reader_state readFrame nextFrame preparedClouds_len
                       estimate_normals voxel_down_sample matcher_match perf_counter).
Local Abbreviation LidarNavigator' := (LidarNavigator reader_state).
Local Abbreviation positions' := (positions reader_state).
Local Abbreviation segments' := (segments reader_state).
Local Abbreviation path_ok' := (path_ok reader_state).

Lemma mergeNextFrame_end (nav : LidarNavigator') (plot : Plotter) (rd : reader_state) :
  nextFrame true (reader reader_state nav) = (None, rd) ->
  exists nav', mergeNextFrame' nav plot = (false, nav', plot)
    /\ movements reader_state nav' = movements reader_state nav
    /\ movementPath reader_state nav' = movementPath reader_state nav.
Proof.
  intros Hnext. unfold mergeNextFrame. rewrite Hnext.
  eexists. split; [reflexivity|]. split; reflexivity.
Qed.

Lemma mergeNextFrame_step (nav : LidarNavigator') (plot : Plotter)
      (frame : PointCloud) (rd : reader_state) :
  nextFrame true (reader reader_state nav) = (Some frame, rd) ->
  exists nav' plot', mergeNextFrame' nav plot = (true, nav', plot')
    /\ reader reader_state nav' = rd
    /\ frame_limit reader_state nav' = frame_limit reader_state nav
    /\ length (movements reader_state nav') = S (length (movements reader_state nav))
    /\ positions' nav' = S (positions' nav)
    /\ segments' nav'
       = (if (2 <=? Z.of_nat (S (length (movements reader_state nav))))%Z
          then S (segments' nav) else segments' nav).
Proof.
  intros Hnext. unfold mergeNextFrame. rewrite Hnext.
  cbn [alignFrame].
  eexists. eexists. split; [reflexivity|].
  unfold positions, segments. cbn [reader frame_limit movements movementPath].
  assert (Hlen : length (map (fun m => vadd m (origin_movement
                   (transformation (matcher_match (previousFrame reader_state nav)
                      (with_normals estimate_normals frame)))))
                   (movements reader_state nav) ++
                 [origin_movement (transformation (matcher_match
                    (previousFrame reader_state nav)
                    (with_normals estimate_normals frame)))])
                 = S (length (movements reader_state nav))).
  { rewrite length_app, length_map. simpl. lia. }
  rewrite Hlen.
  repeat split.
  - destruct (2 <=? _)%Z; cbn [ls_points transform_lineset];
      rewrite length_map, length_app; simpl; lia.
  - destruct (2 <=? _)%Z; cbn [ls_lines transform_lineset];
      [rewrite length_app; simpl; lia | reflexivity].
Qed.

Lemma mergeNextFrame_path_ok (nav nav' : LidarNavigator') (plot plot' : Plotter) (b : bool) :
  mergeNextFrame' nav plot = (b, nav', plot') -> path_ok' nav -> path_ok' nav'.
Proof.
  intros Hm [Hp Hs]. unfold path_ok.
  destruct (nextFrame true (reader reader_state nav)) as [[frame|] rd] eqn:Hnext.
  - destruct (mergeNextFrame_step nav plot frame rd Hnext)
      as (n1 & p1 & Hm1 & _ & _ & Hmov & Hpos & Hseg).
    rewrite Hm in Hm1. injection Hm1 as _ <- _.
    rewrite Hmov, Hpos, Hseg, Hs, <- Hp. split; [reflexivity|].
    destruct (Z.leb_spec 2 (Z.of_nat (S (positions' nav)))); lia.
  - destruct (mergeNextFrame_end nav plot rd Hnext) as (n1 & Hm1 & Hmov & Hpath).
    rewrite Hm in Hm1. injection Hm1 as _ <- _.
    unfold positions, segments in *. rewrite Hmov, Hpath. split; assumption.
Qed.

(** The invariant holds after the loop however it ends (end of stream or
    frame limit). *)
Lemma navigate_loop_path_ok (fuel : nat) :
  forall (nav nav' : LidarNavigator') (plot plot' : Plotter),
    navigate_loop' fuel nav plot = Some (nav', plot') -> path_ok' nav -> path_ok' nav'.
Proof.
  induction fuel as [|fuel IH]; intros nav nav' plot plot' Hloop Hok; [discriminate|].
  simpl in Hloop.
  destruct (mergeNextFrame' nav plot) as [[b nav1] plot1] eqn:Hm.
  pose proof (mergeNextFrame_path_ok _ _ _ _ _ Hm Hok) as Hok1.
  destruct b.
  - destruct (_ && _).
    + injection Hloop as <- _. exact Hok1.
    + eapply IH; eassumption.
  - injection Hloop as <- _. exact Hok1.
Qed.

(** Draining a source of [n] frames adds [n] positions'. *)
Lemma navigate_loop_drains (n : nat) :
  forall (fuel : nat) (nav : LidarNavigator') (plot : Plotter),
    (frame_limit reader_state nav <= 1)%Z ->
    yields reader_state nextFrame n (reader reader_state nav) ->
    (n < fuel)%nat ->
    exists nav' plot',
      navigate_loop' fuel nav plot = Some (nav', plot')
      /\ positions' nav' = (positions' nav + n)%nat.
Proof.
  induction n as [|n IH]; intros fuel nav plot Hlim Hy Hfuel;
    (destruct fuel as [|fuel]; [lia|]); simpl in Hy |- *.
  - destruct (nextFrame true (reader reader_state nav)) as [o rd] eqn:Hnext.
    simpl in Hy. subst o.
    destruct (mergeNextFrame_end nav plot rd Hnext) as (n1 & -> & _ & Hpath).
    exists n1, plot. split; [reflexivity|]. unfold positions. rewrite Hpath. lia.
  - destruct Hy as [[frame Hframe] Hy].
    destruct (nextFrame true (reader reader_state nav)) as [o rd] eqn:Hnext.
    simpl in Hframe, Hy. subst o.
    destruct (mergeNextFrame_step nav plot frame rd Hnext)
      as (n1 & p1 & -> & Hrd & Hfl & _ & Hpos & _).
    assert (Hnolimit : ((1 <? frame_limit reader_state n1)
                        && (frame_limit reader_state n1
                            <=? preparedClouds_len (reader reader_state n1)))%Z = false).
    { rewrite Hfl. destruct (Z.ltb_spec 1 (frame_limit reader_state nav)); [lia|reflexivity]. }
    rewrite Hnolimit.
    destruct (IH fuel n1 p1) as (nav' & plot' & Hloop & Hpos'); [lia|rewrite Hrd; exact Hy|lia|].
    exists nav', plot'. split; [exact Hloop|]. lia.
Qed.

End LidarNavigatorFacts.

(** ** Relative mode: a run over the frames of a stream *)

Lemma source_prepare_seeded (frame : PointCloud) (rest : list PointCloud) :
  source_prepare 0 rest [frame] = mkSource rest [frame].
Proof. destruct rest; reflexivity. Qed.

(** A stream with [n] frames pending hands out [n] frames and then signals
    its end. *)
Lemma source_yields (pend : list PointCloud) :
  forall prepared : list PointCloud,
    yields FrameSource source_nextFrame (length pend) (mkSource pend prepared).
Proof.
  induction pend as [|frame rest IH]; intros prepared; simpl.
  - reflexivity.
  - split; [eexists; reflexivity|]. apply IH.
Qed.

Section FrameSourceFacts.

Variable estimate_normals : PointCloud -> list vec3.
Variable voxel_down_sample : R -> PointCloud -> PointCloud.
Variable matcher_match : PointCloud -> PointCloud -> RegistrationResult.
Variable perf_counter : nat -> R.

(** C1 (amended). A full run (no frame limit in force) over a stream of
    [N >= 1] frames seeds the model with the first frame, which gets no
    position, and aligns each of the other [N - 1]: it ends with exactly
    [N - 1] positions and movements and, when [N >= 2], [N - 2] segments
    (none when [N = 1]: the subtractions stop at 0), one segment less than
    positions whenever there is a position. *)
Theorem navigateThroughFile_positions_one_less_than_frames
        (frames : list PointCloud) (fuel : nat) (nav : LidarNavigator FrameSource) :
  reader FrameSource nav = mkSource frames [] ->
  (1 <= length frames)%nat ->
  (frame_limit FrameSource nav <= 1)%Z ->
  (length frames <= fuel)%nat ->
  exists nav' plot',
    navigateThroughFile FrameSource source_readFrame source_nextFrame source_prepared_len
                        estimate_normals voxel_down_sample matcher_match perf_counter
                        fuel nav = Some (nav', plot')
    /\ positions FrameSource nav' = (length frames - 1)%nat
    /\ length (movements FrameSource nav') = (length frames - 1)%nat
    /\ segments FrameSource nav' = (length frames - 2)%nat
    /\ segments FrameSource nav' = (positions FrameSource nav' - 1)%nat.
Proof.
  intros Hrd Hn Hlim Hfuel.
  destruct frames as [|frame rest]; [simpl in Hn; lia|].
  unfold navigateThroughFile, source_readFrame. rewrite Hrd.
  cbn [pending preparedClouds source_prepare length Nat.leb Z.to_nat app].
  rewrite source_prepare_seeded. cbn [pending preparedClouds].
  rewrite source_prepare_seeded.
  set (nav0 := mkNav FrameSource (mkSource rest [frame]) _ _ _ [] empty_lineset _ _ _).
  destruct (navigate_loop_drains FrameSource source_nextFrame source_prepared_len
              estimate_normals voxel_down_sample matcher_match perf_counter
              (length rest) fuel nav0 empty_plot)
    as (nav' & plot' & Hloop & Hpos);
    [exact Hlim|apply source_yields|simpl in Hfuel; lia|].
  assert (Hok : path_ok FrameSource nav').
  { eapply navigate_loop_path_ok; [exact Hloop|split; reflexivity]. }
  destruct Hok as [Hp Hs]. cbn in Hpos.
  exists nav', plot'. split; [exact Hloop|].
  cbn [length]. repeat split; lia.
Qed.

End FrameSourceFacts.

(** ** Relative mode: one step of the loop *)

Lemma lookup_map {A B} (f : A -> B) (l : list A) (i : nat) :
  map f l !! i = f <$> l !! i.
Proof.
  revert i. induction l as [|a l IH]; intros [|i]; simpl; try reflexivity. apply IH.
Qed.

(** Adding the same vector to two positions keeps their distance. *)
Lemma dist_vadd (a b m : vec3) : dist (vadd a m) (vadd b m) = dist a b.
Proof.
  unfold dist, vnorm, vsub, vadd, vdot. cbn [vx vy vz]. f_equal. ring.
Qed.

(** The origin, transformed by a matrix with last row [0 0 0 1], is the
    translation column. *)
Lemma origin_movement_rigid (T : mat4) :
  is_rigid T -> origin_movement T = translation_column T.
Proof.
  intros [Hrow _]. destruct T as [r0 r1 r2 r3]. cbn [row3] in Hrow. subst r3.
  destruct r0 as [a0 b0 c0 d0], r1 as [a1 b1 c1 d1], r2 as [a2 b2 c2 d2].
  unfold origin_movement, translation_column, get_center, transform_cloud,
    transform_point, mat_vec, dot4, vadd, vzero.
  cbn. f_equal; field.
Qed.

(** A rigid transform keeps the distance between two points. *)
Lemma transform_point_dist (T : mat4) (p q : vec3) :
  is_rigid T -> dist (transform_point T p) (transform_point T q) = dist p q.
Proof.
  intros (Hrow & H00 & H11 & H22 & H01 & H02 & H12).
  destruct T as [r0 r1 r2 r3]. cbn [row3] in Hrow. subst r3.
  destruct r0 as [a0 b0 c0 d0], r1 as [a1 b1 c1 d1], r2 as [a2 b2 c2 d2].
  destruct p as [px py pz], q as [qx qy qz].
  unfold vdot, column in *. cbn [vx vy vz hx hy hz row0 row1 row2] in *.
  unfold dist, vnorm, vsub, vdot, transform_point, mat_vec, dot4.
  cbn [vx vy vz hx hy hz hw row0 row1 row2 row3]. f_equal.
  set (dx := (px - qx)%R). set (dy := (py - qy)%R). set (dz := (pz - qz)%R).
  transitivity
    (dx * dx * (a0 * a0 + a1 * a1 + a2 * a2)
     + dy * dy * (b0 * b0 + b1 * b1 + b2 * b2)
     + dz * dz * (c0 * c0 + c1 * c1 + c2 * c2)
     + 2 * dx * dy * (a0 * b0 + a1 * b1 + a2 * b2)
     + 2 * dx * dz * (a0 * c0 + a1 * c1 + a2 * c2)
     + 2 * dy * dz * (b0 * c0 + b1 * c1 + b2 * c2))%R.
  - subst dx dy dz. field.
  - rewrite H00, H11, H22, H01, H02, H12. ring.
Qed.

Section MergeNextFrameFacts.

Variable reader_state : Type.
Variable nextFrame : bool -> reader_state -> option PointCloud * reader_state.
Variable estimate_normals : PointCloud -> list vec3.
Variable voxel_down_sample : R -> PointCloud -> PointCloud.
Variable matcher_match : PointCloud -> PointCloud -> RegistrationResult.
Variable perf_counter : nat -> R.

Local Abbreviation mergeNextFrame' :=
  (mergeNextFrame reader_state nextFrame estimate_normals voxel_down_sample
                  matcher_match perf_counter).
Local Abbreviation alignFrame' := (alignFrame estimate_normals matcher_match).

(** The movements after a step that merged a frame. *)
Lemma mergeNextFrame_movements (nav nav' : LidarNavigator reader_state)
      (plot plot' : Plotter) :
  mergeNextFrame' nav plot = (true, nav', plot') ->
  exists movement,
    movements reader_state nav'
    = map (fun m => vadd m movement) (movements reader_state nav) ++ [movement].
Proof.
  unfold mergeNextFrame.
  destruct (nextFrame true (reader reader_state nav)) as [[frame|] rd]; [|discriminate].
  cbn [alignFrame]. intros [= <- _]. cbn [movements]. eexists. reflexivity.
Qed.

(** C3. A step of the relative-mode loop re-expresses the recorded movements
    without changing the distance between any two of them: positions [i] and
    [j] recorded before the step are still there after it, and as far apart
    as before. *)
Theorem mergeNextFrame_preserves_distances
        (nav nav' : LidarNavigator reader_state) (plot plot' : Plotter)
        (i j : nat) (p_i p_j : vec3) :
  mergeNextFrame' nav plot = (true, nav', plot') ->
  movements reader_state nav !! i = Some p_i ->
  movements reader_state nav !! j = Some p_j ->
  exists p_i' p_j',
    movements reader_state nav' !! i = Some p_i'
    /\ movements reader_state nav' !! j = Some p_j'
    /\ dist p_i' p_j' = dist p_i p_j.
Proof.
  intros Hstep Hi Hj.
  destruct (mergeNextFrame_movements _ _ _ _ Hstep) as [movement ->].
  exists (vadd p_i movement), (vadd p_j movement).
  repeat split.
  - rewrite lookup_app_l by (rewrite length_map; eapply lookup_lt_Some, Hi).
    rewrite lookup_map, Hi. reflexivity.
  - rewrite lookup_app_l by (rewrite length_map; eapply lookup_lt_Some, Hj).
    rewrite lookup_map, Hj. reflexivity.
  - apply dist_vadd.
Qed.

(** The path points recorded before a step are re-expressed by the step's
    transformation; when that is rigid, they too keep their distances. *)
Lemma mergeNextFrame_path_distances
      (nav nav' : LidarNavigator reader_state) (plot plot' : Plotter)
      (frame : PointCloud) (rd : reader_state) (i j : nat) (p_i p_j : vec3) :
  nextFrame true (reader reader_state nav) = (Some frame, rd) ->
  is_rigid (transformation (matcher_match (previousFrame reader_state nav)
                              (with_normals estimate_normals frame))) ->
  mergeNextFrame' nav plot = (true, nav', plot') ->
  ls_points (movementPath reader_state nav) !! i = Some p_i ->
  ls_points (movementPath reader_state nav) !! j = Some p_j ->
  exists p_i' p_j',
    ls_points (movementPath reader_state nav') !! i = Some p_i'
    /\ ls_points (movementPath reader_state nav') !! j = Some p_j'
    /\ dist p_i' p_j' = dist p_i p_j.
Proof.
  intros Hnext Hrigid Hstep Hi Hj. unfold mergeNextFrame in Hstep.
  rewrite Hnext in Hstep. cbn [alignFrame] in Hstep.
  injection Hstep as <- _. cbn [movementPath].
  set (T := transformation _) in *.
  exists (transform_point T p_i), (transform_point T p_j).
  assert (Hlook : forall k p, ls_points (movementPath reader_state nav) !! k = Some p ->
            map (transform_point T)
                (ls_points (movementPath reader_state nav) ++ [V3 0 0 0]) !! k
            = Some (transform_point T p)).
  { intros k p Hk. rewrite lookup_map, lookup_app_l by (eapply lookup_lt_Some, Hk).
    rewrite Hk. reflexivity. }
  destruct (2 <=? _)%Z; cbn [ls_points transform_lineset];
    (repeat split; [apply Hlook, Hi|apply Hlook, Hj|apply transform_point_dist, Hrigid]).
Qed.

(** C4. For a rigid transform found by the matcher, the movement that
    [alignFrame] derives (origin transformed, centre of the result) is the
    translation column that the absolute navigator reads off the matrix. *)
Theorem alignFrame_movement_is_translation_column
        (source target target' : PointCloud) (T : mat4) (movement : vec3)
        (reg : RegistrationResult) :
  alignFrame' source target = (T, movement, reg, target') ->
  is_rigid (transformation reg) ->
  movement = translation_column (transformation reg)
  /\ T = transformation reg.
Proof.
  unfold alignFrame. intros [= <- <- <- _] Hrigid.
  split; [apply origin_movement_rigid, Hrigid|reflexivity].
Qed.

(** C5. Whatever frame the source delivers and whatever the matcher reports
    for it (an empty frame and fitness 0 included), the step returns True,
    appends one entry to each of the four metric series and appends exactly
    one movement and one path point. *)
Theorem mergeNextFrame_always_records
        (nav : LidarNavigator reader_state) (plot : Plotter)
        (frame : PointCloud) (rd : reader_state) :
  nextFrame true (reader reader_state nav) = (Some frame, rd) ->
  let reg := matcher_match (previousFrame reader_state nav)
                           (with_normals estimate_normals frame) in
  let movement := origin_movement (transformation reg) in
  exists nav' t,
    mergeNextFrame' nav plot
    = (true, nav',
       mkPlot (timeUsages plot ++ [t]) (rmses plot ++ [inlier_rmse reg])
              (fitnesses plot ++ [fitness reg])
              (distances plot ++ [vnorm movement]))
    /\ movements reader_state nav'
       = map (fun m => vadd m movement) (movements reader_state nav) ++ [movement]
    /\ length (movements reader_state nav') = S (length (movements reader_state nav))
    /\ positions reader_state nav' = S (positions reader_state nav).
Proof.
  intros Hnext reg movement. unfold mergeNextFrame. rewrite Hnext.
  cbn [alignFrame]. eexists. eexists. split; [reflexivity|].
  cbn [movements]. split; [reflexivity|].
  split; [rewrite length_app, length_map; simpl; lia|].
  unfold positions. cbn [movementPath].
  destruct (2 <=? _)%Z; cbn [ls_points transform_lineset];
    rewrite length_map, length_app; simpl; lia.
Qed.

End MergeNextFrameFacts.

(** ** Absolute mode: the coordinates of the positioning source *)

Lemma translate_at_lookup (t : vec3) (c : nat) (h : list SbetRow) :
  translate_at t c h !! c = translate t <$> h !! c.
Proof. apply list_lookup_alter_eq. Qed.

Lemma translate_at_lookup_ne (t : vec3) (c c' : nat) (h : list SbetRow) :
  c <> c' -> translate_at t c h !! c' = h !! c'.
Proof. apply list_lookup_alter_ne. Qed.

(** An object that is not in the list is left alone. *)
Lemma translate_actual_coordinates_other (offset : vec3) (coords : list nat) :
  forall (h : list SbetRow) (c : nat),
    ~ In c coords -> translate_actual_coordinates offset coords h !! c = h !! c.
Proof.
  unfold translate_actual_coordinates.
  induction coords as [|c0 coords IH]; intros h c Hnot; simpl; [reflexivity|].
  rewrite IH by (intros Hin; apply Hnot; right; exact Hin).
  rewrite !translate_at_lookup_ne by (intros ->; apply Hnot; left; reflexivity).
  reflexivity.
Qed.

(** An object that is in the list once is moved by the offset and then by
    [0, 0, 40]. *)
Lemma translate_actual_coordinates_lookup (offset : vec3) (coords : list nat) :
  forall (h : list SbetRow) (c : nat) (r : SbetRow),
    List.NoDup coords -> In c coords -> h !! c = Some r ->
    translate_actual_coordinates offset coords h !! c
    = Some (translate (V3 0 0 40) (translate offset r)).
Proof.
  induction coords as [|c0 coords IH]; intros h c r Hnd Hin Hr; [destruct Hin|].
  apply List.NoDup_cons_iff in Hnd as [Hfresh Hnd].
  change (translate_actual_coordinates offset (c0 :: coords) h)
    with (translate_actual_coordinates offset coords
            (translate_at (V3 0 0 40) c0 (translate_at offset c0 h))).
  destruct (decide (c = c0)) as [->|Hne].
  - rewrite translate_actual_coordinates_other by exact Hfresh.
    rewrite !translate_at_lookup, Hr. reflexivity.
  - destruct Hin as [Heq|Hin]; [congruence|].
    apply IH; [exact Hnd|exact Hin|].
    rewrite !translate_at_lookup_ne by congruence. exact Hr.
Qed.

Lemma translate_actual_coordinates_length (offset : vec3) (coords : list nat) :
  forall h : list SbetRow, length (translate_actual_coordinates offset coords h) = length h.
Proof.
  unfold translate_actual_coordinates.
  induction coords as [|c0 coords IH]; intros h; simpl; [reflexivity|].
  rewrite IH. unfold translate_at. rewrite !length_alter. reflexivity.
Qed.

Section SetupFacts.

Variable rstate : Type.
Variable get_coordinates : bool -> rstate -> list SbetRow -> list nat * list SbetRow.

Local Abbreviation setup_actual_coordinates' :=
  (setup_actual_coordinates rstate get_coordinates).

(** The heap after lines 78-101, in terms of the heap that
    [get_coordinates] returned. *)
Lemma setup_actual_coordinates_heap (st : AbsoluteLidarNavigator rstate)
      (coords : list nat) (h : list SbetRow) :
  sbet rstate st = true ->
  get_coordinates false (abs_reader rstate st) (heap rstate st) = (coords, h) ->
  exists extra,
    heap rstate (snd (setup_actual_coordinates' st))
    = translate_actual_coordinates
        (full_point_cloud_offset (reference rstate st)) coords h ++ extra.
Proof.
  intros Hsbet Hget. unfold setup_actual_coordinates.
  unfold mbind, M_bind, get at 1. rewrite Hsbet, Hget.
  cbn [modify set_actual_coordinates set_heap reference heap].
  set (h' := translate_actual_coordinates _ coords h).
  destruct coords as [|c0 coords]; [exists []; cbn; rewrite app_nil_r; reflexivity|].
  destruct (h' !! c0) as [r0|]; [|exists []; cbn; rewrite app_nil_r; reflexivity].
  exists [r0; r0]. reflexivity.
Qed.

(** What lines 86-92 do to a position object that [get_coordinates] lists
    once: it is translated by the offset that centred the reference cloud
    and, after that, by the fixed vector [0, 0, 40] of line 92. *)
Lemma setup_actual_coordinates_translates
        (st : AbsoluteLidarNavigator rstate) (coords : list nat) (h : list SbetRow)
        (c : nat) (r : SbetRow) :
  sbet rstate st = true ->
  get_coordinates false (abs_reader rstate st) (heap rstate st) = (coords, h) ->
  List.NoDup coords ->
  In c coords ->
  h !! c = Some r ->
  heap rstate (snd (setup_actual_coordinates' st)) !! c
  = Some (translate (V3 0 0 40)
            (translate (full_point_cloud_offset (reference rstate st)) r)).
Proof.
  intros Hsbet Hget Hnd Hin Hr.
  destruct (setup_actual_coordinates_heap st coords h Hsbet Hget) as [extra ->].
  rewrite lookup_app_l.
  - apply translate_actual_coordinates_lookup; assumption.
  - rewrite translate_actual_coordinates_length. eapply lookup_lt_Some, Hr.
Qed.

End SetupFacts.

(** ** Absolute mode: the reference cloud *)

Lemma cloud_path_endswith : endswith cloud_path ".cloud" = true.
Proof. vm_compute. reflexivity. Qed.

Lemma cloud_path_ne_pcd_path : cloud_path <> pcd_path.
Proof.
  intros H. apply (f_equal String.length) in H. vm_compute in H. discriminate.
Qed.

Section LoadPointCloudFacts.

Variable estimate_normals : PointCloud -> list vec3.

Local Abbreviation load_point_cloud' := (load_point_cloud estimate_normals).

(** What the raw branch leaves behind: the centred cloud in the .pcd file
    and its offset in the sidecar. *)
Lemma load_raw_saves (path : string) (fs fs1 : gmap string file) (ref1 : Reference) :
  load_raw estimate_normals path fs = (Ok ref1, fs1) ->
  fs1 !! pcd_path = Some (PcdFile (full_cloud ref1))
  /\ fs1 !! cloud_path
     = Some (JsonFile
               (<["offset" := JFloats [vx (full_point_cloud_offset ref1);
                                       vy (full_point_cloud_offset ref1);
                                       vz (full_point_cloud_offset ref1)]]>
                  (<["cloud" := JString pcd_path]> ∅))).
Proof.
  unfold load_raw.
  destruct (amin _) as [lo|e]; [|discriminate].
  destruct (amax _) as [hi|e]; [|discriminate].
  intros [= <- <-]. cbn [full_cloud full_point_cloud_offset]. unfold write_point_cloud.
  split.
  - rewrite lookup_insert_ne by apply cloud_path_ne_pcd_path.
    apply lookup_insert_eq.
  - apply lookup_insert_eq.
Qed.

Lemma load_sidecar_saved (fs1 : gmap string file) (ref1 : Reference) :
  fs1 !! pcd_path = Some (PcdFile (full_cloud ref1)) ->
  fs1 !! cloud_path
  = Some (JsonFile
            (<["offset" := JFloats [vx (full_point_cloud_offset ref1);
                                    vy (full_point_cloud_offset ref1);
                                    vz (full_point_cloud_offset ref1)]]>
               (<["cloud" := JString pcd_path]> ∅))) ->
  load_sidecar cloud_path fs1 = Ok ref1.
Proof.
  intros Hpcd Hjson. unfold load_sidecar, json_load. rewrite Hjson.
  cbn [mbind result_bind]. unfold json_get.
  rewrite lookup_insert_eq. cbn [mbind result_bind].
  rewrite lookup_insert_ne by discriminate. rewrite lookup_insert_eq.
  cbn [mbind result_bind]. unfold read_point_cloud. rewrite Hpcd.
  destruct ref1 as [c [ox oy oz]]. reflexivity.
Qed.

(** C7. After the reference cloud was loaded from a raw point-cloud file,
    loading the sidecar that this load wrote gives the same offset vector
    and a cloud with the same number of points (here: the same reference
    altogether), and leaves the files as they are. *)
Theorem load_point_cloud_sidecar_agrees
        (path : string) (fs fs1 : gmap string file) (ref1 : Reference) :
  endswith path ".cloud" = false ->
  load_point_cloud' path fs = (Ok ref1, fs1) ->
  exists ref2,
    load_point_cloud' cloud_path fs1 = (Ok ref2, fs1)
    /\ full_point_cloud_offset ref2 = full_point_cloud_offset ref1
    /\ length (points (full_cloud ref2)) = length (points (full_cloud ref1))
    /\ ref2 = ref1.
Proof.
  intros Hraw Hload. unfold load_point_cloud in *.
  rewrite Hraw in Hload. rewrite cloud_path_endswith.
  destruct (load_raw estimate_normals path fs) as [[ref0|e] fs0] eqn:Hr;
    cbn [mbind result_bind] in Hload; [|discriminate].
  injection Hload as <- <-.
  destruct (load_raw_saves _ _ _ _ Hr) as [Hpcd Hjson].
  rewrite (load_sidecar_saved fs0 ref0 Hpcd Hjson). cbn [mbind result_bind].
  eexists. split; [reflexivity|]. repeat split.
Qed.

End LoadPointCloudFacts.

(** ** Absolute mode: the run *)

Section AbsoluteLidarNavigatorFacts.

Variable rstate : Type.
Variable reader_next_frame : bool -> rstate -> result (option PointCloud) * rstate.
Variable get_coordinates : bool -> rstate -> list SbetRow -> list nat * list SbetRow.
Variable skip_initial_frames : rstate -> rstate.
Variable estimate_normals : PointCloud -> list vec3.
Variable voxel_down_sample : R -> PointCloud -> PointCloud.
Variable matcher_match : PointCloud -> PointCloud -> Z -> option mat4 -> RegistrationResult.
Variable timer_time : nat -> R.

Local Abbreviation Nav := (AbsoluteLidarNavigator rstate).
Local Abbreviation merge_next_frame' :=
  (merge_next_frame rstate reader_next_frame estimate_normals voxel_down_sample
                    matcher_match timer_time).

(** *** The step as it stands *)

(** Whatever the reader delivers, end of stream included, the step raises
    before it looks at the frame. *)
Lemma merge_next_frame_raises (st : Nav) (o : option PointCloud) (rd : rstate) :
  reader_next_frame (remove_vehicle_arg rstate st) (abs_reader rstate st) = (Ok o, rd) ->
  merge_next_frame' st
  = (Raise (match actual_movement_path rstate st with
            | None => AttributeError
            | Some _ => NameError
            end),
     set_vis rstate true (set_abs_reader rstate rd st)).
Proof.
  intros Hnext. unfold merge_next_frame, fetch_frame, debugging_visualization, mbind, M_bind.
  rewrite Hnext. cbn.
  destruct (actual_movement_path rstate st); reflexivity.
Qed.

End AbsoluteLidarNavigatorFacts.

(** * The statements at concrete inputs *)

Lemma toy_lut_rows (sc : toy_scan) : length (toy_xyzLut sc) = length (toy_colorize sc).
Proof. unfold toy_xyzLut, toy_colorize. rewrite !length_map. reflexivity. Qed.

Lemma next_frame_colors_aligned_witness :
  (exists o r', next_frame toy_xyzLut toy_colorize false toy_reader = (Ok o, r'))
  /\ forall frame r',
      next_frame toy_xyzLut toy_colorize false toy_reader = (Ok (Some frame), r') ->
      length (colors frame) = length (points frame)
      /\ exists sc, In sc (scans toy_reader)
         /\ combine (points frame) (colors frame)
            = List.filter (fun pc => frame_mask false (max_distance toy_reader) (fst pc))
                          (combine (toy_xyzLut sc) (toy_colorize sc)).
Proof.
  exact (next_frame_colors_aligned toy_xyzLut toy_colorize toy_lut_rows false toy_reader).
Defined.

Lemma serial_next_frame_first_live_witness :
  exists o s',
    serial_next_frame toy_xyzLut toy_colorize false toy_serial = (Ok o, s')
    /\ (o = None <-> forall r, In r (readers toy_serial) -> reader_exhausted r)
    /\ (forall frame, o = Some frame ->
          exists r r',
            readers toy_serial !! current_reader_index s' = Some r
            /\ ~ reader_exhausted r
            /\ (forall i ri, (i < current_reader_index s')%nat ->
                  readers toy_serial !! i = Some ri -> reader_exhausted ri)
            /\ next_frame toy_xyzLut toy_colorize false
                 (set_max_distance (serial_max_distance toy_serial) r)
               = (Ok (Some frame), r')
            /\ readers s' !! current_reader_index s' = Some r')
    /\ (o = None -> (length (readers toy_serial) <= current_reader_index s')%nat)
    /\ (current_reader_index toy_serial <= current_reader_index s')%nat
    /\ (forall i ri, (current_reader_index toy_serial <= i < current_reader_index s')%nat ->
          readers toy_serial !! i = Some ri -> reader_exhausted ri)
    /\ serial_inv s'.
Proof.
  apply (serial_next_frame_first_live toy_xyzLut toy_colorize toy_lut_rows false toy_serial).
  apply serial_inv_init.
Defined.

(** C1, as stated, fails: a stream of one frame ends with no position, not
    one, and with as many segments as positions; a stream of three frames
    ends with two positions and one segment, not three and two. *)
Lemma trajectory_has_no_position_for_the_first_frame :
  (exists nav' plot',
     toy_source_run 2 [toy_frame] = Some (nav', plot')
     /\ positions FrameSource nav' = 0%nat
     /\ positions FrameSource nav' <> 1%nat
     /\ (Z.of_nat (segments FrameSource nav')
         <> Z.of_nat (positions FrameSource nav') - 1)%Z)
  /\ (exists nav' plot',
        toy_source_run 4 [toy_frame; toy_frame; toy_frame] = Some (nav', plot')
        /\ positions FrameSource nav' = 2%nat
        /\ positions FrameSource nav' <> 3%nat
        /\ segments FrameSource nav' = 1%nat).
Proof.
  split; eexists; eexists; (split; [reflexivity|]).
  - match goal with
    | |- context [segments FrameSource ?n] =>
        assert (Hp : positions FrameSource n = 0%nat) by reflexivity;
          assert (Hs : segments FrameSource n = 0%nat) by reflexivity
    end.
    rewrite Hs, Hp. repeat split; lia.
  - match goal with
    | |- context [segments FrameSource ?n] =>
        assert (Hp : positions FrameSource n = 2%nat) by reflexivity;
          assert (Hs : segments FrameSource n = 1%nat) by reflexivity
    end.
    rewrite Hs, Hp. repeat split; lia.
Qed.

Lemma navigateThroughFile_positions_one_less_than_frames_witness :
  exists nav' plot',
    toy_source_run 3 [toy_frame; toy_frame; toy_frame] = Some (nav', plot')
    /\ positions FrameSource nav' = 2%nat
    /\ length (movements FrameSource nav') = 2%nat
    /\ segments FrameSource nav' = 1%nat
    /\ segments FrameSource nav' = (positions FrameSource nav' - 1)%nat.
Proof.
  apply (navigateThroughFile_positions_one_less_than_frames toy_normals toy_downsample
           toy_match INR [toy_frame; toy_frame; toy_frame] 3
           (toy_source_nav [toy_frame; toy_frame; toy_frame])).
  - reflexivity.
  - simpl. lia.
  - simpl. lia.
  - simpl. lia.
Defined.

Lemma identity4_rigid : is_rigid identity4.
Proof. unfold is_rigid, identity4, vdot, column. cbn. repeat split; lra. Qed.

Lemma mergeNextFrame_preserves_distances_witness :
  exists p_i' p_j',
    movements (list PointCloud)
      (snd (fst (mergeNextFrame (list PointCloud) toy_nextFrame toy_normals toy_downsample
                   toy_match INR toy_nav2 empty_plot))) !! 0%nat = Some p_i'
    /\ movements (list PointCloud)
         (snd (fst (mergeNextFrame (list PointCloud) toy_nextFrame toy_normals toy_downsample
                      toy_match INR toy_nav2 empty_plot))) !! 1%nat = Some p_j'
    /\ dist p_i' p_j' = dist (V3 0 0 0) (V3 1 0 0).
Proof.
  eapply (mergeNextFrame_preserves_distances (list PointCloud) toy_nextFrame toy_normals
            toy_downsample toy_match INR toy_nav2 _ empty_plot _ 0 1).
  - reflexivity.
  - reflexivity.
  - reflexivity.
Defined.

Lemma alignFrame_movement_is_translation_column_witness :
  origin_movement identity4 = translation_column identity4
  /\ identity4 = identity4.
Proof.
  apply (alignFrame_movement_is_translation_column toy_normals toy_match
           empty_cloud empty_cloud (with_normals toy_normals empty_cloud) identity4
           (origin_movement identity4) (mkReg identity4 0 0)).
  - reflexivity.
  - exact identity4_rigid.
Defined.

(** An empty frame, and a matcher that reports fitness 0. *)
Lemma mergeNextFrame_always_records_witness :
  exists nav' t,
    mergeNextFrame (list PointCloud) toy_nextFrame toy_normals toy_downsample toy_match INR
                   toy_nav2 empty_plot
    = (true, nav',
       mkPlot [t] [0%R] [0%R] [vnorm (origin_movement identity4)])
    /\ movements (list PointCloud) nav'
       = map (fun m => vadd m (origin_movement identity4)) [V3 0 0 0; V3 1 0 0]
         ++ [origin_movement identity4]
    /\ length (movements (list PointCloud) nav') = 3%nat
    /\ positions (list PointCloud) nav' = 3%nat.
Proof.
  apply (mergeNextFrame_always_records (list PointCloud) toy_nextFrame toy_normals
           toy_downsample toy_match INR toy_nav2 empty_plot empty_cloud []).
  reflexivity.
Defined.

(** C6. The claim fails on the code at a positioning source with the one
    position (10, 20, 100) and a reference cloud that was centred with the
    offset (1, 2, 3). After lines 86-92 the position is (9, 18, 57): x and y
    are moved by the offset, as the claim and the comment above the loop
    have it, but the altitude is moved by the offset and by 40 more (line
    92), so the position is not the one translated by the offset and by
    nothing else, (9, 18, 97). *)
Theorem actual_coordinates_altitude_moved_by_40_more :
  exists r,
    heap (list PointCloud)
         (snd (setup_actual_coordinates (list PointCloud) toy_get_coordinates
                 (toy_abs [] 1))) !! 0%nat = Some r
    /\ row_np toy_row = V3 10 20 100
    /\ full_point_cloud_offset (reference (list PointCloud) (toy_abs [] 1)) = V3 1 2 3
    /\ row_np r = V3 9 18 57
    /\ row_np (translate (V3 1 2 3) toy_row) = V3 9 18 97
    /\ r <> translate (V3 1 2 3) toy_row.
Proof.
  exists (translate (V3 0 0 40) (translate (V3 1 2 3) toy_row)). split.
  - apply (setup_actual_coordinates_translates (list PointCloud) toy_get_coordinates
             (toy_abs [] 1) [0%nat] [toy_row] 0%nat toy_row).
    + reflexivity.
    + reflexivity.
    + apply List.NoDup_cons; [intros []|apply List.NoDup_nil].
    + left. reflexivity.
    + reflexivity.
  - split; [reflexivity|]. split; [reflexivity|].
    unfold row_np, translate, toy_row. cbn [row_x row_y alt vx vy vz].
    split; [f_equal; lra|]. split; [f_equal; lra|].
    intros H. injection H as H. lra.
Qed.

Lemma load_toy_raw : toy_loaded = (Ok toy_ref, snd toy_loaded).
Proof. reflexivity. Qed.

Lemma load_point_cloud_sidecar_agrees_witness :
  exists ref2,
    load_point_cloud toy_normals cloud_path (snd toy_loaded) = (Ok ref2, snd toy_loaded)
    /\ full_point_cloud_offset ref2 = full_point_cloud_offset toy_ref
    /\ length (points (full_cloud ref2)) = length (points (full_cloud toy_ref))
    /\ ref2 = toy_ref.
Proof.
  apply (load_point_cloud_sidecar_agrees toy_normals "raw.pcd" toy_fs (snd toy_loaded) toy_ref).
  - reflexivity.
  - exact load_toy_raw.
Defined.

Lemma ok_pair {A S} (x : result A * S) (a : A) : fst x = Ok a -> x = (Ok a, snd x).
Proof. destruct x as [r s]. cbn. intros ->. reflexivity. Qed.

(** A run with a frame limit of 0 reaches the hand-over. *)
Lemma toy_run_0 : toy_run 0 = (Ok tt, snd (toy_run 0)).
Proof. apply ok_pair. reflexivity. Qed.

(** C2, absolute mode, at the end of the stream: the reader returns None,
    and [merge_next_frame] raises NameError instead of returning False; a
    run with a frame limit of 1 ends with that exception. The relative-mode
    step returns False on the same signal ([mergeNextFrame_end]). *)
Theorem merge_next_frame_at_end_of_stream_raises :
  toy_reader_next_frame false (abs_reader (list PointCloud) (toy_abs [] 1)) = (Ok None, [])
  /\ fst (merge_next_frame (list PointCloud) toy_reader_next_frame toy_normals
            toy_downsample toy_match4 INR (toy_abs [] 1)) = Raise NameError
  /\ fst (toy_run 1) = Raise NameError.
Proof.
  split; [reflexivity|]. split.
  - rewrite (merge_next_frame_raises (list PointCloud) toy_reader_next_frame toy_normals
               toy_downsample toy_match4 INR (toy_abs [] 1) None []) by reflexivity.
    reflexivity.
  - reflexivity.
Qed.


(** ** The models at work *)

Example boolean_index_keeps_marked :
  boolean_index [true; false; true] [1; 2; 3]%nat = Ok [1; 3]%nat.
Proof. reflexivity. Qed.

Example boolean_index_wrong_length :
  boolean_index [true; false] [1; 2; 3]%nat = Raise IndexError.
Proof. reflexivity. Qed.

Example skip_and_get_n_skips : skip_and_get_n 1 [10; 20; 30]%nat = (Some 20, [30])%nat.
Proof. reflexivity. Qed.

Example skip_and_get_n_runs_out : skip_and_get_n 1 [10]%nat = (None, []).
Proof. reflexivity. Qed.

Example endswith_cloud : endswith "reference.cloud" ".cloud" = true.
Proof. reflexivity. Qed.

Example endswith_pcd : endswith "reference.pcd" ".cloud" = false.
Proof. reflexivity. Qed.

(** The drained first reader is passed, the second one delivers. *)
Example serial_next_frame_moves_on :
  current_reader_index
    (snd (serial_next_frame toy_xyzLut toy_colorize false toy_serial)) = 1%nat
  /\ exists frame,
       fst (serial_next_frame toy_xyzLut toy_colorize false toy_serial) = Ok (Some frame).
Proof.
  pose proof (serial_next_frame_post toy_xyzLut toy_colorize false toy_serial) as Hpost.
  destruct (serial_next_frame toy_xyzLut toy_colorize false toy_serial) as [res s'].
  unfold serial_post in Hpost. cbn [fst snd] in *.
  destruct Hpost as (_ & _ & Hpassed & _ & _ & Hres).
  destruct res as [[frame|]|e].
  - destruct Hres as (r & r' & Hr & Hlive & _).
    split; [|eauto].
    destruct (current_reader_index s') as [|[|k]] eqn:Hidx.
    + exfalso. apply Hlive. injection Hr as <-. reflexivity.
    + reflexivity.
    + discriminate Hr.
  - exfalso.
    assert (Hex : reader_exhausted toy_reader).
    { apply (Hpassed 1%nat); [cbn in *; lia|reflexivity]. }
    discriminate Hex.
  - exfalso. destruct Hres as (r & r' & _ & _ & Hnf & _).
    destruct (next_frame_total toy_xyzLut toy_colorize toy_lut_rows false
                (set_max_distance (serial_max_distance toy_serial) r)) as (o & r'' & Ho).
    congruence.
Qed.

(** Relative mode at the end of the stream: the step returns False and the
    loop ends at once. *)
Example mergeNextFrame_at_end_of_stream :
  fst (fst (mergeNextFrame (list PointCloud) toy_nextFrame toy_normals toy_downsample
              toy_match INR
              (mkNav (list PointCloud) [] 0.1 (-1) false [] empty_lineset
                     empty_cloud empty_cloud 0)
              empty_plot)) = false
  /\ navigate_loop (list PointCloud) toy_nextFrame toy_prepared toy_normals
       toy_downsample toy_match INR 1
       (mkNav (list PointCloud) [] 0.1 (-1) false [] empty_lineset empty_cloud empty_cloud 0)
       empty_plot
     = Some (mkNav (list PointCloud) [] 0.1 (-1) false [] empty_lineset
                   empty_cloud empty_cloud 0,
             empty_plot).
Proof. split; reflexivity. Qed.

(** Two frames merged with the periodic compaction five frames away: the
    run still ends with a compacted model (one point, in the toy voxel grid),
    two positions and one segment. *)
Example toy_run_merging_compacts :
  fst toy_run_merging = Ok tt
  /\ merged_frame_is_dirty (list PointCloud) (snd toy_run_merging) = false
  /\ downsample_timer (list PointCloud) (snd toy_run_merging) = 3%Z
  /\ length (points (merged_frame (list PointCloud) (snd toy_run_merging))) = 1%nat
  /\ length (abs_movements (list PointCloud) (snd toy_run_merging)) = 2%nat
  /\ length (ls_points (movement_path (list PointCloud) (snd toy_run_merging))) = 2%nat
  /\ ls_lines (movement_path (list PointCloud) (snd toy_run_merging)) = [(0, 1)%Z].
Proof. repeat split; reflexivity. Qed.

(** The altitude of the toy position: 100, less 3 for the offset, less 40. *)
Example toy_row_altitude :
  alt (translate (V3 0 0 40) (translate (V3 1 2 3) toy_row)) = 57%R
  /\ alt (translate (V3 1 2 3) toy_row) = 97%R.
Proof. unfold translate, toy_row. cbn. split; lra. Qed.

(** * Further properties *)

(** ** pcapReader.py *)

Lemma skip_and_get_n_closed {S} (k : nat) (it : list S) :
  skip_and_get_n k it = (it !! k, drop (Datatypes.S k) it).
Proof.
  revert it. induction k as [|k IH]; intros [|s it]; simpl; try reflexivity.
  apply IH.
Qed.

(** X1. With [skip_frames = k], [skip_and_get] delivers the scan at position
    [k] of what is left and consumes [k + 1] scans; when at most [k] scans
    are left it delivers None and consumes them all. *)
Theorem skip_and_get_delivers {scan : Type} (r : PcapReader scan) :
  skip_and_get r
  = (scans r !! Z.to_nat (skip_frames r),
     set_scans (drop (S (Z.to_nat (skip_frames r))) (scans r)) r).
Proof.
  unfold skip_and_get. rewrite skip_and_get_n_closed. reflexivity.
Qed.

Lemma count_loop_closed {scan : Type} (k : nat) (it : list scan) (count : nat) :
  count_loop k it count = (count + length it / S k)%nat.
Proof.
  funelim (count_loop k it count); try clear Heqcall;
    match goal with
    | Hg : skip_and_get_n _ _ = _ |- _ =>
        pose proof Hg as Hg'; rewrite skip_and_get_n_closed in Hg';
        injection Hg' as Hk Hrest
    end.
  - match goal with IH : count_loop _ _ _ = _ |- _ => rewrite IH end.
    subst it'. apply lookup_lt_Some in Hk. rewrite length_drop.
    replace (length it) with ((length it - S k) + 1 * S k)%nat at 2 by lia.
    rewrite Nat.div_add by lia. lia.
  - apply lookup_ge_None_1 in Hk. rewrite Nat.div_small by lia. lia.
Qed.

(** X2. [count_frames] returns the number of scans of the source divided by
    [skip_frames + 1], rounded down, and leaves the reader rewound. *)
Theorem count_frames_counts {scan : Type} (fresh rewound : list scan) (r : PcapReader scan) :
  fst (count_frames fresh rewound r)
  = (length fresh / S (Z.to_nat (skip_frames r)))%nat
  /\ scans (snd (count_frames fresh rewound r)) = rewound
  /\ skip_frames (snd (count_frames fresh rewound r)) = skip_frames r.
Proof.
  unfold count_frames. cbn [fst snd]. rewrite count_loop_closed.
  repeat split.
Qed.

Section PcapReaderLoopFacts.

Context {scan : Type}.
Variable xyzLut : scan -> list vec3.
Variable colorize_key : scan -> list vec3.

(** The reader after any call of [next_frame], and when the call gives None. *)
Lemma next_frame_closed (rv : bool) (r r' : PcapReader scan)
      (res : result (option PointCloud)) :
  next_frame xyzLut colorize_key rv r = (res, r') ->
  r' = set_scans (drop (S (Z.to_nat (skip_frames r))) (scans r)) r
  /\ (res = Ok None <-> (length (scans r) <= Z.to_nat (skip_frames r))%nat).
Proof.
  unfold next_frame, skip_and_get. rewrite skip_and_get_n_closed.
  destruct (scans r !! Z.to_nat (skip_frames r)) as [sc|] eqn:Hk.
  - intros [= <- <-]. split; [reflexivity|].
    apply lookup_lt_Some in Hk.
    destruct (filter_frame _ _ _ _); cbn; split; (discriminate || lia).
  - intros [= <- <-]. split; [reflexivity|].
    apply lookup_ge_None_1 in Hk. split; [intros _; exact Hk|reflexivity].
Qed.

(** What the filters leave of the points, whatever happens to the colours. *)
Lemma filter_frame_points (rv : bool) (md : option R) (xyz color_img : list vec3)
      (cloud : PointCloud) :
  filter_frame rv md xyz color_img = Ok cloud ->
  points cloud = List.filter (frame_mask rv md) xyz.
Proof.
  unfold filter_frame, remove_vehicle, remove_invalid, remove_outside_distance.
  assert (Hfirst : forall keep : vec3 -> bool,
    (color_img' ← boolean_index (map keep xyz) color_img;
     xyz' ← boolean_index (map keep xyz) xyz;
     Ok (color_img', xyz'))
    = (color_img' ← boolean_index (map keep xyz) color_img;
       Ok (color_img', List.filter keep xyz))).
  { intros keep. rewrite boolean_index_self. reflexivity. }
  assert (H1 : (if rv
                then color_img' ← boolean_index (map vehicle_mask xyz) color_img;
                     xyz' ← boolean_index (map vehicle_mask xyz) xyz;
                     Ok (color_img', xyz')
                else color_img' ← boolean_index (map invalid_mask xyz) color_img;
                     xyz' ← boolean_index (map invalid_mask xyz) xyz;
                     Ok (color_img', xyz'))
               = (color_img' ← boolean_index
                                 (map (if rv then vehicle_mask else invalid_mask) xyz)
                                 color_img;
                  Ok (color_img',
                      List.filter (if rv then vehicle_mask else invalid_mask) xyz))).
  { destruct rv; apply Hfirst. }
  rewrite H1. clear H1 Hfirst.
  destruct (boolean_index _ color_img) as [col1|e]; cbn [mbind result_bind]; [|discriminate].
  destruct md as [meters|]; cbn [mbind result_bind].
  - rewrite boolean_index_self.
    destruct (boolean_index _ col1) as [col2|e]; cbn [mbind result_bind]; [|discriminate].
    intros [= <-]. cbn [points]. rewrite filter_filter_andb.
    unfold frame_mask. destruct rv; reflexivity.
  - intros [= <-]. cbn [points]. unfold frame_mask.
    apply List.filter_ext. intros p. destruct rv; rewrite andb_true_r; reflexivity.
Qed.

(** X4. Every point of a frame that [next_frame] returns has passed the
    filters: with vehicle removal it lies outside the vehicle box, without
    it none of its three coordinates is 0 (so a point on a coordinate plane
    is dropped as invalid), and with a maximum distance set it is no
    farther from the sensor than that. No point is added: the frame has at
    most as many points as some scan of the reader has rows. *)
Theorem next_frame_points_pass_filters (rv : bool) (r r' : PcapReader scan)
        (frame : PointCloud) :
  next_frame xyzLut colorize_key rv r = (Ok (Some frame), r') ->
  (forall p, In p (points frame) ->
     (if rv
      then ((vx p > 0.2 \/ vx p < - 2.2) \/ (vy p > 0.7 \/ vy p < - 0.7)
            \/ (vz p > 0.3 \/ vz p < - 2))%R
      else (vx p <> 0 /\ vy p <> 0 /\ vz p <> 0)%R)
     /\ (forall meters, max_distance r = Some meters ->
           (sqrt (vx p ^ 2 + vy p ^ 2 + vz p ^ 2) <= meters)%R))
  /\ exists sc, In sc (scans r) /\ (length (points frame) <= length (xyzLut sc))%nat.
Proof.
  unfold next_frame, skip_and_get.
  destruct (skip_and_get_n _ _) as [[sc|] it] eqn:Hget; [|discriminate].
  cbn [max_distance set_scans].
  destruct (filter_frame _ _ _ _) as [cloud|e] eqn:Hff; cbn [mbind result_bind];
    [|discriminate].
  intros [= <- _]. apply filter_frame_points in Hff. rewrite Hff. split.
  - intros p Hp. apply List.filter_In in Hp as [_ Hmask].
    unfold frame_mask in Hmask. apply andb_true_iff in Hmask as [Hfirst Hdist].
    split.
    + destruct rv.
      * unfold vehicle_mask, Rgtb, Rltb in Hfirst.
        repeat match type of Hfirst with
               | context [Rlt_dec ?a ?b] => destruct (Rlt_dec a b)
               end; cbn in Hfirst; try discriminate; lra.
      * unfold invalid_mask, Rneqb in Hfirst.
        repeat match type of Hfirst with
               | context [Req_dec_T ?a ?b] => destruct (Req_dec_T a b)
               end; cbn in Hfirst; try discriminate; auto.
    + intros meters Hmd. rewrite Hmd in Hdist.
      unfold distance_mask, Rleb in Hdist.
      destruct (Rle_dec _ _); [assumption|discriminate].
  - exists sc. split; [eapply skip_and_get_n_In, Hget|apply List.filter_length_le].
Qed.

(** X5. Each of the three filters raises IndexError when the cloud it is
    given has another number of rows than the frame the mask is computed
    from; otherwise it returns, in order, the rows of the cloud whose frame
    point passes the filter's test. *)
Theorem filters_need_matching_rows {A} (frame : list vec3) (cloud : list A) (meters : R) :
  let select (keep : vec3 -> bool) : result (list A) :=
    if Nat.eqb (length frame) (length cloud)
    then Ok (map snd (List.filter (fun pc => keep (fst pc)) (combine frame cloud)))
    else Raise IndexError in
  remove_vehicle frame cloud = select vehicle_mask
  /\ remove_invalid frame cloud = select invalid_mask
  /\ remove_outside_distance meters frame cloud = select (distance_mask meters).
Proof.
  unfold remove_vehicle, remove_invalid, remove_outside_distance. cbv zeta.
  destruct (Nat.eqb_spec (length frame) (length cloud)) as [Hlen|Hlen].
  - rewrite !boolean_index_rows by exact Hlen. repeat split.
  - repeat split; apply boolean_index_length_mismatch; rewrite length_map; exact Hlen.
Qed.

Hypothesis lut_rows : forall sc, length (xyzLut sc) = length (colorize_key sc).

Lemma next_frame_same_length (rv : bool) (r r' : PcapReader scan) (frame : PointCloud) :
  next_frame xyzLut colorize_key rv r = (Ok (Some frame), r') ->
  length (colors frame) = length (points frame).
Proof.
  unfold next_frame, skip_and_get.
  destruct (skip_and_get_n _ _) as [[sc|] it]; [|discriminate].
  destruct (combine_rows xyzLut colorize_key lut_rows sc) as [Hx Hc].
  pose proof (filter_frame_rows rv (max_distance (set_scans it r))
                (combine (xyzLut sc) (colorize_key sc))) as Hff.
  rewrite <- Hx, <- Hc in Hff. rewrite Hff.
  cbn [mbind result_bind]. intros [= <- _].
  cbn [points colors]. rewrite !length_map. reflexivity.
Qed.

Lemma read_all_loop_closed (rv : bool) (r : PcapReader scan) (frames : list PointCloud) :
  exists more r',
    read_all_loop xyzLut colorize_key rv r frames = (Ok (frames ++ more), r')
    /\ length more = (length (scans r) / S (Z.to_nat (skip_frames r)))%nat
    /\ scans r' = []
    /\ Forall (fun frame => length (colors frame) = length (points frame)) more.
Proof.
  funelim (read_all_loop xyzLut colorize_key rv r frames); try clear Heqcall;
    match goal with
    | Hn : next_frame _ _ _ _ = _ |- _ =>
        pose proof (next_frame_closed _ _ _ _ Hn) as [Hr' Hnone]
    end.
  - (* a frame was delivered *)
    destruct H as (more & r'' & Hloop & Hlen & Hend & Hall).
    exists (frame :: more), r''. rewrite Hloop, <- app_assoc. split; [reflexivity|].
    assert (Hlive : (Z.to_nat (skip_frames r) < length (scans r))%nat).
    { destruct (le_lt_dec (length (scans r)) (Z.to_nat (skip_frames r))) as [Hle|Hlt];
        [|exact Hlt].
      apply Hnone in Hle. discriminate. }
    subst r'. cbn [scans skip_frames set_scans] in Hlen.
    rewrite length_drop in Hlen. repeat split.
    + cbn [length]. rewrite Hlen.
      replace (length (scans r))
        with ((length (scans r) - S (Z.to_nat (skip_frames r)))
              + 1 * S (Z.to_nat (skip_frames r)))%nat at 2 by lia.
      rewrite Nat.div_add by lia. lia.
    + exact Hend.
    + constructor; [|exact Hall]. eapply next_frame_same_length, Hnext.
  - (* end of the file *)
    exists [], r'. rewrite app_nil_r. split; [reflexivity|].
    assert (Hle : (length (scans r) <= Z.to_nat (skip_frames r))%nat)
      by (apply Hnone; reflexivity).
    repeat split.
    + rewrite Nat.div_small by lia. reflexivity.
    + subst r'. cbn [scans set_scans]. apply drop_ge. lia.
    + constructor.
  - (* a filter raised: excluded by the look-up table contract *)
    exfalso.
    destruct (next_frame_total xyzLut colorize_key lut_rows rv r) as (o & r0 & Ho).
    congruence.
Qed.

(** X3. [read_all_frames] returns, without raising, as many frames as the
    reader has scans left divided by [skip_frames + 1], rounded down: one
    frame for every [skip_frames + 1] scans. It leaves the reader drained,
    and every frame it returns has as many colours as points. *)
Theorem read_all_frames_reads_all (rv : bool) (r : PcapReader scan) :
  exists frames r',
    read_all_frames xyzLut colorize_key rv r = (Ok frames, r')
    /\ length frames = (length (scans r) / S (Z.to_nat (skip_frames r)))%nat
    /\ scans r' = []
    /\ Forall (fun frame => length (colors frame) = length (points frame)) frames.
Proof.
  unfold read_all_frames.
  destruct (read_all_loop_closed rv r []) as (more & r' & Hloop & H).
  exists more, r'. split; [exact Hloop|exact H].
Qed.

End PcapReaderLoopFacts.

(** ** sbetParser.py *)

Lemma Rleb_true (a b : R) : Rleb a b = true <-> (a <= b)%R.
Proof. unfold Rleb. destruct (Rle_dec a b); split; auto; discriminate. Qed.

Lemma Rleb_false (a b : R) : Rleb a b = false <-> (b < a)%R.
Proof. unfold Rleb. destruct (Rle_dec a b); split; auto; try discriminate; lra. Qed.

(** The loop stops at the first row, from position [i] on, whose time is not
    before [sow_now]. *)
Lemma find_row_spec (sow_now : R) (rest : list SbetRecord) :
  forall i : nat,
    match find_row sow_now i rest with
    | Some j =>
        (i <= j)%nat
        /\ (exists row, rest !! (j - i)%nat = Some row /\ (sow_now <= rec_time row)%R)
        /\ forall m row, (m < j - i)%nat -> rest !! m = Some row ->
                         (rec_time row < sow_now)%R
    | None => forall m row, rest !! m = Some row -> (rec_time row < sow_now)%R
    end.
Proof.
  induction rest as [|row0 rest IH]; intros i; simpl.
  - intros m row Hm. discriminate.
  - destruct (Rleb sow_now (rec_time row0)) eqn:Hcmp.
    + apply Rleb_true in Hcmp. split; [lia|]. split.
      * exists row0. rewrite Nat.sub_diag. split; [reflexivity|exact Hcmp].
      * intros m row Hm. lia.
    + apply Rleb_false in Hcmp. specialize (IH (S i)).
      destruct (find_row sow_now (S i) rest) as [j|].
      * destruct IH as (Hle & (row & Hrow & Htime) & Hbefore). split; [lia|]. split.
        -- exists row. replace (j - i)%nat with (S (j - S i)) by lia. split; assumption.
        -- intros [|m] row' Hm Hrow'.
           ++ injection Hrow' as <-. exact Hcmp.
           ++ apply (Hbefore m); [lia|exact Hrow'].
      * intros [|m] row' Hrow'.
        -- injection Hrow' as <-. exact Hcmp.
        -- apply (IH m), Hrow'.
Qed.

(** [l[-1]] is the last element. *)
Lemma py_index_last {A} (l : list A) :
  py_index l (-1) = match last l with Some a => Ok a | None => Raise IndexError end.
Proof.
  unfold py_index. change (-1 <? 0)%Z with true. cbv iota.
  rewrite last_lookup.
  destruct l as [|a l]; [reflexivity|].
  replace (Z.of_nat (length (a :: l)) + -1)%Z with (Z.of_nat (length l))
    by (cbn [length]; lia).
  destruct (Z.ltb_spec (Z.of_nat (length l)) 0); [lia|].
  rewrite Nat2Z.id. cbn [length Nat.pred]. reflexivity.
Qed.

Section SbetParserFacts.

Variable transform : R -> R -> R * R.
Variable timestamp_unix2sow : R -> Z -> R.

Local Abbreviation get_position' := (get_position transform timestamp_unix2sow).
Local Abbreviation new_SbetRow' := (new_SbetRow transform).

(** X6. When [get_position] returns a row, its index [i] is the first index
    at or after the start of the search whose time is not before the
    requested time; [i] is stored as [current_index]; and the returned row
    carries the data of row [i - 1] with [age] the requested time less that
    row's time. If [i] is not the very first index searched, the age is
    positive. *)
Theorem get_position_finds_first (timestamp : R) (gps_week : Z) (continue : bool)
        (p p' : SbetParser) (found : SbetRow) :
  get_position transform timestamp_unix2sow timestamp gps_week continue p
  = (Ok (Some found), p') ->
  let sow_now := timestamp_unix2sow (timestamp / 1000000000) gps_week in
  let start_ix := if continue then current_index p else 1%nat in
  exists (i : nat) (row previous : SbetRecord),
    index found = Z.of_nat i
    /\ current_index p' = i /\ rows p' = rows p
    /\ (start_ix <= i)%nat
    /\ rows p !! i = Some row /\ (sow_now <= rec_time row)%R
    /\ (forall j rj, (start_ix <= j < i)%nat -> rows p !! j = Some rj ->
                     (rec_time rj < sow_now)%R)
    /\ py_index (rows p) (Z.of_nat i - 1) = Ok previous
    /\ found = new_SbetRow transform previous sow_now (Z.of_nat i)
    /\ age found = (sow_now - sow found)%R
    /\ ((start_ix < i)%nat -> (0 < age found)%R).
Proof.
  unfold get_position, get_position_at. cbv zeta.
  set (sow_now := timestamp_unix2sow _ _).
  set (start_ix := if continue then current_index p else 1%nat).
  pose proof (find_row_spec sow_now (drop start_ix (rows p)) start_ix) as Hspec.
  destruct (find_row sow_now start_ix (drop start_ix (rows p))) as [i|]; [|discriminate].
  destruct Hspec as (Hle & (row & Hrow & Htime) & Hbefore).
  rewrite lookup_drop in Hrow. replace (start_ix + (i - start_ix))%nat with i in Hrow by lia.
  destruct (py_index (rows p) (Z.of_nat i - 1)) as [previous|e] eqn:Hprev;
    cbn [mbind result_bind]; [|discriminate].
  intros [= <- <-]. exists i, row, previous.
  assert (Hbefore' : forall j rj, (start_ix <= j < i)%nat -> rows p !! j = Some rj ->
                                  (rec_time rj < sow_now)%R).
  { intros j rj Hj Hrj. apply (Hbefore (j - start_ix)%nat); [lia|].
    rewrite lookup_drop. replace (start_ix + (j - start_ix))%nat with j by lia. exact Hrj. }
  repeat split; try assumption; try reflexivity.
  intros Hlt. cbn [age new_SbetRow].
  unfold py_index in Hprev.
  destruct (Z.ltb_spec (Z.of_nat i - 1) 0) as [Hneg|Hpos]; [lia|].
  destruct (Z.ltb_spec (Z.of_nat i - 1) 0); [lia|].
  destruct (rows p !! Z.to_nat (Z.of_nat i - 1)) as [prev|] eqn:Hlook; [|discriminate].
  injection Hprev as <-.
  assert (rec_time prev < sow_now)%R; [|lra].
  apply (Hbefore' (Z.to_nat (Z.of_nat i - 1))); [lia|exact Hlook].
Qed.

(** X7. [get_position] never raises. It returns None exactly when every row
    from the start of the search on has a time before the requested time,
    and then puts [current_index] back to 0. *)
Theorem get_position_none_iff (timestamp : R) (gps_week : Z) (continue : bool)
        (p : SbetParser) :
  let sow_now := timestamp_unix2sow (timestamp / 1000000000) gps_week in
  let start_ix := if continue then current_index p else 1%nat in
  exists o p',
    get_position transform timestamp_unix2sow timestamp gps_week continue p = (Ok o, p')
    /\ (o = None <->
        forall j rj, (start_ix <= j)%nat -> rows p !! j = Some rj ->
                     (rec_time rj < sow_now)%R)
    /\ (o = None -> current_index p' = 0%nat).
Proof.
  unfold get_position, get_position_at. cbv zeta.
  set (sow_now := timestamp_unix2sow _ _).
  set (start_ix := if continue then current_index p else 1%nat).
  pose proof (find_row_spec sow_now (drop start_ix (rows p)) start_ix) as Hspec.
  destruct (find_row sow_now start_ix (drop start_ix (rows p))) as [i|].
  - destruct Hspec as (Hle & (row & Hrow & Htime) & _).
    rewrite lookup_drop in Hrow.
    replace (start_ix + (i - start_ix))%nat with i in Hrow by lia.
    assert (Hprev : exists previous, py_index (rows p) (Z.of_nat i - 1) = Ok previous).
    { unfold py_index. apply lookup_lt_Some in Hrow.
      destruct (Z.ltb_spec (Z.of_nat i - 1) 0) as [Hneg|Hpos].
      - destruct (Z.ltb_spec (Z.of_nat (length (rows p)) + (Z.of_nat i - 1)) 0); [lia|].
        destruct (lookup_lt_is_Some_2 (rows p)
                    (Z.to_nat (Z.of_nat (length (rows p)) + (Z.of_nat i - 1))))
          as [a ->]; [lia|eauto].
      - destruct (Z.ltb_spec (Z.of_nat i - 1) 0); [lia|].
        destruct (lookup_lt_is_Some_2 (rows p) (Z.to_nat (Z.of_nat i - 1)))
          as [a ->]; [lia|eauto]. }
    destruct Hprev as [previous ->]. cbn [mbind result_bind].
    eexists. eexists. split; [reflexivity|]. split; [|discriminate].
    split; [discriminate|]. intros Hall. exfalso.
    specialize (Hall i row Hle Hrow). lra.
  - eexists. eexists. split; [reflexivity|]. split; [|reflexivity].
    split; [|reflexivity]. intros _ j rj Hj Hrj.
    apply (Hspec (j - start_ix)%nat). rewrite lookup_drop.
    replace (start_ix + (j - start_ix))%nat with j by lia. exact Hrj.
Qed.

Lemma find_row_skip (sow_now : R) (l : list SbetRecord) :
  forall (i c : nat),
    (forall m row, (m < c)%nat -> l !! m = Some row -> (rec_time row < sow_now)%R) ->
    find_row sow_now i l = find_row sow_now (i + c) (drop c l).
Proof.
  induction l as [|row0 l IH]; intros i c Hbefore.
  - rewrite drop_nil. reflexivity.
  - destruct c as [|c]; [rewrite Nat.add_0_r; reflexivity|].
    simpl. assert (Hrow0 : (rec_time row0 < sow_now)%R) by (apply (Hbefore 0%nat); [lia|reflexivity]).
    apply Rleb_false in Hrow0. rewrite Hrow0.
    rewrite (IH (S i) c); [f_equal; lia|].
    intros m row Hm Hrow. apply (Hbefore (S m)); [lia|exact Hrow].
Qed.

(** X8. Continuing from the stored index gives the same answer as a search
    from the start, provided the rows between index 1 and the stored index
    all have times before the requested time (as they do when the requested
    times do not decrease from call to call). *)
Theorem get_position_continue_agrees (timestamp : R) (gps_week : Z) (p : SbetParser) :
  (1 <= current_index p)%nat ->
  (forall j rj, (1 <= j < current_index p)%nat -> rows p !! j = Some rj ->
     (rec_time rj < timestamp_unix2sow (timestamp / 1000000000) gps_week)%R) ->
  get_position transform timestamp_unix2sow timestamp gps_week true p
  = get_position transform timestamp_unix2sow timestamp gps_week false p.
Proof.
  intros Hpos Hbefore. unfold get_position, get_position_at. cbv zeta.
  set (sow_now := timestamp_unix2sow _ _) in *.
  rewrite (find_row_skip sow_now (drop 1 (rows p)) 1 (current_index p - 1)).
  - rewrite drop_drop. replace (1 + (current_index p - 1))%nat with (current_index p) by lia.
    reflexivity.
  - intros m row Hm Hrow. rewrite lookup_drop in Hrow.
    apply (Hbefore (1 + m)%nat); [lia|exact Hrow].
Qed.

(** X9. A search that continues from index 0 (the state after [reset] or
    after a failed search) and finds row 0 already at or after the requested
    time reads [self.rows[-1]]: the returned position carries the data of the
    last row of the table, with index 0. *)
Theorem get_position_wraps_at_zero (timestamp : R) (gps_week : Z) (p : SbetParser)
        (first : SbetRecord) :
  current_index p = 0%nat ->
  rows p !! 0%nat = Some first ->
  (timestamp_unix2sow (timestamp / 1000000000) gps_week <= rec_time first)%R ->
  exists final,
    last (rows p) = Some final
    /\ get_position transform timestamp_unix2sow timestamp gps_week true p
       = (Ok (Some (new_SbetRow transform final
                      (timestamp_unix2sow (timestamp / 1000000000) gps_week) 0)),
          mkParser (rows p) 0).
Proof.
  intros Hidx Hfirst Htime. unfold get_position, get_position_at. cbv zeta.
  rewrite Hidx. rewrite drop_0.
  destruct (rows p) as [|row0 l] eqn:Hrows; [discriminate|].
  injection Hfirst as ->. cbn [find_row].
  apply Rleb_true in Htime. rewrite Htime.
  change (Z.of_nat 0 - 1)%Z with (-1)%Z. rewrite py_index_last.
  destruct (last (first :: l)) as [final|] eqn:Hlast.
  - exists final. split; reflexivity.
  - rewrite last_None in Hlast. discriminate.
Qed.

End SbetParserFacts.

(** X10. [rotate_points] raises IndexError for an empty list. Otherwise it
    returns as many rows as it was given; the first row keeps its x and y
    (it is the centre of the rotation); every row keeps its altitude, time,
    age, index and heading, and gets latitude and longitude -1. *)
Theorem rotate_points_keeps (h : R) (c0 : SbetRow) (coords : list SbetRow) :
  rotate_points [] h = Raise IndexError
  /\ exists c0' coords',
       rotate_points (c0 :: coords) h = Ok (c0' :: coords')
       /\ row_x c0' = row_x c0 /\ row_y c0' = row_y c0
       /\ Forall2 (fun c c' =>
                     alt c' = alt c /\ sow c' = sow c /\ age c' = age c
                     /\ index c' = index c /\ heading c' = heading c
                     /\ lat c' = (-1)%R /\ lon c' = (-1)%R)
                  (c0 :: coords) (c0' :: coords').
Proof.
  split; [reflexivity|].
  unfold rotate_points. cbn [map]. eexists. eexists. split; [reflexivity|].
  cbn [row_x row_y rotate_z row_np vx vy]. split; [ring|]. split; [ring|].
  constructor; [repeat split|].
  induction coords as [|c coords IH]; cbn [map]; constructor; [repeat split|exact IH].
Qed.

(** X11. [rotate_points] is a rotation: any two of the returned positions are
    as far apart as the positions they come from. *)
Theorem rotate_points_preserves_distances
        (h : R) (coords coords' : list SbetRow) (i j : nat) (c_i c_j : SbetRow) :
  rotate_points coords h = Ok coords' ->
  coords !! i = Some c_i ->
  coords !! j = Some c_j ->
  exists c_i' c_j',
    coords' !! i = Some c_i' /\ coords' !! j = Some c_j'
    /\ dist (row_np c_i') (row_np c_j') = dist (row_np c_i) (row_np c_j).
Proof.
  unfold rotate_points. destruct coords as [|c0 rest] eqn:Hcoords; [discriminate|].
  rewrite <- Hcoords. intros [= <-] Hi Hj.
  rewrite !lookup_map, Hi, Hj. cbn [fmap option_fmap option_map].
  eexists. eexists. split; [reflexivity|]. split; [reflexivity|].
  unfold dist, vnorm, vsub, vdot, row_np, rotate_z.
  cbn [vx vy vz row_x row_y alt]. f_equal.
  set (dx := (row_x c_i - row_x c_j)%R). set (dy := (row_y c_i - row_y c_j)%R).
  set (dz := (alt c_i - alt c_j)%R).
  transitivity ((dx * dx + dy * dy) * (Rsqr (sin h) + Rsqr (cos h)) + dz * dz)%R.
  - unfold Rsqr. subst dx dy dz. ring.
  - rewrite sin2_cos2. ring.
Qed.

(** ** absoluteNavigator.py: the positions of the positioning source *)

Lemma iter_shift {A} (f : A -> A) (n : nat) (a : A) :
  Nat.iter n f (f a) = f (Nat.iter n f a).
Proof. induction n as [|n IH]; simpl; [reflexivity|]. rewrite IH. reflexivity. Qed.

(** X12. The loop of lines 90-92 works through the position objects: an
    object that occurs [n] times in the list is translated [n] times (by the
    offset and by [0, 0, 40] each time), an object that does not occur is not
    touched. *)
Theorem translate_actual_coordinates_per_occurrence
        (offset : vec3) (coords : list nat) (h : list SbetRow) (c : nat) (r : SbetRow) :
  h !! c = Some r ->
  translate_actual_coordinates offset coords h !! c
  = Some (Nat.iter (count_occ Nat.eq_dec coords c)
                   (fun r => translate (V3 0 0 40) (translate offset r)) r).
Proof.
  revert h r. induction coords as [|c0 coords IH]; intros h r Hr; [exact Hr|].
  change (translate_actual_coordinates offset (c0 :: coords) h)
    with (translate_actual_coordinates offset coords
            (translate_at (V3 0 0 40) c0 (translate_at offset c0 h))).
  cbn [count_occ]. destruct (Nat.eq_dec c0 c) as [->|Hne].
  - rewrite (IH _ (translate (V3 0 0 40) (translate offset r))).
    + exact (f_equal Some
               (iter_shift (fun r0 => translate (V3 0 0 40) (translate offset r0)) _ r)).
    + rewrite !translate_at_lookup, Hr. reflexivity.
  - apply IH. rewrite !translate_at_lookup_ne by exact Hne. exact Hr.
Qed.

(** ** absoluteNavigator.py: loading the reference cloud *)

Lemma Rmin_shift (a b o : R) : Rmin (a - o) (b - o) = (Rmin a b - o)%R.
Proof. unfold Rmin. destruct (Rle_dec a b), (Rle_dec (a - o) (b - o)); lra. Qed.

Lemma Rmax_shift (a b o : R) : Rmax (a - o) (b - o) = (Rmax a b - o)%R.
Proof. unfold Rmax. destruct (Rle_dec a b), (Rle_dec (a - o) (b - o)); lra. Qed.

Lemma fold_vmin_shift (o : vec3) (l : list vec3) :
  forall a, fold_left vmin (map (fun p => vsub p o) l) (vsub a o)
            = vsub (fold_left vmin l a) o.
Proof.
  induction l as [|p l IH]; intros a; simpl; [reflexivity|].
  rewrite <- IH. f_equal. unfold vmin, vsub. cbn [vx vy vz].
  rewrite !Rmin_shift. reflexivity.
Qed.

Lemma fold_vmax_shift (o : vec3) (l : list vec3) :
  forall a, fold_left vmax (map (fun p => vsub p o) l) (vsub a o)
            = vsub (fold_left vmax l a) o.
Proof.
  induction l as [|p l IH]; intros a; simpl; [reflexivity|].
  rewrite <- IH. f_equal. unfold vmax, vsub. cbn [vx vy vz].
  rewrite !Rmax_shift. reflexivity.
Qed.

Section LoadFacts.

Variable estimate_normals : PointCloud -> list vec3.

(** X13. Loading a raw point-cloud file centres it: the bounding box of the
    loaded cloud is symmetric about the origin (its minimum and maximum
    corners add up to zero), and adding the recorded offset to the loaded
    points gives back the points of the file, in order. *)
Theorem load_point_cloud_centres (path : string) (fs fs' : gmap string file)
        (ref : Reference) :
  endswith path ".cloud" = false ->
  load_point_cloud estimate_normals path fs = (Ok ref, fs') ->
  (exists lo hi,
     amin (points (full_cloud ref)) = Ok lo
     /\ amax (points (full_cloud ref)) = Ok hi
     /\ vadd lo hi = V3 0 0 0)
  /\ map (fun p => vadd p (full_point_cloud_offset ref)) (points (full_cloud ref))
     = points (read_point_cloud path fs).
Proof.
  intros Hraw. unfold load_point_cloud, load_raw. rewrite Hraw.
  destruct (points (read_point_cloud path fs)) as [|p0 pts] eqn:Hpts;
    [cbn; discriminate|].
  cbn [amin amax mbind result_bind]. intros [= <- _].
  cbn [full_cloud full_point_cloud_offset paint_uniform_color points].
  set (lo := fold_left vmin pts p0). set (hi := fold_left vmax pts p0).
  set (o := V3 _ _ _). split.
  - exists (vsub lo o), (vsub hi o). cbn [map amin amax].
    rewrite fold_vmin_shift, fold_vmax_shift. split; [reflexivity|]. split; [reflexivity|].
    unfold vadd, vsub, o. cbn [vx vy vz]. f_equal; field.
  - change (vsub p0 o :: map (fun p => vsub p o) pts)
      with (map (fun p => vsub p o) (p0 :: pts)).
    rewrite List.map_map. rewrite <- (List.map_id (p0 :: pts)) at 2.
    apply List.map_ext. intros [x y z]. unfold vadd, vsub. cbn [vx vy vz]. f_equal; ring.
Qed.

(** X14. A raw point-cloud file that is missing or holds no points makes
    [load_point_cloud] raise ValueError (from the minimum over no rows)
    before anything is written. *)
Theorem load_point_cloud_empty_raw (path : string) (fs : gmap string file) :
  endswith path ".cloud" = false ->
  points (read_point_cloud path fs) = [] ->
  load_point_cloud estimate_normals path fs = (Raise ValueError, fs).
Proof.
  intros Hraw Hempty. unfold load_point_cloud, load_raw. rewrite Hraw, Hempty.
  reflexivity.
Qed.

(** X15. A sidecar is read without writing anything, and the cloud file it
    names is not checked: if that file is missing, the load succeeds with a
    reference cloud of no points and the stored offset. *)
Theorem load_point_cloud_sidecar_missing_cloud
        (path cloud : string) (fs : gmap string file) (data : gmap string json)
        (ox oy oz : R) :
  endswith path ".cloud" = true ->
  fs !! path = Some (JsonFile data) ->
  data !! "offset" = Some (JFloats [ox; oy; oz]) ->
  data !! "cloud" = Some (JString cloud) ->
  fs !! cloud = None ->
  load_point_cloud estimate_normals path fs
  = (Ok (mkRef empty_cloud (V3 ox oy oz)), fs).
Proof.
  intros Hside Hfile Hoffset Hcloud Hmissing.
  unfold load_point_cloud, load_sidecar, json_load, json_get, read_point_cloud.
  rewrite Hside, Hfile. cbn [mbind result_bind].
  rewrite Hoffset. cbn [mbind result_bind]. rewrite Hcloud. cbn [mbind result_bind].
  rewrite Hmissing. reflexivity.
Qed.

(** X16. A sidecar that is missing makes [load_point_cloud] raise
    FileNotFoundError, and one without the key "offset" or the key "cloud"
    makes it raise KeyError; nothing is written in either case. *)
Theorem load_point_cloud_bad_sidecar (path : string) (fs : gmap string file) :
  endswith path ".cloud" = true ->
  fs !! path = None
  \/ (exists data, fs !! path = Some (JsonFile data)
                   /\ (data !! "offset" = None \/ data !! "cloud" = None)) ->
  load_point_cloud estimate_normals path fs
  = (Raise (match fs !! path with None => FileNotFoundError | Some _ => KeyError end), fs).
Proof.
  intros Hside Hbad.
  unfold load_point_cloud, load_sidecar, json_load, json_get. rewrite Hside.
  destruct Hbad as [Hnone|(data & Hfile & Hkey)].
  - rewrite Hnone. reflexivity.
  - rewrite Hfile. cbn [mbind result_bind].
    destruct Hkey as [Hkey|Hkey].
    + rewrite Hkey. reflexivity.
    + destruct (data !! "offset"); cbn [mbind result_bind]; [|reflexivity].
      rewrite Hkey. reflexivity.
Qed.

End LoadFacts.

(** ** Absolute mode: one frame and the whole run *)

Lemma omap_lookup_Forall2 (h extra : list SbetRow) (coords : list nat) :
  Forall (fun c => c < length h) coords ->
  Forall2 (fun c p => row_np <$> (h ++ extra) !! c = Some p)
          coords (omap (fun c => row_np <$> h !! c) coords).
Proof.
  induction 1 as [|c coords Hc _ IH]; [constructor|].
  cbn [omap list_omap]. destruct (lookup_lt_is_Some_2 h c Hc) as [r Hr].
  rewrite Hr. cbn. constructor; [|exact IH].
  rewrite lookup_app_l by exact Hc. rewrite Hr. reflexivity.
Qed.

Section AbsoluteRunFacts.

Variable rstate : Type.
Variable reader_next_frame : bool -> rstate -> result (option PointCloud) * rstate.
Variable get_coordinates : bool -> rstate -> list SbetRow -> list nat * list SbetRow.
Variable skip_initial_frames : rstate -> rstate.
Variable estimate_normals : PointCloud -> list vec3.
Variable voxel_down_sample : R -> PointCloud -> PointCloud.
Variable matcher_match : PointCloud -> PointCloud -> Z -> option mat4 -> RegistrationResult.
Variable timer_time : nat -> R.

(** Run a statement on a state whose attributes are spelled out. *)
Ltac run_statement H :=
  cbv [merge_frame navigate_setup setup_actual_coordinates
       mbind M_bind time get modify mret M_ret raise
       ensure_merged_frame_is_downsampled
       set_plot set_abs_movements set_movement_path set_timer_reads
       set_previous_transformation set_merged_frame set_merged_frame_is_dirty
       set_downsample_timer set_vis set_abs_reader set_heap
       set_actual_coordinates set_current_coordinate set_initial_coordinate
       set_actual_movement_path
       abs_reader reference abs_frame_limit abs_voxel_size
       remove_vehicle_arg preview_always sbet downsample_timer
       downsample_cloud_after_frames merged_frame_is_dirty abs_movements
       movement_path heap actual_coordinates current_coordinate
       initial_coordinate actual_movement_path vis merged_frame
       previous_transformation plot timer_reads
       ls_points ls_lines timeUsages rmses fitnesses distances] in H.

Ltac run_branches H :=
  run_statement H;
  repeat match type of H with
         | context [if ?c then _ else _] => destruct c eqn:?; run_statement H
         end;
  try discriminate H.

Ltac spell_out st :=
  destruct st as [? ? ? ? ? ? ? ? ? ? ? [? ?] ? ? ? ? ? ? ? ? [? ? ? ?] ?].

(** X17. A frame that lines 217-297 merge is registered against the
    reference cloud, and its result is appended to what was recorded before:
    the translation column of the transformation to the trajectory and to
    the points of the drawn path, root-mean-square error and fitness to
    their series, the length of the movement to the distances, one reading
    to the time usages. Nothing recorded earlier is changed, and the
    transformation is kept as the previous one. *)
Theorem merge_frame_records (frame : PointCloud)
        (st st' : AbsoluteLidarNavigator rstate) (b : bool) :
  merge_frame rstate estimate_normals voxel_down_sample matcher_match timer_time
              (Some frame) st = (Ok b, st') ->
  let reg := matcher_match
               (mkCloud (points frame) (colors frame) (estimate_normals frame))
               (full_cloud (reference rstate st)) 10 None in
  let movement := translation_column (transformation reg) in
  b = true
  /\ abs_movements rstate st' = abs_movements rstate st ++ [movement]
  /\ ls_points (movement_path rstate st')
     = ls_points (movement_path rstate st) ++ [movement]
  /\ rmses (plot rstate st') = rmses (plot rstate st) ++ [inlier_rmse reg]
  /\ fitnesses (plot rstate st') = fitnesses (plot rstate st) ++ [fitness reg]
  /\ distances (plot rstate st') = distances (plot rstate st) ++ [vnorm movement]
  /\ length (timeUsages (plot rstate st')) = S (length (timeUsages (plot rstate st)))
  /\ previous_transformation rstate st' = Some (transformation reg).
Proof.
  spell_out st. intros H. run_branches H.
  all: injection H as <- <-; cbn.
  all: rewrite length_app, Nat.add_comm; repeat split; reflexivity.
Qed.

(** X18. The periodic compaction of lines 283-286. The merged frame is
    fused into the model and the countdown is lowered by one; when the
    countdown has run out, the model is replaced by its voxel down-sampling
    at the configured size, the flag is cleared and the countdown starts
    again from [downsample_cloud_after_frames]; otherwise the model is the
    fused cloud as it is and it is marked dirty. *)
Theorem merge_frame_compacts_periodically (frame : PointCloud)
        (st st' : AbsoluteLidarNavigator rstate) (b : bool) :
  merge_frame rstate estimate_normals voxel_down_sample matcher_match timer_time
              (Some frame) st = (Ok b, st') ->
  let frame' := mkCloud (points frame) (colors frame) (estimate_normals frame) in
  let reg := matcher_match frame' (full_cloud (reference rstate st)) 10 None in
  let fused := cloud_add (merged_frame rstate st)
                         (transform_cloud (transformation reg) frame') in
  if (downsample_timer rstate st - 1 <=? 0)%Z
  then merged_frame rstate st' = voxel_down_sample (abs_voxel_size rstate st) fused
       /\ merged_frame_is_dirty rstate st' = false
       /\ downsample_timer rstate st' = downsample_cloud_after_frames rstate st
  else merged_frame rstate st' = fused
       /\ merged_frame_is_dirty rstate st' = true
       /\ downsample_timer rstate st' = (downsample_timer rstate st - 1)%Z.
Proof.
  spell_out st. intros H. run_branches H.
  all: injection H as <- <-; cbn.
  all: match goal with Hc : (_ - 1 <=? 0)%Z = _ |- _ => rewrite Hc end.
  all: repeat split; reflexivity.
Qed.

(** X19. Lines 217-297 keep the records of the run in step: if the drawn
    path has the trajectory as its points and one line between each two
    consecutive positions, and every metric series has one entry per
    position, then the same holds after the next frame, merged or not. *)
Theorem merge_frame_keeps_series_in_step (frame : option PointCloud)
        (st st' : AbsoluteLidarNavigator rstate) (b : bool) :
  series_in_step st ->
  merge_frame rstate estimate_normals voxel_down_sample matcher_match timer_time
              frame st = (Ok b, st') ->
  series_in_step st'.
Proof.
  destruct frame as [frame|]; [|intros Hinv H; injection H as <- <-; exact Hinv].
  unfold series_in_step. spell_out st. cbn.
  intros (Hp & Hl & Ht & Hr & Hf & Hd) H. subst.
  run_branches H.
  all: injection H as <- <-; cbn.
  all: rewrite !length_app, Ht, Hr, Hf, Hd; cbn [length].
  all: match goal with
       | Hc : (2 <=? _)%Z = _ |- _ =>
           rewrite length_app in Hc; cbn [length] in Hc;
             first [apply Z.leb_le in Hc | apply Z.leb_gt in Hc]
       end.
  all: match goal with |- context [length ?l] => destruct l as [|m0 ms] end.
  all: cbn [length] in *; try lia.
  all: repeat split; try reflexivity.
  all: try (replace (S (length ms) + 1 - 1) with (S (length ms)) by lia;
            replace (S (length ms) - 1) with (length ms) by lia;
            rewrite seq_S, List.map_app; cbn [List.map Nat.add];
            do 3 f_equal; lia).
Qed.

(** The step of the run never returns: the reader raises, or the debugging
    block of lines 209-215 does. *)
Lemma merge_next_frame_never_returns (st : AbsoluteLidarNavigator rstate) :
  exists e st',
    merge_next_frame rstate reader_next_frame estimate_normals voxel_down_sample
                     matcher_match timer_time st = (Raise e, st').
Proof.
  unfold merge_next_frame, fetch_frame, debugging_visualization, mbind, M_bind.
  destruct (reader_next_frame _ _) as [[o|e] rd]; [|eauto].
  cbn. destruct (actual_movement_path rstate st); eauto.
Qed.

Lemma for_range_raising (body : M rstate unit) (n : nat)
      (st st' : AbsoluteLidarNavigator rstate) :
  (forall st0, exists e st1, body st0 = (Raise e, st1)) ->
  for_range rstate n body st = (Ok tt, st') -> n = 0 /\ st' = st.
Proof.
  intros Hbody. destruct n as [|n]; cbn.
  - intros H. injection H as <-. split; reflexivity.
  - unfold mbind, M_bind. destruct (Hbody st) as (e & st1 & ->). discriminate.
Qed.

(** What [navigate_setup] leaves behind when it returns. *)
Lemma navigate_setup_returns (st st1 : AbsoluteLidarNavigator rstate) :
  navigate_setup rstate get_coordinates skip_initial_frames st = (Ok tt, st1) ->
  abs_frame_limit rstate st1 = abs_frame_limit rstate st
  /\ abs_voxel_size rstate st1 = abs_voxel_size rstate st
  /\ merged_frame_is_dirty rstate st1 = merged_frame_is_dirty rstate st
  /\ abs_movements rstate st1 = []
  /\ movement_path rstate st1 = empty_lineset
  /\ merged_frame rstate st1 = empty_cloud
  /\ plot rstate st1 = empty_plot
  /\ vis rstate st1 = false.
Proof.
  spell_out st. intros H. run_statement H.
  match type of H with context [if ?c then _ else _] => destruct c end.
  - destruct (get_coordinates _ _ _) as [coords h]. run_statement H.
    destruct coords as [|c0 coords]; [discriminate H|].
    match type of H with context [match ?o with Some _ => _ | None => _ end] =>
      destruct o end; [|discriminate H].
    run_statement H. injection H as <-. cbn. repeat split.
  - injection H as <-. cbn. repeat split.
Qed.

(** X20. A run of [navigate_through_file] that gets as far as the summary
    has looked at no frame: the frame limit was not positive, and the
    trajectory, the drawn path, the metric series and the model are as empty
    as the set-up left them (the model down-sampled if it was marked dirty
    before the run). With a positive frame limit the run ends in an
    exception. *)
Theorem navigate_through_file_returns_only_without_frames
        (st st' : AbsoluteLidarNavigator rstate) :
  navigate_through_file rstate reader_next_frame get_coordinates skip_initial_frames
                        estimate_normals voxel_down_sample matcher_match timer_time st
  = (Ok tt, st') ->
  (abs_frame_limit rstate st <= 0)%Z
  /\ abs_movements rstate st' = []
  /\ movement_path rstate st' = empty_lineset
  /\ plot rstate st' = empty_plot
  /\ merged_frame rstate st'
     = (if merged_frame_is_dirty rstate st
        then voxel_down_sample (abs_voxel_size rstate st) empty_cloud
        else empty_cloud).
Proof.
  unfold navigate_through_file, navigate_with. unfold mbind at 1, M_bind at 1.
  destruct (navigate_setup _ _ _ st) as [[[]|e] st1] eqn:Hsetup; [|discriminate].
  apply navigate_setup_returns in Hsetup.
  destruct Hsetup as (Hlimit & Hsize & Hdirty & Hmov & Hpath & Hmerged & Hplot & _).
  unfold mbind at 1, M_bind at 1, get at 1.
  unfold mbind at 1, M_bind at 1.
  destruct (for_range _ _ _ st1) as [[[]|e] st2] eqn:Hloop; [|discriminate].
  apply for_range_raising in Hloop.
  2:{ intros st0. unfold loop_body, mbind, M_bind.
      destruct (merge_next_frame_never_returns st0) as (e & st3 & ->). eauto. }
  destruct Hloop as [Hn ->]. rewrite Hlimit in Hn.
  unfold ensure_merged_frame_is_downsampled, mbind, M_bind, get.
  rewrite Hdirty, Hsize, Hmerged.
  destruct (merged_frame_is_dirty rstate st); cbn; intros H; injection H as <-; cbn.
  all: repeat split; try assumption; lia.
Qed.

(** X21. With a positioning source that lists no position for the frames,
    the run ends in an IndexError at line 94, before any frame is read. *)
Theorem navigate_through_file_without_positions
        (st : AbsoluteLidarNavigator rstate) (h : list SbetRow) :
  sbet rstate st = true ->
  get_coordinates false (skip_initial_frames (abs_reader rstate st)) (heap rstate st)
  = ([], h) ->
  navigate_through_file rstate reader_next_frame get_coordinates skip_initial_frames
                        estimate_normals voxel_down_sample matcher_match timer_time st
  = (Raise IndexError,
     set_heap rstate h
       (set_actual_coordinates rstate (Some [])
          (set_movement_path rstate empty_lineset
             (set_abs_movements rstate []
                (set_abs_reader rstate (skip_initial_frames (abs_reader rstate st)) st))))).
Proof.
  spell_out st. cbn. intros -> Hget.
  unfold navigate_through_file, navigate_with.
  cbv [navigate_setup setup_actual_coordinates
       mbind M_bind get modify mret M_ret raise
       set_abs_reader set_abs_movements set_movement_path
       abs_reader reference sbet heap].
  rewrite Hget. reflexivity.
Qed.

(** X22. With a positioning source, lines 94-101 leave the current and the
    initial coordinate as two new objects, distinct from each other and from
    every listed position, each holding what the first listed position holds
    after its translation; the comparison path has the listed positions, as
    translated, for its points and one line between each two consecutive
    ones. *)
Theorem setup_actual_coordinates_clones
        (st : AbsoluteLidarNavigator rstate) (c0 : nat) (coords : list nat)
        (h : list SbetRow) :
  sbet rstate st = true ->
  get_coordinates false (abs_reader rstate st) (heap rstate st) = (c0 :: coords, h) ->
  Forall (fun c => c < length h) (c0 :: coords) ->
  exists st' cur ini ls,
    setup_actual_coordinates rstate get_coordinates st = (Ok tt, st')
    /\ current_coordinate rstate st' = Some cur
    /\ initial_coordinate rstate st' = Some ini
    /\ cur <> ini
    /\ ~ In cur (c0 :: coords) /\ ~ In ini (c0 :: coords)
    /\ heap rstate st' !! cur = heap rstate st' !! c0
    /\ heap rstate st' !! ini = heap rstate st' !! c0
    /\ actual_movement_path rstate st' = Some ls
    /\ Forall2 (fun c p => row_np <$> heap rstate st' !! c = Some p)
               (c0 :: coords) (ls_points ls)
    /\ ls_lines ls = consecutive_lines (length (c0 :: coords)).
Proof.
  destruct st as [rd ref lim vs rv pa sb dt dc dirty movs path hp ac cc ic amp v mf
                  pt pl tr].
  cbn [sbet abs_reader heap]. intros -> Hget Hall.
  pose (h' := translate_actual_coordinates
                (full_point_cloud_offset ref) (c0 :: coords) h).
  assert (Hlen : length h' = length h)
    by apply translate_actual_coordinates_length.
  assert (Hall' : Forall (fun c => c < length h') (c0 :: coords))
    by (rewrite Hlen; exact Hall).
  assert (Hc0 : c0 < length h') by (inversion Hall'; assumption).
  destruct (lookup_lt_is_Some_2 h' c0 Hc0) as [r0 Hr0].
  exists (set_actual_movement_path rstate
            (Some (mkLineSet (omap (fun c => row_np <$> h' !! c) (c0 :: coords))
                             (consecutive_lines (length (c0 :: coords)))))
         (set_initial_coordinate rstate (Some (S (length h')))
         (set_current_coordinate rstate (Some (length h'))
         (set_heap rstate (h' ++ [r0; r0])
         (set_actual_coordinates rstate (Some (c0 :: coords))
            (mkAbs rstate rd ref lim vs rv pa true dt dc dirty movs path hp ac cc ic
                   amp v mf pt pl tr)))))),
    (length h'), (S (length h')),
    (mkLineSet (omap (fun c => row_np <$> h' !! c) (c0 :: coords))
               (consecutive_lines (length (c0 :: coords)))).
  split.
  { cbv [setup_actual_coordinates mbind M_bind get modify mret M_ret raise
         abs_reader reference sbet heap].
    rewrite Hget.
    cbv [set_actual_coordinates set_heap
         abs_reader reference abs_frame_limit abs_voxel_size
         remove_vehicle_arg preview_always sbet downsample_timer
         downsample_cloud_after_frames merged_frame_is_dirty abs_movements
         movement_path heap actual_coordinates current_coordinate
         initial_coordinate actual_movement_path vis merged_frame
         previous_transformation plot timer_reads].
    fold h'. rewrite Hr0. reflexivity. }
  clearbody h'.
  cbn [set_actual_movement_path set_initial_coordinate set_current_coordinate
       set_heap set_actual_coordinates
       abs_reader reference abs_frame_limit abs_voxel_size
       remove_vehicle_arg preview_always sbet downsample_timer
       downsample_cloud_after_frames merged_frame_is_dirty abs_movements
       movement_path heap actual_coordinates current_coordinate
       initial_coordinate actual_movement_path vis merged_frame
       previous_transformation plot timer_reads].
  split; [reflexivity|]. split; [reflexivity|]. split; [lia|].
  assert (Hfresh : forall n, length h' <= n -> ~ In n (c0 :: coords)).
  { intros n Hn Hin. rewrite List.Forall_forall in Hall'.
    specialize (Hall' n Hin). cbn in Hall'. lia. }
  split; [apply Hfresh; lia|]. split; [apply Hfresh; lia|].
  rewrite (lookup_app_l h' _ c0) by exact Hc0. rewrite Hr0.
  split; [rewrite lookup_app_r by lia; rewrite Nat.sub_diag; reflexivity|].
  split; [rewrite lookup_app_r by lia;
          replace (S (length h') - length h') with 1 by lia; reflexivity|].
  split; [reflexivity|]. split; [|reflexivity].
  cbn [ls_points]. apply omap_lookup_Forall2, Hall'.
Qed.

(** X29. The last turn of the loop with the step of lines 217-297, followed
    by the call of line 154. After a frame has been merged, the model that
    [ensure_merged_frame_is_downsampled] leaves for the hand-over is the
    voxel down-sampling, at the configured voxel size, of the model with
    that frame fused in: by the periodic compaction of that turn when it
    fired (line 154 then changes nothing, the model is not down-sampled a
    second time), and by line 154 when it did not. The flag is cleared and
    the trajectory is the one the turn recorded. *)
Theorem last_fusion_is_compacted_once (frame : PointCloud)
        (st st1 st2 : AbsoluteLidarNavigator rstate) :
  loop_body rstate timer_time
    (merge_frame rstate estimate_normals voxel_down_sample matcher_match timer_time
                 (Some frame)) st = (Ok tt, st1) ->
  ensure_merged_frame_is_downsampled rstate voxel_down_sample st1 = (Ok tt, st2) ->
  let frame' := mkCloud (points frame) (colors frame) (estimate_normals frame) in
  let reg := matcher_match frame' (full_cloud (reference rstate st)) 10 None in
  merged_frame rstate st2
  = voxel_down_sample (abs_voxel_size rstate st)
      (cloud_add (merged_frame rstate st) (transform_cloud (transformation reg) frame'))
  /\ merged_frame_is_dirty rstate st2 = false
  /\ abs_movements rstate st2
     = abs_movements rstate st ++ [translation_column (transformation reg)].
Proof.
  spell_out st. intros Hturn Hensure. unfold loop_body in Hturn.
  run_branches Hturn.
  all: injection Hturn as <-; run_branches Hensure; injection Hensure as <-.
  all: cbn; repeat split; reflexivity.
Qed.

End AbsoluteRunFacts.

(** ** Relative mode: the records of a whole run *)

Lemma consecutive_lines_S (n : nat) :
  consecutive_lines (S n)
  = consecutive_lines n
    ++ (if (2 <=? Z.of_nat (S n))%Z
        then [(Z.of_nat (S n) - 2, Z.of_nat (S n) - 1)%Z] else []).
Proof.
  unfold consecutive_lines. destruct n as [|n].
  - reflexivity.
  - replace (S (S n) - 1) with (S n) by lia. replace (S n - 1) with n by lia.
    rewrite seq_S, List.map_app. cbn [List.map Nat.add].
    destruct (Z.leb_spec 2 (Z.of_nat (S (S n)))); [|lia].
    do 3 f_equal; lia.
Qed.

Lemma vnorm_vadd_vsub (a m : vec3) : dist (vadd a m) m = vnorm a.
Proof.
  unfold dist. f_equal. destruct a, m. unfold vsub, vadd. cbn. f_equal; ring.
Qed.

Lemma distances_are_spacing_step (ms : list vec3) (ds : list R) (m : vec3) :
  distances_are_spacing ms ds ->
  distances_are_spacing (map (fun a => vadd a m) ms ++ [m]) (ds ++ [vnorm m]).
Proof.
  intros (Hlen & Hpairs & Hlast). unfold distances_are_spacing.
  split; [rewrite !length_app, length_map, Hlen; reflexivity|]. split.
  - intros i a b Ha Hb.
    assert (Hi : S i < length (map (fun a => vadd a m) ms ++ [m]))
      by (eapply lookup_lt_Some, Hb).
    rewrite length_app, length_map in Hi. cbn [length] in Hi.
    assert (Hi' : i < length ms) by lia.
    rewrite lookup_app_l in Ha by (rewrite length_map; exact Hi').
    rewrite lookup_map in Ha.
    destruct (ms !! i) as [a0|] eqn:Ha0; [|discriminate]. injection Ha as <-.
    rewrite lookup_app_l by lia.
    destruct (Nat.eq_dec (S i) (length ms)) as [Hend|Hmid].
    + (* the pair of the last earlier position and the new one *)
      rewrite lookup_app_r in Hb by (rewrite length_map; lia).
      rewrite length_map, Hend, Nat.sub_diag in Hb. injection Hb as <-.
      rewrite vnorm_vadd_vsub.
      assert (Hl : last ms = Some a0).
      { rewrite last_lookup. replace (Nat.pred (length ms)) with i by lia. exact Ha0. }
      specialize (Hlast a0 Hl). rewrite last_lookup in Hlast.
      rewrite Hlen in Hlast. replace (Nat.pred (length ms)) with i in Hlast by lia.
      exact Hlast.
    + rewrite lookup_app_l in Hb by (rewrite length_map; lia).
      rewrite lookup_map in Hb.
      destruct (ms !! S i) as [b0|] eqn:Hb0; [|discriminate]. injection Hb as <-.
      rewrite dist_vadd. apply Hpairs; assumption.
  - intros a Ha. rewrite last_snoc in Ha. injection Ha as <-.
    rewrite last_snoc. reflexivity.
Qed.

Section RelativeRunFacts.

Variable reader_state : Type.
Variable readFrame : Z -> bool -> reader_state -> PointCloud * reader_state.
Variable nextFrame : bool -> reader_state -> option PointCloud * reader_state.
Variable preparedClouds_len : reader_state -> Z.
Variable estimate_normals : PointCloud -> list vec3.
Variable voxel_down_sample : R -> PointCloud -> PointCloud.
Variable matcher_match : PointCloud -> PointCloud -> RegistrationResult.
Variable perf_counter : nat -> R.

(** What one call of [mergeNextFrame] does to the records. *)
Lemma mergeNextFrame_effect (nav nav' : LidarNavigator reader_state)
      (plot plot' : Plotter) (b : bool) :
  mergeNextFrame reader_state nextFrame estimate_normals voxel_down_sample
                 matcher_match perf_counter nav plot = (b, nav', plot') ->
  (b = false
   /\ movements reader_state nav' = movements reader_state nav
   /\ movementPath reader_state nav' = movementPath reader_state nav
   /\ plot' = plot)
  \/ (b = true
      /\ exists (m : vec3) (T : mat4) (t rmse fit : R),
          movements reader_state nav'
          = map (fun a => vadd a m) (movements reader_state nav) ++ [m]
          /\ plot' = mkPlot (timeUsages plot ++ [t]) (rmses plot ++ [rmse])
                            (fitnesses plot ++ [fit]) (distances plot ++ [vnorm m])
          /\ ls_points (movementPath reader_state nav')
             = map (transform_point T)
                   (ls_points (movementPath reader_state nav) ++ [V3 0 0 0])
          /\ ls_lines (movementPath reader_state nav')
             = ls_lines (movementPath reader_state nav)
               ++ (if (2 <=? Z.of_nat (S (length (movements reader_state nav))))%Z
                   then [(Z.of_nat (S (length (movements reader_state nav))) - 2,
                          Z.of_nat (S (length (movements reader_state nav))) - 1)%Z]
                   else [])).
Proof.
  unfold mergeNextFrame.
  destruct (nextFrame true (reader reader_state nav)) as [[frame|] rd].
  - cbn [alignFrame]. intros [= <- <- <-]. right. split; [reflexivity|].
    eexists _, _, _, _, _. split; [reflexivity|]. split; [reflexivity|].
    cbn [movementPath]. rewrite length_app, length_map. cbn [length].
    replace (length (movements reader_state nav) + 1) with
      (S (length (movements reader_state nav))) by lia.
    destruct (2 <=? _)%Z; cbn [ls_points ls_lines transform_lineset];
      rewrite ?app_nil_r; split; reflexivity.
  - intros [= <- <- <-]. left. repeat split.
Qed.

Lemma mergeNextFrame_records_in_step (nav nav' : LidarNavigator reader_state)
      (plot plot' : Plotter) (b : bool) :
  mergeNextFrame reader_state nextFrame estimate_normals voxel_down_sample
                 matcher_match perf_counter nav plot = (b, nav', plot') ->
  records_in_step nav plot /\ distances_are_spacing (movements reader_state nav) (distances plot) ->
  records_in_step nav' plot'
  /\ distances_are_spacing (movements reader_state nav') (distances plot').
Proof.
  intros Hm [(Ht & Hr & Hf & Hd & Hp & Hl) Hsp].
  destruct (mergeNextFrame_effect _ _ _ _ _ Hm)
    as [(_ & Hmov & Hpath & ->)|(_ & m & T & t & rmse & fit & Hmov & -> & Hpts & Hlines)].
  - unfold records_in_step. rewrite Hmov, Hpath.
    split; [repeat split; assumption|exact Hsp].
  - split.
    + unfold records_in_step. rewrite Hmov, Hpts, Hlines. cbn [timeUsages rmses fitnesses distances].
      rewrite length_map, !length_app, length_map. cbn [length].
      rewrite Ht, Hr, Hf, Hd, Hp, Hl.
      replace (length (movements reader_state nav) + 1) with
        (S (length (movements reader_state nav))) by lia.
      repeat split. symmetry. apply consecutive_lines_S.
    + rewrite Hmov. cbn [distances]. apply distances_are_spacing_step, Hsp.
Qed.

Lemma navigate_loop_records_in_step (fuel : nat) :
  forall (nav nav' : LidarNavigator reader_state) (plot plot' : Plotter),
    navigate_loop reader_state nextFrame preparedClouds_len estimate_normals
                  voxel_down_sample matcher_match perf_counter fuel nav plot
    = Some (nav', plot') ->
    records_in_step nav plot /\ distances_are_spacing (movements reader_state nav) (distances plot) ->
    records_in_step nav' plot'
    /\ distances_are_spacing (movements reader_state nav') (distances plot').
Proof.
  induction fuel as [|fuel IH]; intros nav nav' plot plot' Hloop Hinv; [discriminate|].
  simpl in Hloop.
  destruct (mergeNextFrame _ _ _ _ _ _ nav plot) as [[b nav1] plot1] eqn:Hm.
  pose proof (mergeNextFrame_records_in_step _ _ _ _ _ Hm Hinv) as Hinv1.
  destruct b.
  - destruct (_ && _).
    + injection Hloop as <- <-. exact Hinv1.
    + eapply IH; eassumption.
  - injection Hloop as <- <-. exact Hinv1.
Qed.

Lemma navigateThroughFile_invariants (fuel : nat)
      (nav nav' : LidarNavigator reader_state) (plot' : Plotter) :
  navigateThroughFile reader_state readFrame nextFrame preparedClouds_len
                      estimate_normals voxel_down_sample matcher_match perf_counter
                      fuel nav = Some (nav', plot') ->
  records_in_step nav' plot'
  /\ distances_are_spacing (movements reader_state nav') (distances plot').
Proof.
  unfold navigateThroughFile.
  destruct (readFrame 0%Z true (reader reader_state nav)) as [merged rd0].
  destruct (readFrame 0%Z true rd0) as [previous rd1].
  intros Hloop. eapply navigate_loop_records_in_step; [exact Hloop|].
  split.
  - repeat split.
  - split; [reflexivity|]. split; [intros i a b Ha; discriminate|intros a Ha; discriminate].
Qed.

(** X23. However the loop of [navigateThroughFile] ends (end of stream or
    frame limit), the records it hands to the summary, the plot and the
    writers are in step: every metric series has one entry per recorded
    position, the drawn path one point per position, and its lines join
    each two consecutive points, [i] with [i + 1], and no others. *)
Theorem navigateThroughFile_records_in_step (fuel : nat)
        (nav nav' : LidarNavigator reader_state) (plot' : Plotter) :
  navigateThroughFile reader_state readFrame nextFrame preparedClouds_len
                      estimate_normals voxel_down_sample matcher_match perf_counter
                      fuel nav = Some (nav', plot') ->
  records_in_step nav' plot'.
Proof. intros Hrun. eapply navigateThroughFile_invariants, Hrun. Qed.

(** X24. After a run the recorded distances are the spacing of the recorded
    trajectory: the distance from position [i] to position [i + 1] is entry
    [i] of the distances, and the distance of the last position from the
    origin is their last entry. *)
Theorem navigateThroughFile_distances_are_spacing (fuel : nat)
        (nav nav' : LidarNavigator reader_state) (plot' : Plotter) :
  navigateThroughFile reader_state readFrame nextFrame preparedClouds_len
                      estimate_normals voxel_down_sample matcher_match perf_counter
                      fuel nav = Some (nav', plot') ->
  distances_are_spacing (movements reader_state nav') (distances plot').
Proof. intros Hrun. eapply navigateThroughFile_invariants, Hrun. Qed.

End RelativeRunFacts.

(** ** Relative mode: the writer *)

Lemma np_floor_bounds (x : R) : (np_floor x <= x < np_floor x + 1)%R.
Proof.
  unfold np_floor, Int_part. destruct (archimed x) as [Hup Hlow].
  rewrite minus_IZR. lra.
Qed.

Lemma fold_left_Rmin_le (l : list R) :
  forall x, (fold_left Rmin l x <= x)%R
            /\ Forall (fun y => (fold_left Rmin l x <= y)%R) l
            /\ In (fold_left Rmin l x) (x :: l).
Proof.
  induction l as [|y l IH]; intros x; cbn [fold_left].
  - split; [lra|]. split; [constructor|]. left. reflexivity.
  - destruct (IH (Rmin x y)) as (Hle & Hall & Hin).
    pose proof (Rmin_l x y). pose proof (Rmin_r x y).
    split; [lra|]. split.
    + constructor; [lra|exact Hall].
    + destruct Hin as [Hin|Hin]; [|right; right; exact Hin].
      rewrite <- Hin. unfold Rmin. destruct (Rle_dec x y); [left|right; left]; reflexivity.
Qed.

Lemma np_min_spec (column : list R) (m : R) :
  np_min column = Ok m -> Forall (fun y => (m <= y)%R) column /\ In m column.
Proof.
  destruct column as [|x l]; [discriminate|]. cbn [np_min]. intros [= <-].
  destruct (fold_left_Rmin_le l x) as (Hle & Hall & Hin).
  split; [constructor; assumption|exact Hin].
Qed.

(** X25. The header that [save_cloud] declares on lines 108-117. For a
    cloud with points the scale is 0.001 on each axis and the offset is a
    vector of whole numbers that lies at or below every point on each axis,
    and less than 1 below at least one point of the cloud on that axis; so
    no point has a negative distance from the offset. For a cloud without
    points [np.min] raises ValueError before a header is set. *)
Theorem save_cloud_header_offset_below_points (cloud : PointCloud) :
  match save_cloud_header cloud with
  | Ok header =>
      points cloud <> []
      /\ las_scale header = V3 0.001 0.001 0.001
      /\ (exists i j k, las_offset header = V3 (IZR i) (IZR j) (IZR k))
      /\ Forall (fun p => (vx (las_offset header) <= vx p)%R
                          /\ (vy (las_offset header) <= vy p)%R
                          /\ (vz (las_offset header) <= vz p)%R) (points cloud)
      /\ (exists p, In p (points cloud) /\ (vx p < vx (las_offset header) + 1)%R)
      /\ (exists p, In p (points cloud) /\ (vy p < vy (las_offset header) + 1)%R)
      /\ (exists p, In p (points cloud) /\ (vz p < vz (las_offset header) + 1)%R)
  | Raise e => e = ValueError /\ points cloud = []
  end.
Proof.
  unfold save_cloud_header.
  destruct (points cloud) as [|p0 pts] eqn:Hpts; [split; reflexivity|].
  rewrite <- Hpts.
  destruct (np_min (map vx (points cloud))) as [xmin|e] eqn:Hx;
    [|rewrite Hpts in Hx; discriminate].
  destruct (np_min (map vy (points cloud))) as [ymin|e] eqn:Hy;
    [|rewrite Hpts in Hy; discriminate].
  destruct (np_min (map vz (points cloud))) as [zmin|e] eqn:Hz;
    [|rewrite Hpts in Hz; discriminate].
  cbn [mbind result_bind las_scale las_offset vx vy vz].
  destruct (np_min_spec _ _ Hx) as [Hxall Hxin].
  destruct (np_min_spec _ _ Hy) as [Hyall Hyin].
  destruct (np_min_spec _ _ Hz) as [Hzall Hzin].
  pose proof (np_floor_bounds xmin). pose proof (np_floor_bounds ymin).
  pose proof (np_floor_bounds zmin).
  rewrite List.Forall_forall in Hxall, Hyall, Hzall.
  split; [rewrite Hpts; discriminate|]. split; [reflexivity|].
  split; [unfold np_floor; eauto|]. split; [|split; [|split]].
  - apply List.Forall_forall. intros p Hp.
    specialize (Hxall (vx p) (List.in_map vx _ _ Hp)).
    specialize (Hyall (vy p) (List.in_map vy _ _ Hp)).
    specialize (Hzall (vz p) (List.in_map vz _ _ Hp)).
    cbn beta in *. lra.
  - apply List.in_map_iff in Hxin. destruct Hxin as (p & Hp & Hin).
    exists p. split; [exact Hin|lra].
  - apply List.in_map_iff in Hyin. destruct Hyin as (p & Hp & Hin).
    exists p. split; [exact Hin|lra].
  - apply List.in_map_iff in Hzin. destruct Hzin as (p & Hp & Hin).
    exists p. split; [exact Hin|lra].
Qed.

(** ** The serial reader: [skip_and_get] *)

Section SerialSkipAndGetFacts.

Context {scan : Type}.
Variable xyzLut : scan -> list vec3.
Variable colorize_key : scan -> list vec3.

Lemma serial_next_frame_past_end (rv : bool) (s : SerialPcapReader (scan := scan)) :
  length (readers s) <= current_reader_index s ->
  serial_next_frame xyzLut colorize_key rv s = (Ok None, s).
Proof.
  intros Hend. funelim (serial_next_frame xyzLut colorize_key rv s);
    try reflexivity.
  all: match goal with
       | Hr : readers _ !! _ = Some _ |- _ =>
           pose proof (lookup_lt_Some _ _ _ Hr); lia
       end.
Qed.

(** X27. [skip_and_get] of the serial reader hands the caller's iterator to
    the current reader only: a scan it returns is the one at position
    [skip_frames] of the iterator, taken with the current reader's
    [skip_frames], and the reader index stays. When the iterator runs out,
    the call walks past every remaining reader and leaves the index at the
    end, so that [next_frame] delivers nothing afterwards, whatever the
    remaining readers still hold. *)
Theorem serial_skip_and_get_gives_up (it it' : list scan)
        (s s' : SerialPcapReader (scan := scan)) (o : option scan) :
  serial_skip_and_get it s = (o, it', s') ->
  match o with
  | Some sc =>
      exists r, readers s !! current_reader_index s = Some r
        /\ it !! Z.to_nat (skip_frames r) = Some sc
        /\ it' = drop (S (Z.to_nat (skip_frames r))) it
        /\ current_reader_index s' = current_reader_index s
  | None =>
      length (readers s') <= current_reader_index s'
      /\ length (readers s') = length (readers s)
      /\ forall rv, serial_next_frame xyzLut colorize_key rv s' = (Ok None, s')
  end.
Proof.
  revert o it' s'.
  funelim (serial_skip_and_get it s); intros o it1 s1 Hres.
  - injection Hres as <- <- <-.
    match goal with Hn : readers _ !! _ = None |- _ =>
      pose proof (lookup_ge_None_1 _ _ Hn) as Hge end.
    split; [exact Hge|]. split; [reflexivity|].
    intros rv. apply serial_next_frame_past_end, Hge.
  - injection Hres as <- <- <-.
    match goal with
    | Hg : skip_and_get_n _ _ = _, Hr : readers _ !! _ = Some _ |- _ =>
        pose proof Hg as Hg'; rewrite skip_and_get_n_closed in Hg';
          injection Hg' as Hk Hrest; exists r; repeat split;
          [exact Hr|exact Hk|symmetry; exact Hrest]
    end.
  - match goal with
    | Hg : skip_and_get_n _ _ = _ |- _ =>
        pose proof Hg as Hg'; rewrite skip_and_get_n_closed in Hg';
          injection Hg' as Hk Hrest
    end.
    match goal with
    | IH : forall o it' s', _ = _ -> _ |- _ => specialize (IH _ _ _ Hres)
    end.
    destruct o as [sc|].
    + (* the iterator is at its end: no later reader finds a scan *)
      exfalso.
      match goal with
      | IH : exists r, _ |- _ => destruct IH as (r1 & _ & Hsc & _)
      end.
      subst. rewrite lookup_drop in Hsc.
      apply lookup_ge_None_1 in Hk. apply lookup_lt_Some in Hsc. lia.
    + match goal with
      | IH : _ /\ _ /\ _ |- _ => destruct IH as (Hend & Hlen & Hnext)
      end.
      split; [exact Hend|]. split; [|exact Hnext].
      rewrite Hlen. cbn. apply length_insert.
Qed.

End SerialSkipAndGetFacts.

(** ** The serial reader: [read_all_frames] *)

Section SerialReadAllFacts.

Context {scan : Type}.
Variable xyzLut : scan -> list vec3.
Variable colorize_key : scan -> list vec3.

(** One turn of the loop of [PcapReader.read_all_frames]. *)
Lemma read_all_loop_turn (rv : bool) (r : PcapReader scan) (acc : list PointCloud) :
  read_all_loop xyzLut colorize_key rv r acc
  = match next_frame xyzLut colorize_key rv r with
    | (Raise e, r') => (Raise e, r')
    | (Ok None, r') => (Ok acc, r')
    | (Ok (Some frame), r') => read_all_loop xyzLut colorize_key rv r' (acc ++ [frame])
    end.
Proof.
  funelim (read_all_loop xyzLut colorize_key rv r acc); try clear Heqcall;
    match goal with
    | Hn : next_frame _ _ _ _ = _ |- _ => rewrite Hn; reflexivity
    end.
Qed.

(** The frames collected before a turn are handed through. *)
Lemma read_all_loop_acc (rv : bool) (n : nat) :
  forall (r : PcapReader scan) (acc : list PointCloud),
    length (scans r) = n ->
    read_all_loop xyzLut colorize_key rv r acc
    = (match fst (read_all_loop xyzLut colorize_key rv r []) with
       | Ok frames => Ok (acc ++ frames)
       | Raise e => Raise e
       end,
       snd (read_all_loop xyzLut colorize_key rv r [])).
Proof.
  induction n as [n IH] using lt_wf_ind. intros r acc Hn.
  rewrite (read_all_loop_turn rv r acc), (read_all_loop_turn rv r []).
  destruct (next_frame xyzLut colorize_key rv r) as [[[frame|]|e] r'] eqn:Hnext.
  - destruct (next_frame_shortens xyzLut colorize_key rv r r' _ Hnext) as [_ Hlt].
    specialize (Hlt frame eq_refl).
    rewrite (IH _ ltac:(rewrite <- Hn; exact Hlt) r' (acc ++ [frame]) eq_refl).
    rewrite (IH _ ltac:(rewrite <- Hn; exact Hlt) r' ([] ++ [frame]) eq_refl).
    destruct (read_all_loop xyzLut colorize_key rv r' []) as [[frames|e] r'']; cbn.
    + rewrite <- app_assoc. reflexivity.
    + reflexivity.
  - cbn. rewrite app_nil_r. reflexivity.
  - reflexivity.
Qed.

Lemma length_concat_map {A B} (g : A -> list B) (l : list A) :
  length (concat (map g l)) = sum_list_with (fun a => length (g a)) l.
Proof.
  induction l as [|a l IH]; simpl; [reflexivity|].
  rewrite length_app, IH. reflexivity.
Qed.

Hypothesis lut_rows : forall sc, length (xyzLut sc) = length (colorize_key sc).

Lemma reader_frames_cons (rv : bool) (r r' : PcapReader scan) (frame : PointCloud) :
  next_frame xyzLut colorize_key rv r = (Ok (Some frame), r') ->
  reader_frames xyzLut colorize_key rv r
  = frame :: reader_frames xyzLut colorize_key rv r'.
Proof.
  intros Hnext. unfold reader_frames, read_all_frames.
  rewrite (read_all_loop_turn rv r []), Hnext.
  rewrite (read_all_loop_acc rv _ r' ([] ++ [frame]) eq_refl).
  destruct (read_all_loop_closed xyzLut colorize_key lut_rows rv r' [])
    as (more & r'' & -> & _).
  reflexivity.
Qed.

Lemma reader_frames_nil (rv : bool) (r r' : PcapReader scan) :
  next_frame xyzLut colorize_key rv r = (Ok None, r') ->
  reader_frames xyzLut colorize_key rv r = [].
Proof.
  intros Hnext. unfold reader_frames, read_all_frames.
  rewrite (read_all_loop_turn rv r []), Hnext. reflexivity.
Qed.

Lemma reader_frames_length (rv : bool) (r : PcapReader scan) :
  length (reader_frames xyzLut colorize_key rv r)
  = (length (scans r) / S (Z.to_nat (skip_frames r)))%nat.
Proof.
  unfold reader_frames, read_all_frames.
  destruct (read_all_loop_closed xyzLut colorize_key lut_rows rv r [])
    as (more & r' & -> & Hlen & _).
  exact Hlen.
Qed.

Lemma reader_frames_total_length (rv : bool) (md : option R)
      (l : list (PcapReader scan)) :
  sum_list_with (fun r => length (reader_frames xyzLut colorize_key rv
                                    (set_max_distance md r))) l
  = sum_list_with (fun r => (length (scans r) / S (Z.to_nat (skip_frames r)))%nat) l.
Proof.
  induction l as [|r l IH]; cbn [sum_list_with]; [reflexivity|].
  rewrite IH, reader_frames_length. reflexivity.
Qed.

(** The frames that the readers from the current one on deliver, one reader
    after the other, each with the maximum distance of the serial reader. *)
Local Abbreviation serial_frames rv s :=
  (concat (map (fun r => reader_frames xyzLut colorize_key rv
                           (set_max_distance (serial_max_distance s) r))
               (drop (current_reader_index s) (readers s)))).

(** One call of [next_frame] takes the first of these frames. *)
Lemma serial_next_frame_frames (rv : bool) (s : SerialPcapReader (scan := scan)) :
  forall (res : result (option PointCloud)) (s' : SerialPcapReader (scan := scan)),
    serial_next_frame xyzLut colorize_key rv s = (res, s') ->
    serial_max_distance s' = serial_max_distance s
    /\ match res with
       | Ok (Some frame) => serial_frames rv s = frame :: serial_frames rv s'
       | Ok None =>
           serial_frames rv s = []
           /\ length (readers s') <= current_reader_index s'
       | Raise _ => False
       end.
Proof.
  funelim (serial_next_frame xyzLut colorize_key rv s); intros res1 s1 Hres;
    try clear Heqcall.
  - (* past the last reader *)
    injection Hres as <- <-. split; [reflexivity|].
    match goal with Hn : readers _ !! _ = None |- _ =>
      pose proof (lookup_ge_None_1 _ _ Hn) as Hge end.
    split; [|exact Hge]. rewrite drop_ge by exact Hge. reflexivity.
  - (* the current reader delivers *)
    injection Hres as <- <-. split; [reflexivity|].
    match goal with
    | Hn : next_frame _ _ _ _ = _, Hr : readers _ !! _ = Some _ |- _ =>
        pose proof (next_frame_closed _ _ _ _ _ _ Hn) as [Hr' _];
          pose proof (reader_frames_cons _ _ _ _ Hn) as Hcons;
          pose proof (lookup_lt_Some _ _ _ Hr) as Hlt;
          rewrite (drop_S _ _ _ Hr)
    end.
    cbn [store_reader readers current_reader_index serial_max_distance].
    rewrite (drop_S (<[current_reader_index s := r']> (readers s)) r'
                    (current_reader_index s))
      by (apply list_lookup_insert_eq; exact Hlt).
    rewrite drop_insert_lt by lia.
    cbn [map concat]. rewrite Hcons. cbn [app]. do 2 f_equal.
    subst r'. reflexivity.
  - (* the current reader is drained: on to the next one *)
    match goal with
    | Hn : next_frame _ _ _ _ = _, Hr : readers _ !! _ = Some _ |- _ =>
        pose proof (reader_frames_nil _ _ _ Hn) as Hnil;
          pose proof (lookup_lt_Some _ _ _ Hr) as Hlt;
          rewrite (drop_S _ _ _ Hr)
    end.
    cbn [map concat]. rewrite Hnil. cbn [app].
    match goal with
    | IH : forall res s', _ = _ -> _ |- _ => destruct (IH _ _ Hres) as [Hmd IHres]
    end.
    cbn [_next_reader _set_metadata store_reader readers current_reader_index
         serial_max_distance] in Hmd, IHres.
    rewrite drop_insert_lt in IHres by lia.
    split; [exact Hmd|]. rewrite Hmd in IHres. rewrite Hmd. exact IHres.
  - (* a filter raised: excluded by the look-up table contract *)
    exfalso.
    destruct (next_frame_total xyzLut colorize_key lut_rows rv
                (set_max_distance (serial_max_distance s) r)) as (o & r0 & Ho).
    congruence.
Qed.

Lemma serial_read_all_loop_closed (rv : bool) (s : SerialPcapReader (scan := scan))
      (acc : list PointCloud) :
  exists s',
    serial_read_all_loop xyzLut colorize_key rv s acc = (Ok (acc ++ serial_frames rv s), s')
    /\ length (readers s') <= current_reader_index s'.
Proof.
  funelim (serial_read_all_loop xyzLut colorize_key rv s acc); try clear Heqcall;
    match goal with
    | Hn : serial_next_frame _ _ _ _ = _ |- _ =>
        pose proof (serial_next_frame_frames _ _ _ _ Hn) as [Hmd Hfr]
    end.
  - destruct H as (s'' & Hloop & Hend). exists s''. split; [|exact Hend].
    rewrite Hloop, Hfr, Hmd, <- app_assoc. reflexivity.
  - destruct Hfr as [Hnil Hend]. exists s'. split; [|exact Hend].
    rewrite Hnil, app_nil_r. reflexivity.
  - destruct Hfr.
Qed.

(** X28. [read_all_frames] of the serial reader returns, without raising,
    the frames of its files one file after the other: what the current
    reader still delivers, then what each later reader delivers when it is
    read to its end, each with the maximum distance of the serial reader;
    that is one frame for every [skip_frames + 1] scans of each of these
    readers, rounded down per reader. Afterwards the reader index is past
    the last reader. *)
Theorem serial_read_all_frames_concatenates (rv : bool)
        (s : SerialPcapReader (scan := scan)) :
  exists frames s',
    serial_read_all_frames xyzLut colorize_key rv s = (Ok frames, s')
    /\ frames
       = concat (map (fun r => reader_frames xyzLut colorize_key rv
                                 (set_max_distance (serial_max_distance s) r))
                     (drop (current_reader_index s) (readers s)))
    /\ length frames
       = sum_list_with
           (fun r => (length (scans r) / S (Z.to_nat (skip_frames r)))%nat)
           (drop (current_reader_index s) (readers s))
    /\ length (readers s') <= current_reader_index s'.
Proof.
  destruct (serial_read_all_loop_closed rv s []) as (s' & Hloop & Hend).
  exists (serial_frames rv s), s'.
  split; [exact Hloop|]. split; [reflexivity|]. split; [|exact Hend].
  rewrite length_concat_map. apply reader_frames_total_length.
Qed.

End SerialReadAllFacts.

(** * The further properties at concrete inputs *)

Lemma Rneqb_1_0 : Rneqb 1 0 = true.
Proof. unfold Rneqb. destruct (Req_dec_T 1 0); [lra|reflexivity]. Qed.

Lemma Rneqb_0_0 : Rneqb 0 0 = false.
Proof. unfold Rneqb. destruct (Req_dec_T 0 0); [reflexivity|lra]. Qed.

(** The toy reader delivers its one scan without the invalid point. *)
Lemma toy_next_frame :
  next_frame toy_xyzLut toy_colorize false toy_reader
  = (Ok (Some (mkCloud [V3 1 1 1] [V3 0 0 0] [])), set_scans [] toy_reader).
Proof.
  unfold next_frame, skip_and_get, filter_frame, remove_invalid, invalid_mask.
  cbn -[Rneqb]. change (Z.to_nat 0) with 0%nat. cbn -[Rneqb].
  rewrite Rneqb_1_0, Rneqb_0_0. reflexivity.
Qed.

Lemma read_all_frames_reads_all_witness :
  exists frames r',
    read_all_frames toy_xyzLut toy_colorize false toy_reader = (Ok frames, r')
    /\ length frames = (length (scans toy_reader) / S (Z.to_nat (skip_frames toy_reader)))%nat
    /\ scans r' = []
    /\ Forall (fun frame => length (colors frame) = length (points frame)) frames.
Proof.
  exact (read_all_frames_reads_all toy_xyzLut toy_colorize toy_lut_rows false toy_reader).
Defined.

Lemma next_frame_points_pass_filters_witness :
  (forall p, In p [V3 1 1 1] ->
     (vx p <> 0 /\ vy p <> 0 /\ vz p <> 0)%R
     /\ (forall meters, max_distance toy_reader = Some meters ->
           (sqrt (vx p ^ 2 + vy p ^ 2 + vz p ^ 2) <= meters)%R))
  /\ exists sc, In sc (scans toy_reader) /\ (1 <= length (toy_xyzLut sc))%nat.
Proof.
  exact (next_frame_points_pass_filters toy_xyzLut toy_colorize false toy_reader
           (set_scans [] toy_reader) (mkCloud [V3 1 1 1] [V3 0 0 0] []) toy_next_frame).
Defined.

Lemma Rleb_15_20 : Rleb 15 20 = true.
Proof. apply Rleb_true. lra. Qed.

(** A search for second 15 from the start finds row 1 and returns row 0. *)
Lemma toy_get_position :
  get_position toy_transform toy_unix2sow 0 15 false (mkParser toy_rows 0)
  = (Ok (Some (new_SbetRow toy_transform (toy_record 10) 15 1)), mkParser toy_rows 1).
Proof.
  unfold get_position, get_position_at, toy_unix2sow.
  cbn [current_index rows toy_rows drop find_row rec_time toy_record].
  rewrite Rleb_15_20. reflexivity.
Qed.

Lemma get_position_finds_first_witness :
  exists (i : nat) (row previous : SbetRecord),
    index (new_SbetRow toy_transform (toy_record 10) 15 1) = Z.of_nat i
    /\ current_index (mkParser toy_rows 1) = i
    /\ rows (mkParser toy_rows 1) = rows (mkParser toy_rows 0)
    /\ (1 <= i)%nat
    /\ toy_rows !! i = Some row /\ (15 <= rec_time row)%R
    /\ (forall j rj, (1 <= j < i)%nat -> toy_rows !! j = Some rj -> (rec_time rj < 15)%R)
    /\ py_index toy_rows (Z.of_nat i - 1) = Ok previous
    /\ new_SbetRow toy_transform (toy_record 10) 15 1
       = new_SbetRow toy_transform previous 15 (Z.of_nat i)
    /\ age (new_SbetRow toy_transform (toy_record 10) 15 1)
       = (15 - sow (new_SbetRow toy_transform (toy_record 10) 15 1))%R
    /\ ((1 < i)%nat -> (0 < age (new_SbetRow toy_transform (toy_record 10) 15 1))%R).
Proof.
  exact (get_position_finds_first toy_transform toy_unix2sow 0 15 false
           (mkParser toy_rows 0) (mkParser toy_rows 1)
           (new_SbetRow toy_transform (toy_record 10) 15 1) toy_get_position).
Defined.

Lemma get_position_continue_agrees_witness :
  get_position toy_transform toy_unix2sow 0 25 true (mkParser toy_rows 2)
  = get_position toy_transform toy_unix2sow 0 25 false (mkParser toy_rows 2).
Proof.
  apply (get_position_continue_agrees toy_transform toy_unix2sow 0 25
           (mkParser toy_rows 2)).
  - simpl. lia.
  - intros j rj Hj Hrow. cbn [current_index] in Hj.
    assert (j = 1%nat) by lia. subst j.
    injection Hrow as <-. unfold toy_unix2sow, toy_record. cbn [rec_time]. lra.
Defined.

Lemma get_position_wraps_at_zero_witness :
  exists final,
    last toy_rows = Some final
    /\ get_position toy_transform toy_unix2sow 0 5 true (mkParser toy_rows 0)
       = (Ok (Some (new_SbetRow toy_transform final 5 0)), mkParser toy_rows 0).
Proof.
  apply (get_position_wraps_at_zero toy_transform toy_unix2sow 0 5
           (mkParser toy_rows 0) (toy_record 10)).
  - reflexivity.
  - reflexivity.
  - unfold toy_unix2sow, toy_record. cbn [rec_time]. lra.
Defined.

Lemma rotate_points_preserves_distances_witness :
  exists c_i' c_j',
    toy_rotated !! 0%nat = Some c_i' /\ toy_rotated !! 1%nat = Some c_j'
    /\ dist (row_np c_i') (row_np c_j') = dist (V3 10 20 100) (V3 13 24 101).
Proof.
  apply (rotate_points_preserves_distances 1 toy_positions toy_rotated 0 1
           (mkRow 0 0 0 100 0 0 10 20 0) (mkRow 1 0 0 101 0 1 13 24 0)).
  - reflexivity.
  - reflexivity.
  - reflexivity.
Defined.

(** A position object listed twice is translated twice. *)
Lemma translate_actual_coordinates_per_occurrence_witness :
  translate_actual_coordinates (V3 1 2 3) [0; 0]%nat [toy_row] !! 0%nat
  = Some (Nat.iter 2 (fun r => translate (V3 0 0 40) (translate (V3 1 2 3) r)) toy_row).
Proof.
  apply (translate_actual_coordinates_per_occurrence (V3 1 2 3) [0; 0]%nat [toy_row]
           0%nat toy_row).
  reflexivity.
Defined.

Lemma load_point_cloud_centres_witness :
  (exists lo hi,
     amin (points (full_cloud toy_ref)) = Ok lo
     /\ amax (points (full_cloud toy_ref)) = Ok hi
     /\ vadd lo hi = V3 0 0 0)
  /\ map (fun p => vadd p (full_point_cloud_offset toy_ref)) (points (full_cloud toy_ref))
     = points (read_point_cloud "raw.pcd" toy_fs).
Proof.
  apply (load_point_cloud_centres toy_normals "raw.pcd" toy_fs (snd toy_loaded) toy_ref).
  - reflexivity.
  - exact load_toy_raw.
Defined.

Lemma load_point_cloud_empty_raw_witness :
  load_point_cloud toy_normals "missing.pcd" toy_fs = (Raise ValueError, toy_fs).
Proof.
  apply (load_point_cloud_empty_raw toy_normals "missing.pcd" toy_fs).
  - reflexivity.
  - reflexivity.
Defined.

Lemma load_point_cloud_sidecar_missing_cloud_witness :
  load_point_cloud toy_normals "ref.cloud" toy_sidecar_fs
  = (Ok (mkRef empty_cloud (V3 1 2 3)), toy_sidecar_fs).
Proof.
  apply (load_point_cloud_sidecar_missing_cloud toy_normals "ref.cloud" "gone.pcd"
           toy_sidecar_fs
           (<["offset" := JFloats [1; 2; 3]%R]> (<["cloud" := JString "gone.pcd"]> ∅))
           1 2 3).
  - reflexivity.
  - reflexivity.
  - reflexivity.
  - reflexivity.
  - reflexivity.
Defined.

Lemma load_point_cloud_bad_sidecar_witness :
  load_point_cloud toy_normals "none.cloud" toy_fs = (Raise FileNotFoundError, toy_fs).
Proof.
  apply (load_point_cloud_bad_sidecar toy_normals "none.cloud" toy_fs).
  - reflexivity.
  - left. reflexivity.
Defined.

(** The first frame merged into the toy absolute navigator. *)
Lemma toy_merge_returns : toy_merge = (Ok true, snd toy_merge).
Proof. apply ok_pair. reflexivity. Qed.

Lemma merge_frame_records_witness :
  true = true
  /\ abs_movements (list PointCloud) (snd toy_merge) = [] ++ [translation_column identity4]
  /\ ls_points (movement_path (list PointCloud) (snd toy_merge))
     = [] ++ [translation_column identity4]
  /\ rmses (plot (list PointCloud) (snd toy_merge)) = [] ++ [0%R]
  /\ fitnesses (plot (list PointCloud) (snd toy_merge)) = [] ++ [0%R]
  /\ distances (plot (list PointCloud) (snd toy_merge))
     = [] ++ [vnorm (translation_column identity4)]
  /\ length (timeUsages (plot (list PointCloud) (snd toy_merge))) = 1%nat
  /\ previous_transformation (list PointCloud) (snd toy_merge) = Some identity4.
Proof.
  exact (merge_frame_records (list PointCloud) toy_normals toy_downsample toy_match4 INR
           toy_frame (toy_abs [] 1) (snd toy_merge) true toy_merge_returns).
Defined.

(** The countdown stands at 5: the first frame is fused and not compacted. *)
Lemma merge_frame_compacts_periodically_witness :
  merged_frame (list PointCloud) (snd toy_merge)
  = cloud_add empty_cloud
      (transform_cloud identity4
         (mkCloud (points toy_frame) (colors toy_frame) (toy_normals toy_frame)))
  /\ merged_frame_is_dirty (list PointCloud) (snd toy_merge) = true
  /\ downsample_timer (list PointCloud) (snd toy_merge) = 4%Z.
Proof.
  exact (merge_frame_compacts_periodically (list PointCloud) toy_normals toy_downsample
           toy_match4 INR toy_frame (toy_abs [] 1) (snd toy_merge) true
           toy_merge_returns).
Defined.

Lemma merge_frame_keeps_series_in_step_witness : series_in_step (snd toy_merge).
Proof.
  apply (merge_frame_keeps_series_in_step (list PointCloud) toy_normals toy_downsample
           toy_match4 INR (Some toy_frame) (toy_abs [] 1) (snd toy_merge) true).
  - repeat split.
  - exact toy_merge_returns.
Defined.

Lemma toy_last_turn_returns : toy_last_turn = (Ok tt, snd toy_last_turn).
Proof. apply ok_pair. reflexivity. Qed.

Lemma toy_hand_over_returns : toy_hand_over = (Ok tt, snd toy_hand_over).
Proof. apply ok_pair. reflexivity. Qed.

(** The countdown stands at 5, so it is line 154 that compacts. *)
Lemma last_fusion_is_compacted_once_witness :
  merged_frame (list PointCloud) (snd toy_hand_over)
  = toy_downsample 0.1
      (cloud_add empty_cloud
         (transform_cloud identity4
            (mkCloud (points toy_frame) (colors toy_frame) (toy_normals toy_frame))))
  /\ merged_frame_is_dirty (list PointCloud) (snd toy_hand_over) = false
  /\ abs_movements (list PointCloud) (snd toy_hand_over)
     = [] ++ [translation_column identity4].
Proof.
  exact (last_fusion_is_compacted_once (list PointCloud) toy_normals toy_downsample
           toy_match4 INR toy_frame (toy_abs [] 1) (snd toy_last_turn)
           (snd toy_hand_over) toy_last_turn_returns toy_hand_over_returns).
Defined.

Lemma navigate_through_file_returns_only_without_frames_witness :
  (0 <= 0)%Z
  /\ abs_movements (list PointCloud) (snd (toy_run 0)) = []
  /\ movement_path (list PointCloud) (snd (toy_run 0)) = empty_lineset
  /\ plot (list PointCloud) (snd (toy_run 0)) = empty_plot
  /\ merged_frame (list PointCloud) (snd (toy_run 0)) = empty_cloud.
Proof.
  exact (navigate_through_file_returns_only_without_frames (list PointCloud)
           toy_reader_next_frame toy_get_coordinates toy_skip toy_normals toy_downsample
           toy_match4 INR (toy_abs [] 0) (snd (toy_run 0)) toy_run_0).
Defined.

Lemma navigate_through_file_without_positions_witness :
  navigate_through_file (list PointCloud) toy_reader_next_frame toy_get_coordinates
    toy_skip toy_normals toy_downsample toy_match4 INR toy_abs_no_positions
  = (Raise IndexError,
     set_heap (list PointCloud) []
       (set_actual_coordinates (list PointCloud) (Some [])
          (set_movement_path (list PointCloud) empty_lineset
             (set_abs_movements (list PointCloud) []
                (set_abs_reader (list PointCloud)
                   (toy_skip (abs_reader (list PointCloud) toy_abs_no_positions))
                   toy_abs_no_positions))))).
Proof.
  apply (navigate_through_file_without_positions (list PointCloud) toy_reader_next_frame
           toy_get_coordinates toy_skip toy_normals toy_downsample toy_match4 INR
           toy_abs_no_positions []).
  - reflexivity.
  - reflexivity.
Defined.

Lemma setup_actual_coordinates_clones_witness :
  exists st' cur ini ls,
    setup_actual_coordinates (list PointCloud) toy_get_coordinates (toy_abs [] 1)
    = (Ok tt, st')
    /\ current_coordinate (list PointCloud) st' = Some cur
    /\ initial_coordinate (list PointCloud) st' = Some ini
    /\ cur <> ini
    /\ ~ In cur [0%nat] /\ ~ In ini [0%nat]
    /\ heap (list PointCloud) st' !! cur = heap (list PointCloud) st' !! 0%nat
    /\ heap (list PointCloud) st' !! ini = heap (list PointCloud) st' !! 0%nat
    /\ actual_movement_path (list PointCloud) st' = Some ls
    /\ Forall2 (fun c p => row_np <$> heap (list PointCloud) st' !! c = Some p)
               [0%nat] (ls_points ls)
    /\ ls_lines ls = consecutive_lines (length [0%nat]).
Proof.
  apply (setup_actual_coordinates_clones (list PointCloud) toy_get_coordinates
           (toy_abs [] 1) 0%nat [] [toy_row]).
  - reflexivity.
  - reflexivity.
  - constructor; [simpl; lia|constructor].
Defined.

(** The toy relative run ends, at the end of its stream. *)
Lemma toy_relative_run_ends :
  toy_relative_run
  = Some (match toy_relative_run with
          | Some out => out
          | None => (toy_nav, empty_plot)
          end).
Proof. reflexivity. Qed.

Lemma navigateThroughFile_records_in_step_witness :
  records_in_step
    (fst (match toy_relative_run with Some out => out | None => (toy_nav, empty_plot) end))
    (snd (match toy_relative_run with Some out => out | None => (toy_nav, empty_plot) end)).
Proof.
  apply (navigateThroughFile_records_in_step (list PointCloud) toy_readFrame toy_nextFrame
           toy_prepared toy_normals toy_downsample toy_match INR 3 toy_nav).
  reflexivity.
Defined.

Lemma navigateThroughFile_distances_are_spacing_witness :
  distances_are_spacing
    (movements (list PointCloud)
       (fst (match toy_relative_run with
             | Some out => out
             | None => (toy_nav, empty_plot)
             end)))
    (distances
       (snd (match toy_relative_run with
             | Some out => out
             | None => (toy_nav, empty_plot)
             end))).
Proof.
  apply (navigateThroughFile_distances_are_spacing (list PointCloud) toy_readFrame
           toy_nextFrame toy_prepared toy_normals toy_downsample toy_match INR 3 toy_nav).
  reflexivity.
Defined.

(** An iterator that has run out: both toy readers are passed. *)
Lemma toy_serial_skip_and_get :
  serial_skip_and_get ([] : list toy_scan) toy_serial
  = (None, [],
     mkSerial [set_max_distance None drained_reader; set_max_distance None toy_reader]
              2 None None).
Proof. reflexivity. Qed.

Lemma serial_skip_and_get_gives_up_witness :
  (2 <= 2)%nat
  /\ 2%nat = length (readers toy_serial)
  /\ forall rv,
       serial_next_frame toy_xyzLut toy_colorize rv
         (mkSerial [set_max_distance None drained_reader; set_max_distance None toy_reader]
                   2 None None)
       = (Ok None,
          mkSerial [set_max_distance None drained_reader; set_max_distance None toy_reader]
                   2 None None).
Proof.
  exact (serial_skip_and_get_gives_up toy_xyzLut toy_colorize [] [] toy_serial
           (mkSerial [set_max_distance None drained_reader;
                      set_max_distance None toy_reader] 2 None None)
           None toy_serial_skip_and_get).
Defined.

Lemma serial_read_all_frames_concatenates_witness :
  exists frames s',
    serial_read_all_frames toy_xyzLut toy_colorize false toy_serial = (Ok frames, s')
    /\ frames
       = concat (map (fun r => reader_frames toy_xyzLut toy_colorize false
                                 (set_max_distance (serial_max_distance toy_serial) r))
                     (drop (current_reader_index toy_serial) (readers toy_serial)))
    /\ length frames
       = sum_list_with
           (fun r => (length (scans r) / S (Z.to_nat (skip_frames r)))%nat)
           (drop (current_reader_index toy_serial) (readers toy_serial))
    /\ (length (readers s') <= current_reader_index s')%nat.
Proof.
  exact (serial_read_all_frames_concatenates toy_xyzLut toy_colorize toy_lut_rows false
           toy_serial).
Defined.
